(** * KiloMan: the simulation step and the score calculator

    A shallow embedding of [app/components/Game/GameCanvas.tsx] (session
    reset, the per-frame [update]), of [app/components/Game/gameLogic.ts]
    and of the inline score function of [GameContainer.tsx].

    Numbers.  A JavaScript [number] is modelled as a rational [Q]: every
    finite double is a rational.  In the frame step the arithmetic of the
    source ([+], [-], [*], [/ 2], comparisons, [Math.abs], [Math.max]) is
    taken exactly.  In the score calculation, where the integer returned
    depends on how the product rounds, and in the division that yields
    the elapsed seconds, each operation rounds its exact result to
    binary64 with [fl64].  [NaN] and the infinities are outside the
    model.

    Level.  [levelData.ts] is not among the sources (only its tests
    are), so the level is a parameter [LEVEL_1 : list LevelEntity.t] of
    every operation that reads it.

    State.  The [useRef] cells of the component ([playerRef], [cameraRef],
    [monstersRef], [keysRef], [frameCountRef]) are the fields of one
    [Session] record that every operation takes and returns;
    [setGameState(..)] is the request returned next to the new session. *)

From Stdlib Require Import QArith Qround Qabs Qminmax Qpower Lqa Lia ZArith List Bool.
From stdpp Require Import base gmap strings.
Import ListNotations.

Local Open Scope Q_scope.

(** ** Comparisons of numbers, as booleans *)

Definition Qltb (a b : Q) : bool := negb (Qle_bool b a).
Definition Qgtb (a b : Q) : bool := Qltb b a.
Definition Qleb (a b : Q) : bool := Qle_bool a b.
Definition Qgeb (a b : Q) : bool := Qle_bool b a.

(** JavaScript's [v || d] on an optional number: [undefined] and [0] are
    falsy, every other number is kept. *)
Definition orDefault (v : option Q) (d : Q) : Q :=
  match v with
  | Some n => if Qeq_bool n 0 then d else n
  | None => d
  end.

(** ** types.ts *)

Module EntityType.
Inductive t : Set := platform | hazard | goal | start | monster.

Definition eqb (a b : t) : bool :=
  match a, b with
  | platform, platform | hazard, hazard | goal, goal
  | start, start | monster, monster => true
  | _, _ => false
  end.
End EntityType.

Module LevelEntity.
Record t : Type := mk {
  id : string;
  x : Q;
  y : Q;
  w : Q;
  h : Q;
  type : EntityType.t;
  patrolStart : option Q;
  patrolEnd : option Q;
  speed : option Q
}.
End LevelEntity.

Module PlayerState.
Record t : Type := mk {
  x : Q;
  y : Q;
  vx : Q;
  vy : Q;
  width : Q;
  height : Q;
  isGrounded : bool;
  facing : Z;
  frame : Z
}.

Definition set_x (v : Q) (p : t) : t :=
  mk v (y p) (vx p) (vy p) (width p) (height p) (isGrounded p) (facing p) (frame p).
Definition set_y (v : Q) (p : t) : t :=
  mk (x p) v (vx p) (vy p) (width p) (height p) (isGrounded p) (facing p) (frame p).
Definition set_vx (v : Q) (p : t) : t :=
  mk (x p) (y p) v (vy p) (width p) (height p) (isGrounded p) (facing p) (frame p).
Definition set_vy (v : Q) (p : t) : t :=
  mk (x p) (y p) (vx p) v (width p) (height p) (isGrounded p) (facing p) (frame p).
Definition set_isGrounded (v : bool) (p : t) : t :=
  mk (x p) (y p) (vx p) (vy p) (width p) (height p) v (facing p) (frame p).
Definition set_facing (v : Z) (p : t) : t :=
  mk (x p) (y p) (vx p) (vy p) (width p) (height p) (isGrounded p) v (frame p).
End PlayerState.

Module MonsterState.
Record t : Type := mk {
  id : string;
  x : Q;
  y : Q;
  w : Q;
  h : Q;
  vx : Q;
  patrolStart : Q;
  patrolEnd : Q;
  speed : Q
}.
End MonsterState.

Module GameStatus.
Inductive t : Set := start | playing | won | lost.

Definition eqb (a b : t) : bool :=
  match a, b with
  | start, start | playing, playing | won, won | lost, lost => true
  | _, _ => false
  end.
End GameStatus.

Module GameConfig.
Record t : Type := mk {
  gravity : Q;
  friction : Q;
  moveSpeed : Q;
  maxSpeed : Q;
  baseJumpForce : Q;
  levelWidth : Q
}.
End GameConfig.

(** ** Binary64 rounding

    [fl64 x] is the number nearest to [x] among those with at most 53
    significant bits, a tie going to the even significand: the double an
    arithmetic operation of the source returns when its exact result is
    [x].  The exponent is not bounded, so the overflow to an infinity
    (from [2^1024] on) and the coarser grid of the subnormals (below
    [2^-1022]) are not represented. *)

(** The integer nearest to [x], a tie going to the even one. *)
Definition roundHalfEven (x : Q) : Z :=
  let f := Qfloor x in
  match Qcompare (x - inject_Z f) (1 # 2) with
  | Lt => f
  | Gt => (f + 1)%Z
  | Eq => if Z.even f then f else (f + 1)%Z
  end.

(** The exponent [k] with [2^k <= x < 2^(k+1)], for [0 < x]. *)
Definition Qilog2 (x : Q) : Z :=
  let k := (Z.log2 (Qnum x) - Z.log2 (Zpos (Qden x)))%Z in
  if Qle_bool (2 ^ k) x then k else (k - 1)%Z.

Definition fl64pos (x : Q) : Q :=
  let e := (Qilog2 x - 52)%Z in
  inject_Z (roundHalfEven (x / 2 ^ e)) * 2 ^ e.

Definition fl64 (x : Q) : Q :=
  match Qcompare x 0 with
  | Eq => 0
  | Gt => fl64pos x
  | Lt => - fl64pos (- x)
  end.

(** ** gameLogic.ts

    The product and the difference are rounded as the source's [*] and
    [-] round them; [Math.floor] and [Math.max] are exact on doubles.
    The difference of two integers rounds to an integer, which the outer
    [Qfloor] reads off as the [Z] returned. *)

Definition calculatePoints (timeInSeconds : Q) : Z :=
  let basePoints := 10000 in
  let pointsPerSecond := 100 in
  let points :=
    Z.max 1000
      (Qfloor (fl64 (basePoints
                     - inject_Z (Qfloor (fl64 (timeInSeconds * pointsPerSecond)))))) in
  points.

(** ** GameContainer.tsx: the same function, declared inside the component *)

Module GameContainer.
Definition calculatePoints (timeInSeconds : Q) : Z :=
  let basePoints := 10000 in
  let pointsPerSecond := 100 in
  let points :=
    Z.max 1000
      (Qfloor (fl64 (basePoints
                     - inject_Z (Qfloor (fl64 (timeInSeconds * pointsPerSecond)))))) in
  points.
End GameContainer.

(** ** GameCanvas.tsx *)

(** The canvas element behind [canvasRef]: its pixel size. *)
Module Canvas.
Record t : Type := mk { width : Q; height : Q }.
End Canvas.

Module Camera.
Record t : Type := mk { x : Q; y : Q }.
End Camera.

(** The mutable cells of the component. *)
Record Session : Type := mkSession {
  player : PlayerState.t;
  camera : Camera.t;
  monsters : list MonsterState.t;
  keys : gmap string bool;
  frameCount : Z
}.

Definition CONFIG : GameConfig.t :=
  {| GameConfig.gravity := 0.6;
     GameConfig.friction := 0.85;
     GameConfig.moveSpeed := 0.8;
     GameConfig.maxSpeed := 8.0;
     GameConfig.baseJumpForce := -14;
     GameConfig.levelWidth := 7000 |}.

(** The property names that a plain object such as [keysRef.current]
    inherits from [Object.prototype].  Under these names [keys[code]] does
    not read what the listeners stored: before any event it finds the
    inherited member, and [__proto__] is an accessor that ignores the
    assignment of a boolean.  No [KeyboardEvent.code] is among them. *)
Definition objectPrototypeNames : list string :=
  [ "__proto__"; "constructor"; "hasOwnProperty"; "isPrototypeOf";
    "propertyIsEnumerable"; "toLocaleString"; "toString"; "valueOf";
    "__defineGetter__"; "__defineSetter__";
    "__lookupGetter__"; "__lookupSetter__" ]%string.

(** A code under which [keysRef.current] holds only what was stored. *)
Definition ownKey (code : string) : bool :=
  negb (List.existsb (String.eqb code) objectPrototypeNames).

(** [keys[code]], for an [ownKey]: a key never pressed reads [undefined],
    which is falsy. *)
Definition pressed (keys : gmap string bool) (code : string) : bool :=
  default false (keys !! code).

Definition handleKeyDown (code : string) (keys : gmap string bool) : gmap string bool :=
  <[code := true]> keys.

Definition handleKeyUp (code : string) (keys : gmap string bool) : gmap string bool :=
  <[code := false]> keys.

(** *** Reset Game State *)

Definition isType (ty : EntityType.t) (e : LevelEntity.t) : bool :=
  EntityType.eqb (LevelEntity.type e) ty.

Definition initialPlayer (LEVEL_1 : list LevelEntity.t) : PlayerState.t :=
  let startPos := List.find (isType EntityType.start) LEVEL_1 in
  {| PlayerState.x := match startPos with Some s => LevelEntity.x s | None => 50 end;
     PlayerState.y := match startPos with Some s => LevelEntity.y s | None => 350 end;
     PlayerState.vx := 0;
     PlayerState.vy := 0;
     PlayerState.width := 30;
     PlayerState.height := 50;
     PlayerState.isGrounded := false;
     PlayerState.facing := 1;
     PlayerState.frame := 0 |}.

Definition initialMonster (m : LevelEntity.t) : MonsterState.t :=
  {| MonsterState.id := LevelEntity.id m;
     MonsterState.x := LevelEntity.x m;
     MonsterState.y := LevelEntity.y m;
     MonsterState.w := LevelEntity.w m;
     MonsterState.h := LevelEntity.h m;
     MonsterState.vx := orDefault (LevelEntity.speed m) 2;
     MonsterState.patrolStart :=
       orDefault (LevelEntity.patrolStart m) (LevelEntity.x m - 100);
     MonsterState.patrolEnd :=
       orDefault (LevelEntity.patrolEnd m) (LevelEntity.x m + 100);
     MonsterState.speed := orDefault (LevelEntity.speed m) 2 |}.

Definition initialMonsters (LEVEL_1 : list LevelEntity.t) : list MonsterState.t :=
  List.map initialMonster (List.filter (isType EntityType.monster) LEVEL_1).

(** The effect that runs when [gameState] changes: it rebuilds the player,
    the camera and the monsters when the new status is [playing], and
    touches nothing otherwise.  [keysRef] and [frameCountRef] are not
    assigned by it. *)
Definition resetGameState (gameState : GameStatus.t)
    (LEVEL_1 : list LevelEntity.t) (s : Session) : Session :=
  if GameStatus.eqb gameState GameStatus.playing then
    {| player := initialPlayer LEVEL_1;
       camera := {| Camera.x := 0; Camera.y := 0 |};
       monsters := initialMonsters LEVEL_1;
       keys := keys s;
       frameCount := frameCount s |}
  else s.

(** *** The game loop: [update] *)

(** Horizontal Movement *)
Definition horizontalMovement (keys : gmap string bool) (p : PlayerState.t)
    : PlayerState.t :=
  let p :=
    if pressed keys "ArrowLeft"
    then PlayerState.set_facing (-1)
           (PlayerState.set_vx (PlayerState.vx p - GameConfig.moveSpeed CONFIG) p)
    else p in
  let p :=
    if pressed keys "ArrowRight"
    then PlayerState.set_facing 1
           (PlayerState.set_vx (PlayerState.vx p + GameConfig.moveSpeed CONFIG) p)
    else p in
  p.

(** Friction & Limits *)
Definition frictionAndLimits (p : PlayerState.t) : PlayerState.t :=
  let p := PlayerState.set_vx (PlayerState.vx p * GameConfig.friction CONFIG) p in
  let p :=
    if Qgtb (PlayerState.vx p) (GameConfig.maxSpeed CONFIG)
    then PlayerState.set_vx (GameConfig.maxSpeed CONFIG) p else p in
  let p :=
    if Qltb (PlayerState.vx p) (- GameConfig.maxSpeed CONFIG)
    then PlayerState.set_vx (- GameConfig.maxSpeed CONFIG) p else p in
  p.

(** Gravity *)
Definition applyGravity (p : PlayerState.t) : PlayerState.t :=
  PlayerState.set_vy (PlayerState.vy p + GameConfig.gravity CONFIG) p.

(** Jumping *)
Definition jumping (keys : gmap string bool) (jumpModifier : Q)
    (p : PlayerState.t) : PlayerState.t :=
  if pressed keys "Space" && PlayerState.isGrounded p
  then PlayerState.set_isGrounded false
         (PlayerState.set_vy (GameConfig.baseJumpForce CONFIG * jumpModifier) p)
  else p.

(** Apply Velocity *)
Definition applyVelocity (p : PlayerState.t) : PlayerState.t :=
  let p := PlayerState.set_x (PlayerState.x p + PlayerState.vx p) p in
  let p := PlayerState.set_y (PlayerState.y p + PlayerState.vy p) p in
  p.

(** The block headed PLAYER PHYSICS, in source order. *)
Definition playerPhysics (keys : gmap string bool) (jumpModifier : Q)
    (p : PlayerState.t) : PlayerState.t :=
  applyVelocity
    (jumping keys jumpModifier
       (applyGravity (frictionAndLimits (horizontalMovement keys p)))).

(** MONSTER LOGIC: the body of [monsters.forEach]. *)
Definition monsterLogic (m : MonsterState.t) : MonsterState.t :=
  let x := MonsterState.x m + MonsterState.vx m in
  if Qleb x (MonsterState.patrolStart m) then
    MonsterState.mk (MonsterState.id m) (MonsterState.patrolStart m)
      (MonsterState.y m) (MonsterState.w m) (MonsterState.h m)
      (Qabs (MonsterState.speed m))
      (MonsterState.patrolStart m) (MonsterState.patrolEnd m) (MonsterState.speed m)
  else if Qgeb x (MonsterState.patrolEnd m) then
    MonsterState.mk (MonsterState.id m) (MonsterState.patrolEnd m)
      (MonsterState.y m) (MonsterState.w m) (MonsterState.h m)
      (- Qabs (MonsterState.speed m))
      (MonsterState.patrolStart m) (MonsterState.patrolEnd m) (MonsterState.speed m)
  else
    MonsterState.mk (MonsterState.id m) x
      (MonsterState.y m) (MonsterState.w m) (MonsterState.h m)
      (MonsterState.vx m)
      (MonsterState.patrolStart m) (MonsterState.patrolEnd m) (MonsterState.speed m).

(** World Boundaries: the two clamps of [player.x]. *)
Definition worldBoundaries (p : PlayerState.t) : PlayerState.t :=
  let p :=
    if Qltb (PlayerState.x p) 0
    then PlayerState.set_vx 0 (PlayerState.set_x 0 p) else p in
  let p :=
    if Qgtb (PlayerState.x p) (GameConfig.levelWidth CONFIG)
    then PlayerState.set_vx 0 (PlayerState.set_x (GameConfig.levelWidth CONFIG) p)
    else p in
  p.

(** The rectangle test of the entity scan. *)
Definition overlapsEntity (p : PlayerState.t) (entity : LevelEntity.t) : bool :=
  Qltb (PlayerState.x p) (LevelEntity.x entity + LevelEntity.w entity)
  && Qgtb (PlayerState.x p + PlayerState.width p) (LevelEntity.x entity)
  && Qltb (PlayerState.y p) (LevelEntity.y entity + LevelEntity.h entity)
  && Qgtb (PlayerState.y p + PlayerState.height p) (LevelEntity.y entity).

(** The same test against a live monster. *)
Definition overlapsMonster (p : PlayerState.t) (m : MonsterState.t) : bool :=
  Qltb (PlayerState.x p) (MonsterState.x m + MonsterState.w m)
  && Qgtb (PlayerState.x p + PlayerState.width p) (MonsterState.x m)
  && Qltb (PlayerState.y p) (MonsterState.y m + MonsterState.h m)
  && Qgtb (PlayerState.y p + PlayerState.height p) (MonsterState.y m).

Definition overlapX (p : PlayerState.t) (entity : LevelEntity.t) : Q :=
  (PlayerState.width p + LevelEntity.w entity) / 2
  - Qabs ((PlayerState.x p + PlayerState.width p / 2)
          - (LevelEntity.x entity + LevelEntity.w entity / 2)).

Definition overlapY (p : PlayerState.t) (entity : LevelEntity.t) : Q :=
  (PlayerState.height p + LevelEntity.h entity) / 2
  - Qabs ((PlayerState.y p + PlayerState.height p / 2)
          - (LevelEntity.y entity + LevelEntity.h entity / 2)).

(** The [platform] branch of the entity scan. *)
Definition resolvePlatform (p : PlayerState.t) (entity : LevelEntity.t)
    : PlayerState.t :=
  if Qltb (overlapX p entity) (overlapY p entity) then
    let p :=
      if Qgtb (PlayerState.vx p) 0
      then PlayerState.set_x (LevelEntity.x entity - PlayerState.width p) p
      else PlayerState.set_x (LevelEntity.x entity + LevelEntity.w entity) p in
    PlayerState.set_vx 0 p
  else
    if Qgtb (PlayerState.vy p) 0 then
      let p := PlayerState.set_y (LevelEntity.y entity - PlayerState.height p) p in
      let p := PlayerState.set_isGrounded true p in
      PlayerState.set_vy 0 p
    else
      let p := PlayerState.set_y (LevelEntity.y entity + LevelEntity.h entity) p in
      PlayerState.set_vy 0 p.

(** Entity Collision: [for (const entity of LEVEL_1)].  The result is the
    player as the loop leaves it and the status passed to [setGameState]
    when the loop returned early. *)
Fixpoint entityCollision (LEVEL_1 : list LevelEntity.t) (p : PlayerState.t)
    : PlayerState.t * option GameStatus.t :=
  match LEVEL_1 with
  | [] => (p, None)
  | entity :: rest =>
      if isType EntityType.monster entity then entityCollision rest p
      else if overlapsEntity p entity then
        match LevelEntity.type entity with
        | EntityType.hazard => (p, Some GameStatus.lost)
        | EntityType.goal => (p, Some GameStatus.won)
        | EntityType.platform => entityCollision rest (resolvePlatform p entity)
        | _ => entityCollision rest p
        end
      else entityCollision rest p
  end.

(** Monster Collision (Player vs Monster): does the loop reach its
    [setGameState('lost')]? *)
Definition monsterCollision (monsters : list MonsterState.t)
    (p : PlayerState.t) : bool :=
  List.existsb (overlapsMonster p) monsters.

(** CAMERA UPDATE, the body of [if (canvas)]. *)
Definition cameraTargetX (canvas : Canvas.t) (p : PlayerState.t) : Q :=
  let targetX := PlayerState.x p - Canvas.width canvas / 2 + PlayerState.width p / 2 in
  let targetX := if Qltb targetX 0 then 0 else targetX in
  let targetX :=
    if Qgtb targetX (GameConfig.levelWidth CONFIG - Canvas.width canvas)
    then GameConfig.levelWidth CONFIG - Canvas.width canvas else targetX in
  targetX.

Definition cameraTargetY (canvas : Canvas.t) (p : PlayerState.t) : Q :=
  let groundLevel := 600 in
  let idealCameraY := groundLevel - Canvas.height canvas + 50 in
  let targetY := idealCameraY in
  let targetY :=
    if Qltb (PlayerState.y p) (groundLevel - Canvas.height canvas * 0.6)
    then PlayerState.y p - Canvas.height canvas * 0.4 else targetY in
  let targetY :=
    if Qgtb (PlayerState.y p) (groundLevel + 100)
    then PlayerState.y p - Canvas.height canvas * 0.8 else targetY in
  let lowestPoint := 800 in
  let maxCameraY := lowestPoint - Canvas.height canvas in
  let targetY := if Qgtb targetY maxCameraY then maxCameraY else targetY in
  targetY.

Definition cameraUpdate (canvas : Canvas.t) (p : PlayerState.t)
    (cam : Camera.t) : Camera.t :=
  let targetX := cameraTargetX canvas p in
  let targetY := cameraTargetY canvas p in
  {| Camera.x := Camera.x cam + (targetX - Camera.x cam) * 0.1;
     Camera.y := Camera.y cam + (targetY - Camera.y cam) * 0.05 |}.

(** The player as the entity scan receives it: physics, the reset of
    [isGrounded], the world clamp. *)
Definition playerBeforeScan (jumpModifier : Q) (s : Session) : PlayerState.t :=
  worldBoundaries
    (PlayerState.set_isGrounded false
       (playerPhysics (keys s) jumpModifier (player s))).

(** One call of [update].  [canvas] is [canvasRef.current]; the second
    component is the argument of [setGameState] when the call made one. *)
Definition update (gameState : GameStatus.t) (jumpModifier : Q)
    (canvas : option Canvas.t) (LEVEL_1 : list LevelEntity.t) (s : Session)
    : Session * option GameStatus.t :=
  if negb (GameStatus.eqb gameState GameStatus.playing) then (s, None)
  else
    let frameCount := (frameCount s + 1)%Z in
    let monsters := List.map monsterLogic (monsters s) in
    let p := playerBeforeScan jumpModifier s in
    if Qgtb (PlayerState.y p) 800 then
      (mkSession p (camera s) monsters (keys s) frameCount, Some GameStatus.lost)
    else
      match entityCollision LEVEL_1 p with
      | (p, Some status) =>
          (mkSession p (camera s) monsters (keys s) frameCount, Some status)
      | (p, None) =>
          if monsterCollision monsters p then
            (mkSession p (camera s) monsters (keys s) frameCount,
             Some GameStatus.lost)
          else
            let camera :=
              match canvas with
              | Some canvas => cameraUpdate canvas p (camera s)
              | None => camera s
              end in
            (mkSession p camera monsters (keys s) frameCount, None)
      end.

(** [n] consecutive frames of [update] as long as no request is made. *)
Fixpoint frames (n : nat) (jumpModifier : Q) (canvas : option Canvas.t)
    (LEVEL_1 : list LevelEntity.t) (s : Session) : Session * option GameStatus.t :=
  match n with
  | O => (s, None)
  | S n' =>
      match update GameStatus.playing jumpModifier canvas LEVEL_1 s with
      | (s', None) => frames n' jumpModifier canvas LEVEL_1 s'
      | r => r
      end
  end.


(** ** Events of the entity scan *)

(** A landing during the scan of [LEVEL_1] from [p]: the scan reaches a
    platform [e] with the player [q], [q] overlaps [e], the vertical axis
    is chosen and [q] is falling. *)
Definition landing (LEVEL_1 : list LevelEntity.t) (p : PlayerState.t) : Prop :=
  exists (pre post : list LevelEntity.t) (e : LevelEntity.t) (q : PlayerState.t),
    LEVEL_1 = pre ++ e :: post
    /\ entityCollision pre p = (q, None)
    /\ LevelEntity.type e = EntityType.platform
    /\ overlapsEntity q e = true
    /\ overlapY q e <= overlapX q e
    /\ 0 < PlayerState.vy q
    /\ PlayerState.y (resolvePlatform q e) = LevelEntity.y e - PlayerState.height q
    /\ PlayerState.vy (resolvePlatform q e) = 0
    /\ PlayerState.isGrounded (resolvePlatform q e) = true.

(** ** Held horizontal input *)

(** Exactly one of the two arrow keys is down; [d] is its direction. *)
Definition held (keys : gmap string bool) (d : Q) : Prop :=
  (pressed keys "ArrowRight" = true /\ pressed keys "ArrowLeft" = false /\ d = 1)
  \/ (pressed keys "ArrowLeft" = true /\ pressed keys "ArrowRight" = false /\ d = -1).

(** The fixed point of [v -> (v + moveSpeed) * friction]. *)
Definition terminalSpeed : Q :=
  GameConfig.moveSpeed CONFIG * GameConfig.friction CONFIG
  / (1 - GameConfig.friction CONFIG).

(** [vx] at integration time in frame [k] of free motion (no collision
    touching [vx] in between). *)
Definition vxAfter (keys : gmap string bool) (jumpModifier : Q)
    (p : PlayerState.t) (k : nat) : Q :=
  PlayerState.vx (Nat.iter k (playerPhysics keys jumpModifier) p).

(** ** Sample data used by the examples below *)

Definition entity (id : string) (ty : EntityType.t) (x y w h : Q) : LevelEntity.t :=
  LevelEntity.mk id x y w h ty None None None.

(** A monster descriptor with none of its optional fields. *)
Definition bareMonster : LevelEntity.t :=
  entity "m-bare" EntityType.monster 500 510 40 40.

(** A monster descriptor that gives [patrolEnd] only, left of its spawn. *)
Definition lopsidedMonster : LevelEntity.t :=
  LevelEntity.mk "m-lopsided" 500 510 40 40 EntityType.monster None (Some 300) None.

(** A monster descriptor that gives [patrolEnd] only, as 0. *)
Definition zeroEndMonster : LevelEntity.t :=
  LevelEntity.mk "m-zero-end" 150 510 40 40 EntityType.monster None (Some 0) None.

(** A fully specified monster descriptor. *)
Definition walkerEntity : LevelEntity.t :=
  LevelEntity.mk "m-walker" 300 510 40 40 EntityType.monster
    (Some 200) (Some 400) (Some 3).

Definition demoLevel : list LevelEntity.t :=
  [ entity "start" EntityType.start 50 350 0 0;
    entity "ground" EntityType.platform 0 550 1000 50;
    walkerEntity;
    entity "goal" EntityType.goal 900 450 50 100 ].

Definition freshSession : Session :=
  mkSession (initialPlayer demoLevel) (Camera.mk 0 0) (initialMonsters demoLevel) ∅ 0.

(** A session in the middle of a run: the player elsewhere and moving, no
    monsters left in the list, the camera scrolled, a key held. *)
Definition usedSession : Session :=
  mkSession (PlayerState.mk 640 120 (-3) 7.5 30 50 true (-1) 0)
    (Camera.mk 240 (-35)) [] (handleKeyDown "ArrowLeft" ∅) 977.

(** A tall block and a player that has fallen, without horizontal speed,
    5 units into the block's left flank. *)
Definition tallBlock : LevelEntity.t :=
  entity "block" EntityType.platform 100 0 200 100.

Definition flankPlayer : PlayerState.t :=
  PlayerState.mk 75 25 0 26 30 50 false 1 0.

(** The frame before: the same player one step higher. *)
Definition flankSession : Session :=
  mkSession (PlayerState.mk 75 (-1) 0 25.4 30 50 false 1 0) (Camera.mk 0 0) [] ∅ 0.

(** A platform with a strip of spikes let into its top surface, and a
    player about to come down on the strip. *)
Definition spikedFloor : list LevelEntity.t :=
  [ entity "floor" EntityType.platform 0 400 200 50;
    entity "spikes" EntityType.hazard 50 400 20 10 ].

Definition fallingSession : Session :=
  mkSession (PlayerState.mk 50 345 0 9.4 30 50 false 1 0) (Camera.mk 0 0) [] ∅ 0.

(** The same strip listed before the platform. *)
Definition spikesFirst : list LevelEntity.t :=
  [ entity "spikes" EntityType.hazard 50 400 20 10;
    entity "floor" EntityType.platform 0 400 200 50 ].

(** Spikes standing on ground that is listed before them, and a player
    walking on the ground towards the spikes. *)
Definition groundThenSpikes : list LevelEntity.t :=
  [ entity "ground" EntityType.platform 0 550 1000 50;
    entity "spikes" EntityType.hazard 200 530 40 20 ].

Definition strollingSession : Session :=
  mkSession (PlayerState.mk 175 500 4 0 30 50 true 1 0) (Camera.mk 0 0) [] ∅ 0.

(** The same spikes behind a goal that is listed before them. *)
Definition goalThenSpikes : list LevelEntity.t :=
  [ entity "goal" EntityType.goal 190 450 50 100;
    entity "spikes" EntityType.hazard 200 530 40 20 ].

(** A player far below the level. *)
Definition lostSession : Session :=
  mkSession (PlayerState.mk (-3) 795 (-2) 12 30 50 false (-1) 0)
    (Camera.mk 10 20) (initialMonsters demoLevel) ∅ 41.

Definition viewport : Canvas.t := Canvas.mk 800 600.

(** A player walking on the ground platform of [demoLevel]. *)
Definition walkingSession : Session :=
  mkSession (PlayerState.mk 600 500 4 0 30 50 true 1 0) (Camera.mk 150 40)
    [] (handleKeyDown "ArrowRight" ∅) 12.

(** The right arrow pressed and nothing else. *)
Definition rightHeld : gmap string bool := handleKeyDown "ArrowRight" ∅.

(** The landing scenario: a platform at [y = 400], [h = 50], [x] from 0 to
    200, and a player that starts at rest at [y = 350] with no key held. *)
Definition ledge : list LevelEntity.t :=
  [ entity "start" EntityType.start 50 350 0 0;
    entity "ledge" EntityType.platform 0 400 200 50 ].

Definition ledgeSession : Session :=
  resetGameState GameStatus.playing ledge freshSession.

(** ** More notions for the properties *)

(** The fields no step of the frame assigns. *)
Definition sameBody (p q : PlayerState.t) : Prop :=
  PlayerState.width q = PlayerState.width p
  /\ PlayerState.height q = PlayerState.height p
  /\ PlayerState.frame q = PlayerState.frame p.

(** ** GameContainer.tsx: the component around the canvas *)

Module CompletionData.
Record t : Type := mk { completionTime : Q; points : Z }.
End CompletionData.

(** The state of the [GameContainer] component: its three [useState]
    cells and [startTimeRef]. *)
Module Container.
Record t : Type := mk {
  gameState : GameStatus.t;
  jumpModifier : Q;
  completionData : option CompletionData.t;
  startTimeRef : Q
}.

(** The component as mounted. *)
Definition initial : t := mk GameStatus.start 1.0 None 0.

(** Track game start time.  [now] is the value of [Date.now()]. *)
Definition trackStart (now : Q) (c : t) : t :=
  if GameStatus.eqb (gameState c) GameStatus.playing
  then mk (gameState c) (jumpModifier c) None now
  else c.

(** Calculate completion data when game is won.  The subtraction and the
    division round as the source's do. *)
Definition completeOnWin (now : Q) (c : t) : t :=
  if GameStatus.eqb (gameState c) GameStatus.won && Qgtb (startTimeRef c) 0 then
    let completionTime := fl64 (fl64 (now - startTimeRef c) / 1000) in
    let points := GameContainer.calculatePoints completionTime in
    mk (gameState c) (jumpModifier c)
      (Some (CompletionData.mk completionTime points)) (startTimeRef c)
  else c.

(** [setGameState(status)]: a call with the current status changes
    nothing and runs no effect; any other value is stored and the two
    effects that depend on [gameState] run, in the order they are
    declared. *)
Definition setGameState (status : GameStatus.t) (now : Q) (c : t) : t :=
  if GameStatus.eqb status (gameState c) then c
  else completeOnWin now
         (trackStart now
            (mk status (jumpModifier c) (completionData c) (startTimeRef c))).

Definition handleRestart (now : Q) (c : t) : t :=
  setGameState GameStatus.playing now c.

Definition setJumpModifier (val : Q) (c : t) : t :=
  mk (gameState c) val (completionData c) (startTimeRef c).
End Container.

(** ** UIOverlay.tsx: which panels are rendered *)

Module UIOverlay.
(** Center: Game Over / Win Screens. *)
Definition endScreen (gameState : GameStatus.t) : bool :=
  negb (GameStatus.eqb gameState GameStatus.playing)
  && negb (GameStatus.eqb gameState GameStatus.start).

(** The points and time block inside the end screen. *)
Definition scorePanel (gameState : GameStatus.t)
    (completionData : option CompletionData.t) : bool :=
  endScreen gameState
  && (GameStatus.eqb gameState GameStatus.won
      && match completionData with Some _ => true | None => false end).

(** Start Screen Overlay. *)
Definition startScreen (gameState : GameStatus.t) : bool :=
  GameStatus.eqb gameState GameStatus.start.

(** A button wired to [onRestart] is on screen. *)
Definition restartButton (gameState : GameStatus.t) : bool :=
  endScreen gameState || startScreen gameState.
End UIOverlay.

(** ** The two components together *)

(** The container and the refs of the canvas it renders. *)
Record App : Type := mkApp {
  container : Container.t;
  session : Session
}.

(** The refs of [GameCanvas] as mounted. *)
Definition mountedSession : Session :=
  mkSession (PlayerState.mk 50 350 0 0 30 50 false 1 0) (Camera.mk 0 0) [] ∅ 0.

Definition mountedApp : App := mkApp Container.initial mountedSession.

(** A status change seen by both components: the container's effects
    and the canvas's reset effect all depend on [gameState].  The change
    and its effects are taken as one step, finished before the next
    event. *)
Definition appSetGameState (status : GameStatus.t) (now : Q)
    (LEVEL_1 : list LevelEntity.t) (a : App) : App :=
  if GameStatus.eqb status (Container.gameState (container a)) then a
  else mkApp (Container.setGameState status now (container a))
         (resetGameState status LEVEL_1 (session a)).

(** One animation frame: [update] with the props the container passes
    down, then the status change it asked for, if any. *)
Definition onFrame (now : Q) (canvas : option Canvas.t)
    (LEVEL_1 : list LevelEntity.t) (a : App) : App :=
  let '(s', request) :=
    update (Container.gameState (container a))
      (Container.jumpModifier (container a)) canvas LEVEL_1 (session a) in
  match request with
  | Some status => appSetGameState status now LEVEL_1 (mkApp (container a) s')
  | None => mkApp (container a) s'
  end.

(** What can happen to the mounted application. *)
Inductive Event : Type :=
| Frame (now : Q)
| RestartClick (now : Q)
| KeyDown (code : string)
| KeyUp (code : string)
| Slider (val : Q).

Definition withKeys (f : gmap string bool -> gmap string bool) (s : Session)
    : Session :=
  mkSession (player s) (camera s) (monsters s) (f (keys s)) (frameCount s).

Definition step (canvas : option Canvas.t) (LEVEL_1 : list LevelEntity.t)
    (a : App) (ev : Event) : App :=
  match ev with
  | Frame now => onFrame now canvas LEVEL_1 a
  | RestartClick now => appSetGameState GameStatus.playing now LEVEL_1 a
  | KeyDown code => mkApp (container a) (withKeys (handleKeyDown code) (session a))
  | KeyUp code => mkApp (container a) (withKeys (handleKeyUp code) (session a))
  | Slider val => mkApp (Container.setJumpModifier val (container a)) (session a)
  end.

Definition run (canvas : option Canvas.t) (LEVEL_1 : list LevelEntity.t)
    (events : list Event) (a : App) : App :=
  List.fold_left (step canvas LEVEL_1) events a.

(** Completion data is shown for a win only, and is what the score
    function gives for its time. *)
Definition completionConsistent (c : Container.t) : Prop :=
  (Container.gameState c = GameStatus.playing -> Container.completionData c = None)
  /\ (forall d, Container.completionData c = Some d ->
         Container.gameState c = GameStatus.won
         /\ CompletionData.points d
            = GameContainer.calculatePoints (CompletionData.completionTime d)).

(** ** More sample data *)

(** A grounded player with the space bar down. *)
Definition spaceHeld : gmap string bool := handleKeyDown "Space" ∅.

Definition standingPlayer : PlayerState.t :=
  PlayerState.mk 50 500 0 0 30 50 true 1 0.

(** A player sliding to the left with no key held. *)
Definition slidingPlayer : PlayerState.t :=
  PlayerState.mk 400 500 (-6) 0 30 50 true (-1) 0.

(** Both arrows down. *)
Definition bothHeld : gmap string bool :=
  handleKeyDown "ArrowLeft" (handleKeyDown "ArrowRight" ∅).

(** A goal and a hazard on the same spot, the goal listed first, and a
    player standing in both. *)
Definition goalThenHazard : list LevelEntity.t :=
  [ entity "goal" EntityType.goal 40 300 50 100;
    entity "spikes" EntityType.hazard 40 300 50 100 ].

Definition inGoalPlayer : PlayerState.t :=
  PlayerState.mk 50 320 0 0 30 50 false 1 0.

(** A monster whose bounds are the wrong way round. *)
Definition crossedMonster : MonsterState.t :=
  MonsterState.mk "m-crossed" 400 510 40 40 2 400 300 2.

(** A monster walking into a player that stands on the ground of
    [demoLevel]. *)
Definition ambushSession : Session :=
  mkSession (PlayerState.mk 330 500 0 0 30 50 true 1 0) (Camera.mk 0 0)
    [MonsterState.mk "m-walker" 362 510 40 40 (-3) 200 400 3] ∅ 7.

(** A level without a start marker and one with two of them. *)
Definition noStartLevel : list LevelEntity.t :=
  [ entity "ground" EntityType.platform 0 550 1000 50 ].

Definition twoStartLevel : list LevelEntity.t :=
  [ entity "ground" EntityType.platform 0 550 1000 50;
    entity "start-a" EntityType.start 120 300 0 0;
    entity "start-b" EntityType.start 640 200 0 0 ].

(** A monster at the left edge of the world whose patrol starts at 0. *)
Definition edgeMonster : LevelEntity.t :=
  LevelEntity.mk "m-edge" 60 510 40 40 EntityType.monster
    (Some 0) (Some 200) (Some 2).

(** A player at rest on the ground platform of [demoLevel], far from the
    monster and the goal. *)
Definition restingSession : Session :=
  mkSession (PlayerState.mk 50 500 0 0 30 50 true 1 0) (Camera.mk 0 0)
    (initialMonsters demoLevel) ∅ 3.

(** A container in the middle of a run that began at time 1000000 ms. *)
Definition runningContainer : Container.t :=
  Container.mk GameStatus.playing 1.2 None 1000000.

(** An application whose run has just been lost. *)
Definition lostApp : App :=
  mkApp (Container.mk GameStatus.lost 1.0 None 1000000) lostSession.

(** * Properties *)

(** ** Boolean comparisons against their propositions *)

Lemma Qltb_true (a b : Q) : Qltb a b = true <-> a < b.
Proof.
  unfold Qltb. rewrite negb_true_iff, <- not_true_iff_false, Qle_bool_iff.
  split; [apply Qnot_le_lt | apply Qlt_not_le].
Qed.

Lemma Qltb_false (a b : Q) : Qltb a b = false <-> b <= a.
Proof.
  unfold Qltb. rewrite negb_false_iff. apply Qle_bool_iff.
Qed.

Lemma Qgtb_true (a b : Q) : Qgtb a b = true <-> b < a.
Proof. apply Qltb_true. Qed.

Lemma Qgtb_false (a b : Q) : Qgtb a b = false <-> a <= b.
Proof. apply Qltb_false. Qed.

Lemma Qleb_true (a b : Q) : Qleb a b = true <-> a <= b.
Proof. apply Qle_bool_iff. Qed.

Lemma Qleb_false (a b : Q) : Qleb a b = false <-> b < a.
Proof.
  unfold Qleb. rewrite <- not_true_iff_false, Qle_bool_iff.
  split; [apply Qnot_le_lt | apply Qlt_not_le].
Qed.

Lemma Qgeb_true (a b : Q) : Qgeb a b = true <-> b <= a.
Proof. apply Qleb_true. Qed.

Lemma Qgeb_false (a b : Q) : Qgeb a b = false <-> a < b.
Proof. apply Qleb_false. Qed.

(** Turn every boolean comparison among the hypotheses into its order fact. *)
Ltac qprop :=
  repeat match goal with
  | H : Qltb _ _ = true |- _ => apply Qltb_true in H
  | H : Qltb _ _ = false |- _ => apply Qltb_false in H
  | H : Qgtb _ _ = true |- _ => apply Qgtb_true in H
  | H : Qgtb _ _ = false |- _ => apply Qgtb_false in H
  | H : Qleb _ _ = true |- _ => apply Qleb_true in H
  | H : Qleb _ _ = false |- _ => apply Qleb_false in H
  | H : Qgeb _ _ = true |- _ => apply Qgeb_true in H
  | H : Qgeb _ _ = false |- _ => apply Qgeb_false in H
  end.

(** Linear arithmetic that also sees through the source's [/ 2]. *)
Ltac qlra :=
  unfold Qdiv in *; change (/ 2) with (1 # 2) in *; lra.

(** Split on the first comparison the goal branches on. *)
Ltac qcase :=
  match goal with
  | |- context [if Qltb ?a ?b then _ else _] =>
      let E := fresh "E" in destruct (Qltb a b) eqn:E
  | |- context [if Qgtb ?a ?b then _ else _] =>
      let E := fresh "E" in destruct (Qgtb a b) eqn:E
  | |- context [if Qleb ?a ?b then _ else _] =>
      let E := fresh "E" in destruct (Qleb a b) eqn:E
  | |- context [if Qgeb ?a ?b then _ else _] =>
      let E := fresh "E" in destruct (Qgeb a b) eqn:E
  end.

(** ** Rounding to binary64 *)

(** *** Rounding to an integer *)

Lemma roundHalfEven_bounds (x : Q) :
  (Qfloor x <= roundHalfEven x <= Qfloor x + 1)%Z.
Proof.
  unfold roundHalfEven.
  destruct (Qcompare (x - inject_Z (Qfloor x)) (1 # 2)); [|lia|lia].
  destruct (Z.even (Qfloor x)); lia.
Qed.

Lemma roundHalfEven_mono (x y : Q) :
  x <= y -> (roundHalfEven x <= roundHalfEven y)%Z.
Proof.
  intros Hxy. pose proof (Qfloor_resp_le x y Hxy) as Hf.
  pose proof (roundHalfEven_bounds x) as Hx. pose proof (roundHalfEven_bounds y) as Hy.
  destruct (Z.eq_dec (Qfloor x) (Qfloor y)) as [E | N]; [|lia].
  unfold roundHalfEven. rewrite E.
  destruct (Qcompare_spec (x - inject_Z (Qfloor y)) (1 # 2)) as [Cx | Cx | Cx];
    destruct (Qcompare_spec (y - inject_Z (Qfloor y)) (1 # 2)) as [Cy | Cy | Cy];
    try (destruct (Z.even (Qfloor y))); try lia; exfalso; lra.
Qed.

Lemma roundHalfEven_Z (m : Z) : roundHalfEven (inject_Z m) = m.
Proof.
  unfold roundHalfEven. rewrite Qfloor_Z.
  assert (C : Qcompare (inject_Z m - inject_Z m) (1 # 2) = Lt)
    by (apply (proj1 (Qlt_alt _ _)); lra).
  rewrite C. reflexivity.
Qed.

Lemma roundHalfEven_comp (x y : Q) : x == y -> roundHalfEven x = roundHalfEven y.
Proof.
  intros E. apply Z.le_antisymm; apply roundHalfEven_mono; rewrite E; apply Qle_refl.
Qed.

(** *** Powers of two *)

Lemma pow2_pos (k : Z) : 0 < 2 ^ k.
Proof. apply Qpower_0_lt. reflexivity. Qed.

Lemma pow2_plus (a b : Z) : 2 ^ (a + b) == 2 ^ a * 2 ^ b.
Proof. apply Qpower_plus. discriminate. Qed.

Lemma pow2_le (a b : Z) : (a <= b)%Z -> 2 ^ a <= 2 ^ b.
Proof. intros H. apply Qpower_le_compat_l; [exact H | discriminate]. Qed.

Lemma pow2_Z (n : Z) : (0 <= n)%Z -> inject_Z (2 ^ n) == 2 ^ n.
Proof. intros H. apply (Zpower_Qpower 2 n H). Qed.

Lemma div_pow2 (x : Q) (e : Z) : x / 2 ^ e == x * 2 ^ (- e).
Proof. unfold Qdiv. rewrite Qpower_opp. reflexivity. Qed.

(** *** The binade of a positive rational *)

Lemma Qilog2_spec (x : Q) :
  0 < x -> 2 ^ Qilog2 x <= x < 2 ^ (Qilog2 x + 1).
Proof.
  intros Hx. destruct x as [n d].
  assert (Hn : (0 < n)%Z) by (unfold Qlt in Hx; simpl in Hx; lia).
  unfold Qilog2. cbn [Qnum Qden].
  set (a := Z.log2 n). set (b := Z.log2 (Z.pos d)).
  destruct (Z.log2_spec n Hn) as [Ha1 Ha2]. fold a in Ha1, Ha2.
  destruct (Z.log2_spec (Z.pos d) eq_refl) as [Hb1 Hb2]. fold b in Hb1, Hb2.
  assert (Ha0 : (0 <= a)%Z) by apply Z.log2_nonneg.
  assert (Hb0 : (0 <= b)%Z) by apply Z.log2_nonneg.
  (* the four bounds, in Q *)
  assert (Qa1 : 2 ^ a <= inject_Z n)
    by (rewrite <- pow2_Z by exact Ha0; rewrite <- Zle_Qle; exact Ha1).
  assert (Qa2 : inject_Z n < 2 ^ (a + 1))
    by (rewrite <- pow2_Z by lia; rewrite <- Zlt_Qlt; unfold Z.succ in Ha2; exact Ha2).
  assert (Qb1 : 2 ^ b <= inject_Z (Z.pos d))
    by (rewrite <- pow2_Z by exact Hb0; rewrite <- Zle_Qle; exact Hb1).
  assert (Qb2 : inject_Z (Z.pos d) < 2 ^ (b + 1))
    by (rewrite <- pow2_Z by lia; rewrite <- Zlt_Qlt; unfold Z.succ in Hb2; exact Hb2).
  assert (Hd : 0 < inject_Z (Z.pos d)) by reflexivity.
  assert (Ex : (n # d) * inject_Z (Z.pos d) == inject_Z n).
  { rewrite (Qmake_Qdiv n d). field. intros E. rewrite E in Hd. discriminate. }
  (* x < 2^(a-b+1) and 2^(a-b-1) < x *)
  assert (Hup : n # d < 2 ^ (a - b + 1)).
  { apply (Qmult_lt_r _ _ (inject_Z (Z.pos d)) Hd). rewrite Ex.
    apply (Qlt_le_trans _ _ _ Qa2).
    replace (a + 1)%Z with ((a - b + 1) + b)%Z by ring.
    rewrite (pow2_plus (a - b + 1) b).
    apply Qmult_le_l; [apply pow2_pos | exact Qb1]. }
  assert (Hlo : 2 ^ (a - b - 1) < n # d).
  { apply (Qmult_lt_r _ _ (inject_Z (Z.pos d)) Hd). rewrite Ex.
    apply (Qlt_le_trans _ (2 ^ (a - b - 1) * 2 ^ (b + 1))).
    - apply Qmult_lt_l; [apply pow2_pos | exact Qb2].
    - rewrite <- pow2_plus. replace (a - b - 1 + (b + 1))%Z with a by ring.
      exact Qa1. }
  destruct (Qle_bool (2 ^ (a - b)) (n # d)) eqn:E.
  - apply Qle_bool_iff in E. split; assumption.
  - assert (Hlt : n # d < 2 ^ (a - b)).
    { apply Qnot_le_lt. intros H. apply Qle_bool_iff in H. congruence. }
    split; [apply Qlt_le_weak; exact Hlo|].
    replace (a - b - 1 + 1)%Z with (a - b)%Z by ring. exact Hlt.
Qed.

Lemma Qilog2_mono (x y : Q) : 0 < x -> x <= y -> (Qilog2 x <= Qilog2 y)%Z.
Proof.
  intros Hx Hxy.
  destruct (Qilog2_spec x Hx) as [Hx1 _].
  destruct (Qilog2_spec y (Qlt_le_trans _ _ _ Hx Hxy)) as [_ Hy2].
  assert (H : 2 ^ Qilog2 x < 2 ^ (Qilog2 y + 1)) by lra.
  apply Qpower_lt_compat_l_inv in H; [lia | reflexivity].
Qed.

(** *** Rounding to 53 significant bits *)

Lemma scaled_range (x : Q) :
  0 < x -> 2 ^ 52 <= x / 2 ^ (Qilog2 x - 52) /\ x / 2 ^ (Qilog2 x - 52) < 2 ^ 53.
Proof.
  intros Hx. destruct (Qilog2_spec x Hx) as [S1 S2].
  set (k := Qilog2 x) in *. rewrite div_pow2.
  pose proof (pow2_pos (- (k - 52))) as Hp.
  split.
  - assert (E : 2 ^ 52 == 2 ^ k * 2 ^ (- (k - 52))).
    { rewrite <- pow2_plus. replace (k + - (k - 52))%Z with 52%Z by ring. reflexivity. }
    rewrite E. apply Qmult_le_r; assumption.
  - assert (E : 2 ^ 53 == 2 ^ (k + 1) * 2 ^ (- (k - 52))).
    { rewrite <- pow2_plus. replace (k + 1 + - (k - 52))%Z with 53%Z by ring. reflexivity. }
    rewrite E. apply Qmult_lt_r; assumption.
Qed.

Lemma significand_range (x : Q) :
  0 < x ->
  (2 ^ 52 <= roundHalfEven (x / 2 ^ (Qilog2 x - 52)) <= 2 ^ 53)%Z.
Proof.
  intros Hx. destruct (scaled_range x Hx) as [L U].
  split.
  - rewrite <- (roundHalfEven_Z (2 ^ 52)). apply roundHalfEven_mono.
    rewrite pow2_Z by lia. exact L.
  - rewrite <- (roundHalfEven_Z (2 ^ 53)). apply roundHalfEven_mono.
    rewrite pow2_Z by lia. apply Qlt_le_weak. exact U.
Qed.

Lemma fl64pos_bounds (x : Q) :
  0 < x -> 2 ^ Qilog2 x <= fl64pos x /\ fl64pos x <= 2 ^ (Qilog2 x + 1).
Proof.
  intros Hx. destruct (significand_range x Hx) as [L U].
  unfold fl64pos. cbv zeta.
  set (k := Qilog2 x) in *. set (r := roundHalfEven (x / 2 ^ (k - 52))) in *.
  pose proof (pow2_pos (k - 52)) as Hp.
  split.
  - assert (E : 2 ^ k == 2 ^ 52 * 2 ^ (k - 52)).
    { rewrite <- pow2_plus. replace (52 + (k - 52))%Z with k by ring. reflexivity. }
    rewrite E. apply Qmult_le_r; [exact Hp|].
    rewrite <- pow2_Z by lia. rewrite <- Zle_Qle. exact L.
  - assert (E : 2 ^ (k + 1) == 2 ^ 53 * 2 ^ (k - 52)).
    { rewrite <- pow2_plus. replace (53 + (k - 52))%Z with (k + 1)%Z by ring. reflexivity. }
    rewrite E. apply Qmult_le_r; [exact Hp|].
    rewrite <- pow2_Z by lia. rewrite <- Zle_Qle. exact U.
Qed.

Lemma fl64pos_pos (x : Q) : 0 < x -> 0 < fl64pos x.
Proof.
  intros Hx. destruct (fl64pos_bounds x Hx) as [L _].
  pose proof (pow2_pos (Qilog2 x)). lra.
Qed.

Lemma roundHalfEven_error (y : Q) :
  - (1 # 2) <= inject_Z (roundHalfEven y) - y <= 1 # 2.
Proof.
  pose proof (Qfloor_le y) as Hlo. pose proof (Qlt_floor y) as Hup.
  rewrite inject_Z_plus in Hup. change (inject_Z 1) with 1 in Hup.
  unfold roundHalfEven.
  destruct (Qcompare_spec (y - inject_Z (Qfloor y)) (1 # 2)) as [C | C | C];
    try (destruct (Z.even (Qfloor y)));
    rewrite ?inject_Z_plus; change (inject_Z 1) with 1; split; lra.
Qed.

(** The rounded value is within half a unit in the last place. *)
Lemma fl64pos_error (x : Q) :
  0 < x ->
  - 2 ^ (Qilog2 x - 53) <= fl64pos x - x <= 2 ^ (Qilog2 x - 53).
Proof.
  intros Hx. unfold fl64pos. cbv zeta. set (k := Qilog2 x).
  set (y := x / 2 ^ (k - 52)).
  pose proof (roundHalfEven_error y) as [E1 E2].
  set (r := inject_Z (roundHalfEven y)) in *.
  pose proof (pow2_pos (k - 53)) as Ha.
  assert (Ep : 2 ^ (k - 52) == 2 * 2 ^ (k - 53)).
  { replace (k - 52)%Z with (1 + (k - 53))%Z by ring. rewrite pow2_plus. reflexivity. }
  assert (Ex : x == y * 2 ^ (k - 52)).
  { subst y. field. pose proof (pow2_pos (k - 52)). lra. }
  rewrite Ep in *. set (a := 2 ^ (k - 53)) in *.
  assert (P1 : 0 <= (r - y + (1 # 2)) * a) by (apply Qmult_le_0_compat; lra).
  assert (P2 : 0 <= ((1 # 2) - (r - y)) * a) by (apply Qmult_le_0_compat; lra).
  split; nra.
Qed.

Lemma fl64pos_mono (x y : Q) : 0 < x -> x <= y -> fl64pos x <= fl64pos y.
Proof.
  intros Hx Hxy.
  assert (Hy : 0 < y) by lra.
  pose proof (Qilog2_mono x y Hx Hxy) as Hk.
  destruct (Z.eq_dec (Qilog2 x) (Qilog2 y)) as [E | N].
  - unfold fl64pos. cbv zeta. rewrite E.
    apply Qmult_le_r; [apply pow2_pos|].
    rewrite <- Zle_Qle. apply roundHalfEven_mono.
    rewrite !div_pow2. apply Qmult_le_r; [apply pow2_pos | exact Hxy].
  - destruct (fl64pos_bounds x Hx) as [_ U]. destruct (fl64pos_bounds y Hy) as [L _].
    assert (H : 2 ^ (Qilog2 x + 1) <= 2 ^ Qilog2 y) by (apply pow2_le; lia).
    lra.
Qed.

Lemma fl64_pos (x : Q) : 0 < x -> fl64 x = fl64pos x.
Proof.
  intros H. unfold fl64. destruct (Qcompare_spec x 0) as [C | C | C]; [lra | lra | reflexivity].
Qed.

Lemma fl64_neg (x : Q) : x < 0 -> fl64 x = - fl64pos (- x).
Proof.
  intros H. unfold fl64. destruct (Qcompare_spec x 0) as [C | C | C]; [lra | reflexivity | lra].
Qed.

Lemma fl64_sign (x : Q) :
  (0 < x -> 0 < fl64 x) /\ (x < 0 -> fl64 x < 0) /\ (0 <= x -> 0 <= fl64 x).
Proof.
  split; [|split]; intros H.
  - rewrite fl64_pos by exact H. apply fl64pos_pos. exact H.
  - rewrite fl64_neg by exact H.
    assert (P : 0 < fl64pos (- x)) by (apply fl64pos_pos; lra). lra.
  - unfold fl64. destruct (Qcompare_spec x 0) as [C | C | C]; [lra | lra |].
    apply Qlt_le_weak, fl64pos_pos. exact C.
Qed.

Lemma fl64_mono (x y : Q) : x <= y -> fl64 x <= fl64 y.
Proof.
  intros Hxy.
  destruct (Qlt_le_dec 0 x) as [Px | Nx].
  - rewrite (fl64_pos x Px), (fl64_pos y) by lra. apply fl64pos_mono; assumption.
  - destruct (Qlt_le_dec x 0) as [Lx | Zx].
    + destruct (Qlt_le_dec y 0) as [Ly | Py].
      * rewrite (fl64_neg x Lx), (fl64_neg y Ly).
        assert (M : fl64pos (- y) <= fl64pos (- x)) by (apply fl64pos_mono; lra).
        lra.
      * destruct (fl64_sign x) as (_ & Hn & _). destruct (fl64_sign y) as (_ & _ & Hp).
        specialize (Hn Lx). specialize (Hp Py). lra.
    + assert (Ex : fl64 x = 0).
      { unfold fl64. destruct (Qcompare_spec x 0) as [C | C | C]; [reflexivity | lra | lra]. }
      rewrite Ex. destruct (fl64_sign y) as (_ & _ & Hp). apply Hp. lra.
Qed.

Lemma fl64_comp (x y : Q) : x == y -> fl64 x == fl64 y.
Proof.
  intros E. apply Qle_antisym; apply fl64_mono; rewrite E; apply Qle_refl.
Qed.

(** Integers of magnitude below [2^53] are representable. *)
Lemma fl64pos_Z_exact (n : Z) :
  (0 < n < 2 ^ 53)%Z -> fl64pos (inject_Z n) == inject_Z n.
Proof.
  intros [Hn Hb].
  assert (Hx : 0 < inject_Z n) by (rewrite (Zlt_Qlt 0 n) in Hn; exact Hn).
  destruct (Qilog2_spec (inject_Z n) Hx) as [S1 _].
  assert (Hk : (Qilog2 (inject_Z n) < 53)%Z).
  { apply (Qpower_lt_compat_l_inv 2); [|reflexivity].
    apply (Qle_lt_trans _ _ _ S1). rewrite <- pow2_Z by lia.
    rewrite <- Zlt_Qlt. exact Hb. }
  unfold fl64pos. cbv zeta. set (k := Qilog2 (inject_Z n)) in *.
  assert (Es : inject_Z n / 2 ^ (k - 52) == inject_Z (n * 2 ^ (- (k - 52)))).
  { rewrite div_pow2, inject_Z_mult, pow2_Z by lia. reflexivity. }
  rewrite (roundHalfEven_comp _ _ Es), roundHalfEven_Z.
  rewrite inject_Z_mult, pow2_Z by lia.
  rewrite <- Qmult_assoc, <- pow2_plus.
  replace (- (k - 52) + (k - 52))%Z with 0%Z by ring.
  change (2 ^ 0) with 1. ring.
Qed.

Lemma fl64_Z_exact (n : Z) :
  (- 2 ^ 53 < n < 2 ^ 53)%Z -> fl64 (inject_Z n) == inject_Z n.
Proof.
  intros [Hl Hu].
  destruct (Z.lt_trichotomy n 0) as [Neg | [Zero | Pos]].
  - assert (Hx : inject_Z n < 0) by (rewrite (Zlt_Qlt n 0) in Neg; exact Neg).
    rewrite (fl64_neg _ Hx).
    assert (E : - inject_Z n == inject_Z (- n)) by (rewrite inject_Z_opp; reflexivity).
    assert (F : fl64pos (- inject_Z n) == fl64pos (inject_Z (- n))).
    { assert (P : 0 < - inject_Z n) by lra.
      assert (P' : 0 < inject_Z (- n)) by (rewrite <- E; exact P).
      apply Qle_antisym; apply fl64pos_mono; try assumption;
        rewrite E; apply Qle_refl. }
    rewrite F, fl64pos_Z_exact by lia. rewrite inject_Z_opp. ring.
  - subst n. reflexivity.
  - assert (Hx : 0 < inject_Z n) by (rewrite (Zlt_Qlt 0 n) in Pos; exact Pos).
    rewrite (fl64_pos _ Hx). apply fl64pos_Z_exact. lia.
Qed.

(** ** Score calculator *)

Lemma product_floor_mono (t1 t2 : Q) :
  t1 <= t2 -> (Qfloor (fl64 (t1 * 100)) <= Qfloor (fl64 (t2 * 100)))%Z.
Proof. intros H. apply Qfloor_resp_le, fl64_mono. lra. Qed.

(** The rounded difference [10000 - f], read as an integer. *)
Lemma difference_mono (f g : Z) :
  (f <= g)%Z ->
  (Qfloor (fl64 (10000 - inject_Z g)) <= Qfloor (fl64 (10000 - inject_Z f)))%Z.
Proof.
  intros H. apply Qfloor_resp_le, fl64_mono.
  rewrite Zle_Qle in H. lra.
Qed.

Lemma difference_exact (f : Z) :
  (- 2 ^ 53 < 10000 - f < 2 ^ 53)%Z ->
  Qfloor (fl64 (10000 - inject_Z f)) = (10000 - f)%Z.
Proof.
  intros H.
  assert (E : 10000 - inject_Z f == inject_Z (10000 - f)).
  { unfold Zminus. rewrite inject_Z_plus, inject_Z_opp. reflexivity. }
  rewrite (Qfloor_comp _ _ (fl64_comp _ _ E)).
  rewrite (Qfloor_comp _ _ (fl64_Z_exact _ H)).
  apply Qfloor_Z.
Qed.

Lemma difference_floor (f : Z) :
  (- 9000000000000000 <= f)%Z ->
  Z.max 1000 (Qfloor (fl64 (10000 - inject_Z f))) = Z.max 1000 (10000 - f).
Proof.
  intros Hlow.
  destruct (Z_lt_le_dec f 9000000000000000) as [Hup | Hbig].
  - rewrite difference_exact; [reflexivity|].
    change (2 ^ 53)%Z with 9007199254740992%Z. lia.
  - pose proof (difference_mono 9000 f ltac:(lia)) as H.
    rewrite (difference_exact 9000) in H
      by (change (2 ^ 53)%Z with 9007199254740992%Z; lia).
    lia.
Qed.

Lemma score_bounds (t : Q) :
  let points :=
    Z.max 1000 (Qfloor (fl64 (10000 - inject_Z (Qfloor (fl64 (t * 100)))))) in
  (1000 <= points)%Z
  /\ (0 <= t -> (points <= 10000)%Z)
  /\ (t < 0 -> (10000 < points)%Z).
Proof.
  intros points. subst points.
  assert (P53 : (2 ^ 53)%Z = 9007199254740992%Z) by reflexivity.
  split; [lia|]. split; intros H.
  - assert (Hf : (0 <= Qfloor (fl64 (t * 100)))%Z).
    { change 0%Z with (Qfloor 0). apply Qfloor_resp_le.
      destruct (fl64_sign (t * 100)) as (_ & _ & Hp). apply Hp. lra. }
    pose proof (difference_mono 0 _ Hf) as Hd.
    rewrite (difference_exact 0) in Hd by (rewrite P53; lia).
    lia.
  - assert (Hf : (Qfloor (fl64 (t * 100)) <= -1)%Z).
    { assert (Hn : fl64 (t * 100) < 0).
      { destruct (fl64_sign (t * 100)) as (_ & Hn & _). apply Hn. lra. }
      apply Z.lt_succ_r. apply Z.lt_nge. intros Hge.
      pose proof (Qfloor_le (fl64 (t * 100))) as Hle.
      assert (0 <= inject_Z (Qfloor (fl64 (t * 100))))
        by (change 0 with (inject_Z 0); rewrite <- Zle_Qle; exact Hge).
      lra. }
    pose proof (difference_mono _ (-1) Hf) as Hd.
    rewrite (difference_exact (-1)) in Hd by (rewrite P53; lia).
    lia.
Qed.

(** C1, as the code has it.  [calculatePoints t] is
    [max(1000, 10000 - floor(fl64 (t * 100)))], the product rounded as
    the source's multiplication rounds it, for every [t] from
    [-9 * 10^13] on (below, the subtraction rounds as well); so it is
    [max(1000, 10000 - floor(t * 100))] wherever the product [t * 100] is
    a double.  The copy inside [GameContainer] agrees with it, it is
    10000 at 0, 1000 at 90 and at every later time, 9810 at the double
    1.9, non-increasing from 0 on, and has no upper clamp: 11000 at
    -10. *)
Theorem calculatePoints_formula (t late t1 t2 : Q)
    (Ht : - 90000000000000 <= t)
    (Hlate : 90 <= late) (H0 : 0 <= t1) (H12 : t1 <= t2) :
  calculatePoints t = Z.max 1000 (10000 - Qfloor (fl64 (t * 100)))
  /\ (fl64 (t * 100) == t * 100 ->
      calculatePoints t = Z.max 1000 (10000 - Qfloor (t * 100)))
  /\ GameContainer.calculatePoints t = calculatePoints t
  /\ calculatePoints 0 = 10000%Z
  /\ calculatePoints 90 = 1000%Z
  /\ calculatePoints late = 1000%Z
  /\ calculatePoints (fl64 1.9) = 9810%Z
  /\ (calculatePoints t2 <= calculatePoints t1)%Z
  /\ calculatePoints (-10) = 11000%Z.
Proof.
  assert (Hformula :
    calculatePoints t = Z.max 1000 (10000 - Qfloor (fl64 (t * 100)))).
  { unfold calculatePoints. cbv zeta. apply difference_floor.
    assert (Hp : fl64 (inject_Z (- 9000000000000000)) <= fl64 (t * 100)).
    { apply fl64_mono. change (inject_Z (- 9000000000000000)) with (- 9000000000000000). lra. }
    rewrite fl64_Z_exact in Hp by (change (2 ^ 53)%Z with 9007199254740992%Z; lia).
    apply Qfloor_resp_le in Hp. rewrite Qfloor_Z in Hp. exact Hp. }
  split; [exact Hformula|].
  split; [intros E; rewrite Hformula, (Qfloor_comp _ _ E); reflexivity|].
  split; [reflexivity|].
  split; [vm_compute; reflexivity|].
  split; [vm_compute; reflexivity|].
  split.
  { unfold calculatePoints. cbv zeta.
    pose proof (product_floor_mono 90 late Hlate) as Hf.
    assert (E90 : Qfloor (fl64 (90 * 100)) = 9000%Z) by (vm_compute; reflexivity).
    rewrite E90 in Hf.
    pose proof (difference_mono 9000 _ Hf) as Hd.
    rewrite (difference_exact 9000) in Hd
      by (change (2 ^ 53)%Z with 9007199254740992%Z; lia).
    lia. }
  split; [vm_compute; reflexivity|].
  split; [|vm_compute; reflexivity].
  unfold calculatePoints. cbv zeta.
  pose proof (difference_mono _ _ (product_floor_mono t1 t2 H12)). lia.
Qed.

Lemma calculatePoints_formula_witness :
  calculatePoints 45.7 = Z.max 1000 (10000 - Qfloor (fl64 (45.7 * 100)))
  /\ calculatePoints 45.5 = Z.max 1000 (10000 - Qfloor (45.5 * 100))
  /\ GameContainer.calculatePoints 45.7 = calculatePoints 45.7
  /\ calculatePoints 200 = 1000%Z
  /\ calculatePoints (fl64 1.9) = 9810%Z
  /\ (calculatePoints 50 <= calculatePoints 10)%Z.
Proof.
  assert (Ht : - 90000000000000 <= 45.7) by (vm_compute; discriminate).
  assert (Ht' : - 90000000000000 <= 45.5) by (vm_compute; discriminate).
  assert (Hlate : 90 <= 200) by (vm_compute; discriminate).
  assert (H0 : 0 <= 10) by (vm_compute; discriminate).
  assert (H12 : 10 <= 50) by (vm_compute; discriminate).
  destruct (calculatePoints_formula 45.7 200 10 50 Ht Hlate H0 H12)
    as (Hformula & _ & Hcopy & _ & _ & Hfloor & Hlit & Hmono & _).
  destruct (calculatePoints_formula 45.5 200 10 50 Ht' Hlate H0 H12)
    as (_ & Hexact & _).
  split; [exact Hformula|].
  split; [apply Hexact; vm_compute; reflexivity|].
  split; [exact Hcopy|]. split; [exact Hfloor|]. split; [exact Hlit | exact Hmono].
Defined.

(** C1 as stated fails: the formula over the reals does not hold on
    doubles.  [fl64 0.03] and [fl64 1.9] are the doubles that the
    literals [0.03] and [1.9] denote: both lie a little off the decimal,
    and the rounded product is the integer 3, resp. 190, that the exact
    product just misses.  Far below zero the difference is rounded
    too. *)
Lemma calculatePoints_not_exact_formula :
  (calculatePoints (fl64 0.03) = 9997%Z
   /\ Z.max 1000 (10000 - Qfloor (fl64 0.03 * 100)) = 9998%Z)
  /\ (calculatePoints (fl64 1.9) = 9810%Z
      /\ Z.max 1000 (10000 - Qfloor (fl64 1.9 * 100)) = 9811%Z)
  /\ (fl64 (- (2 ^ 60)) == - (2 ^ 60)
      /\ calculatePoints (- (2 ^ 60))
         <> Z.max 1000 (10000 - Qfloor (fl64 (- (2 ^ 60) * 100)))).
Proof.
  split; [split; vm_compute; reflexivity|].
  split; [split; vm_compute; reflexivity|].
  split; [vm_compute; reflexivity | vm_compute; discriminate].
Qed.

(** ** Session reset *)

Lemma find_unique {A : Type} (f : A -> bool) (l : list A) (a : A) :
  List.filter f l = [a] -> List.find f l = Some a.
Proof.
  induction l as [|b l IH]; simpl; [discriminate|].
  destruct (f b); [intros [= ->]; reflexivity | exact IH].
Qed.

(** C8.  Restart is a function of the level alone: from any two prior
    sessions, entering [playing] yields the same player, the same monster
    list and the same camera; the player stands at the unique start entity
    with zero velocity, not grounded, facing right, frame 0. *)
Theorem restart_deterministic (LEVEL_1 : list LevelEntity.t)
    (s1 s2 : Session) (startPos : LevelEntity.t)
    (Hstart : List.filter (isType EntityType.start) LEVEL_1 = [startPos]) :
  let r1 := resetGameState GameStatus.playing LEVEL_1 s1 in
  let r2 := resetGameState GameStatus.playing LEVEL_1 s2 in
  player r1 = player r2
  /\ monsters r1 = monsters r2
  /\ camera r1 = camera r2
  /\ player r1 =
       PlayerState.mk (LevelEntity.x startPos) (LevelEntity.y startPos)
         0 0 30 50 false 1 0
  /\ monsters r1 = initialMonsters LEVEL_1
  /\ resetGameState GameStatus.playing LEVEL_1 r1 = r1.
Proof.
  simpl. unfold initialPlayer. rewrite (find_unique _ _ _ Hstart).
  repeat split.
Qed.

(** ** Monster initialisation *)

(** C10, as the code has it.  An omitted field gets its default (speed 2,
    patrolStart [x - 100], patrolEnd [x + 100]) and [vx] starts equal to
    [speed].  Omitting the speed gives a positive speed and a rightward
    start; omitting both bounds gives [patrolStart < patrolEnd].  A
    supplied field is copied as it is, unless it is 0, which [||] treats
    as omitted; so with one bound omitted the bounds are in order exactly
    when the supplied bound is 0 or is on the right side of the default
    of the other. *)
Theorem initialMonster_defaults (m : LevelEntity.t) (e v : Q) :
  let s := initialMonster m in
  MonsterState.vx s = MonsterState.speed s
  /\ (LevelEntity.speed m = None ->
      MonsterState.speed s = 2 /\ 0 < MonsterState.speed s /\ 0 < MonsterState.vx s)
  /\ (LevelEntity.patrolStart m = None ->
      MonsterState.patrolStart s = LevelEntity.x m - 100)
  /\ (LevelEntity.patrolEnd m = None ->
      MonsterState.patrolEnd s = LevelEntity.x m + 100)
  /\ (LevelEntity.patrolStart m = None -> LevelEntity.patrolEnd m = None ->
      MonsterState.patrolStart s < MonsterState.patrolEnd s)
  /\ (LevelEntity.speed m = Some v ->
      MonsterState.speed s = (if Qeq_bool v 0 then 2 else v))
  /\ (LevelEntity.patrolStart m = Some v ->
      MonsterState.patrolStart s
      = (if Qeq_bool v 0 then LevelEntity.x m - 100 else v))
  /\ (LevelEntity.patrolEnd m = Some v ->
      MonsterState.patrolEnd s
      = (if Qeq_bool v 0 then LevelEntity.x m + 100 else v))
  /\ (LevelEntity.patrolStart m = None -> LevelEntity.patrolEnd m = Some e ->
      (MonsterState.patrolStart s < MonsterState.patrolEnd s
       <-> e == 0 \/ LevelEntity.x m - 100 < e))
  /\ (LevelEntity.patrolStart m = Some e -> LevelEntity.patrolEnd m = None ->
      (MonsterState.patrolStart s < MonsterState.patrolEnd s
       <-> e == 0 \/ e < LevelEntity.x m + 100)).
Proof.
  destruct m as [i mx my mw mh ty ps pe sp]; simpl.
  repeat match goal with |- _ /\ _ => split end;
    try (intros; subst; simpl; try reflexivity; try lra; fail).
  - intros ->. repeat split; lra.
  - intros -> ->. unfold orDefault.
    destruct (Qeq_bool e 0) eqn:E.
    + apply Qeq_bool_iff in E. split; [intros _; left; exact E | intros _; lra].
    + apply Qeq_bool_neq in E. split; [intros H; right; exact H|].
      intros [H | H]; [contradiction | exact H].
  - intros -> ->. unfold orDefault.
    destruct (Qeq_bool e 0) eqn:E.
    + apply Qeq_bool_iff in E. split; [intros _; left; exact E | intros _; lra].
    + apply Qeq_bool_neq in E. split; [intros H; right; exact H|].
      intros [H | H]; [contradiction | exact H].
Qed.

(** ** Monster patrol *)

Lemma monsterLogic_static (m : MonsterState.t) :
  MonsterState.patrolStart (monsterLogic m) = MonsterState.patrolStart m
  /\ MonsterState.patrolEnd (monsterLogic m) = MonsterState.patrolEnd m
  /\ MonsterState.speed (monsterLogic m) = MonsterState.speed m.
Proof. unfold monsterLogic. repeat qcase; simpl; auto. Qed.

Lemma Qabs_Qabs (q : Q) : Qabs (Qabs q) == Qabs q.
Proof. apply Qabs_pos, Qabs_nonneg. Qed.

Lemma Qabs_opp_Qabs (q : Q) : Qabs (- Qabs q) == Qabs q.
Proof. rewrite Qabs_opp. apply Qabs_Qabs. Qed.

(** One frame from any monster with ordered bounds. *)
Lemma monsterLogic_step (m : MonsterState.t) :
  MonsterState.patrolStart m < MonsterState.patrolEnd m ->
  Qabs (MonsterState.vx m) == Qabs (MonsterState.speed m) ->
  let m' := monsterLogic m in
  MonsterState.patrolStart m <= MonsterState.x m' <= MonsterState.patrolEnd m
  /\ Qabs (MonsterState.vx m') == Qabs (MonsterState.speed m).
Proof.
  intros Hlt Hv. unfold monsterLogic. repeat qcase; simpl; qprop.
  - split; [lra | apply Qabs_Qabs].
  - split; [lra | apply Qabs_opp_Qabs].
  - split; [lra | exact Hv].
Qed.

Lemma monsterLogic_iter (m : MonsterState.t) (n : nat) :
  MonsterState.patrolStart m < MonsterState.patrolEnd m ->
  MonsterState.patrolStart m <= MonsterState.x m <= MonsterState.patrolEnd m ->
  Qabs (MonsterState.vx m) == Qabs (MonsterState.speed m) ->
  let a := Nat.iter n monsterLogic m in
  MonsterState.patrolStart a = MonsterState.patrolStart m
  /\ MonsterState.patrolEnd a = MonsterState.patrolEnd m
  /\ MonsterState.speed a = MonsterState.speed m
  /\ MonsterState.patrolStart m <= MonsterState.x a <= MonsterState.patrolEnd m
  /\ Qabs (MonsterState.vx a) == Qabs (MonsterState.speed m).
Proof.
  intros Hlt Hx Hv. induction n as [|n IH]; simpl.
  - repeat split; try reflexivity; tauto.
  - destruct IH as (Es & Ee & Esp & _ & IHv).
    destruct (monsterLogic_static (Nat.iter n monsterLogic m)) as (Fs & Fe & Fsp).
    rewrite Fs, Fe, Fsp, Es, Ee, Esp. repeat split.
    all: pose proof (monsterLogic_step (Nat.iter n monsterLogic m)) as S;
      rewrite Es, Ee, Esp in S; specialize (S Hlt IHv); simpl in S; tauto.
Qed.

Lemma update_monsters (jumpModifier : Q) (canvas : option Canvas.t)
    (LEVEL_1 : list LevelEntity.t) (s : Session) :
  monsters (fst (update GameStatus.playing jumpModifier canvas LEVEL_1 s))
  = List.map monsterLogic (monsters s).
Proof.
  unfold update; cbn [negb GameStatus.eqb]; cbv zeta. qcase; [reflexivity|].
  destruct (entityCollision LEVEL_1 _) as [p [status|]]; [reflexivity|].
  destruct (monsterCollision _ p); reflexivity.
Qed.

(** The next frame of a monster that has run [n] frames. *)
Lemma monsterLogic_next (m : MonsterState.t) (n : nat) :
  MonsterState.patrolStart m < MonsterState.patrolEnd m ->
  MonsterState.patrolStart m <= MonsterState.x m <= MonsterState.patrolEnd m ->
  Qabs (MonsterState.vx m) == Qabs (MonsterState.speed m) ->
  let a := Nat.iter n monsterLogic m in
  let b := monsterLogic a in
  let moved := MonsterState.x a + MonsterState.vx a in
  (moved <= MonsterState.patrolStart m ->
   MonsterState.x b = MonsterState.patrolStart m
   /\ MonsterState.vx b = Qabs (MonsterState.speed m))
  /\ (MonsterState.patrolEnd m <= moved ->
      MonsterState.x b = MonsterState.patrolEnd m
      /\ MonsterState.vx b = - Qabs (MonsterState.speed m))
  /\ (MonsterState.patrolStart m < moved < MonsterState.patrolEnd m ->
      MonsterState.x b = moved /\ MonsterState.vx b = MonsterState.vx a).
Proof.
  intros Hrange Hx Hvx a b moved.
  destruct (monsterLogic_iter m n Hrange Hx Hvx) as (Es & Ee & Esp & _).
  fold a in Es, Ee, Esp.
  split; [|split]; intros H; subst b moved; unfold monsterLogic;
    rewrite Es, Ee, Esp; repeat qcase; simpl; qprop;
    try (split; reflexivity); lra.
Qed.

(** C4.  Every playing frame applies [monsterLogic] to every monster.
    Take the monster that the session creates from a level entity, with
    [patrolStart < patrolEnd] and its spawn [x] inside the range.  It
    starts with [vx = speed].  After any number [n] of frames: the bounds
    and the speed are untouched, [x] is inside the range before and after
    the next frame, [|vx| = |speed|] (which is [speed] when [speed >= 0]);
    the next frame clamps [x] to [patrolStart] and sets [vx = +|speed|]
    when [x + vx] reaches or passes [patrolStart], clamps to [patrolEnd]
    with [vx = -|speed|] when it reaches or passes [patrolEnd], and
    otherwise (strictly inside) moves by [vx] and keeps [vx]. *)
Theorem patrol_invariant (entity : LevelEntity.t) (n : nat)
    (jumpModifier : Q) (canvas : option Canvas.t)
    (LEVEL_1 : list LevelEntity.t) (s : Session)
    (Hrange : MonsterState.patrolStart (initialMonster entity)
              < MonsterState.patrolEnd (initialMonster entity))
    (Hx : MonsterState.patrolStart (initialMonster entity)
          <= MonsterState.x (initialMonster entity)
          <= MonsterState.patrolEnd (initialMonster entity)) :
  let m := initialMonster entity in
  let a := Nat.iter n monsterLogic m in
  let b := monsterLogic a in
  let moved := MonsterState.x a + MonsterState.vx a in
  monsters (fst (update GameStatus.playing jumpModifier canvas LEVEL_1 s))
    = List.map monsterLogic (monsters s)
  /\ MonsterState.vx m = MonsterState.speed m
  /\ MonsterState.patrolStart b = MonsterState.patrolStart m
  /\ MonsterState.patrolEnd b = MonsterState.patrolEnd m
  /\ MonsterState.speed b = MonsterState.speed m
  /\ MonsterState.patrolStart m <= MonsterState.x a <= MonsterState.patrolEnd m
  /\ MonsterState.patrolStart m <= MonsterState.x b <= MonsterState.patrolEnd m
  /\ Qabs (MonsterState.vx a) == Qabs (MonsterState.speed m)
  /\ Qabs (MonsterState.vx b) == Qabs (MonsterState.speed m)
  /\ (0 <= MonsterState.speed m ->
      Qabs (MonsterState.vx a) == MonsterState.speed m
      /\ Qabs (MonsterState.vx b) == MonsterState.speed m)
  /\ (moved <= MonsterState.patrolStart m ->
      MonsterState.x b = MonsterState.patrolStart m
      /\ MonsterState.vx b = Qabs (MonsterState.speed m))
  /\ (MonsterState.patrolEnd m <= moved ->
      MonsterState.x b = MonsterState.patrolEnd m
      /\ MonsterState.vx b = - Qabs (MonsterState.speed m))
  /\ (MonsterState.patrolStart m < moved < MonsterState.patrolEnd m ->
      MonsterState.x b = moved /\ MonsterState.vx b = MonsterState.vx a).
Proof.
  intros m a b moved.
  assert (Hveq : MonsterState.vx m = MonsterState.speed m) by reflexivity.
  assert (Hvx : Qabs (MonsterState.vx m) == Qabs (MonsterState.speed m))
    by (rewrite Hveq; reflexivity).
  change (initialMonster entity) with m in Hrange, Hx. clearbody m.
  destruct (monsterLogic_iter m n Hrange Hx Hvx) as (Es & Ee & Esp & Ha & Hva).
  destruct (monsterLogic_iter m (S n) Hrange Hx Hvx) as (Fs & Fe & Fsp & Hb & Hvb).
  pose proof (monsterLogic_next m n Hrange Hx Hvx) as Hnext.
  change (Nat.iter (S n) monsterLogic m) with b in Fs, Fe, Fsp, Hb, Hvb.
  fold a in Es, Ee, Esp, Ha, Hva. simpl in Hnext. fold a b moved in Hnext.
  split; [apply update_monsters|]. split; [exact Hveq|].
  repeat match goal with |- _ /\ _ => split end; try assumption; try tauto.
  intros Hs. split; [rewrite Hva | rewrite Hvb]; apply Qabs_pos, Hs.
Qed.

Lemma patrol_invariant_witness :
  let m := initialMonster walkerEntity in
  let a := Nat.iter 40 monsterLogic m in
  let b := monsterLogic a in
  MonsterState.patrolStart m <= MonsterState.x b <= MonsterState.patrolEnd m
  /\ Qabs (MonsterState.vx b) == Qabs (MonsterState.speed m).
Proof.
  intros m a b.
  assert (H1 : MonsterState.patrolStart m < MonsterState.patrolEnd m)
    by (vm_compute; reflexivity).
  assert (H2 : MonsterState.patrolStart m <= MonsterState.x m <= MonsterState.patrolEnd m)
    by (split; vm_compute; discriminate).
  destruct (patrol_invariant walkerEntity 40 1 None demoLevel freshSession H1 H2)
    as (_ & _ & _ & _ & _ & _ & Hb & _ & Hvb & _).
  split; [exact Hb | exact Hvb].
Defined.

Lemma restart_deterministic_witness :
  player (resetGameState GameStatus.playing demoLevel freshSession)
  = player (resetGameState GameStatus.playing demoLevel usedSession)
  /\ monsters (resetGameState GameStatus.playing demoLevel freshSession)
     = monsters (resetGameState GameStatus.playing demoLevel usedSession).
Proof.
  destruct (restart_deterministic demoLevel freshSession usedSession
              (entity "start" EntityType.start 50 350 0 0) eq_refl)
    as (Hp & Hm & _).
  split; [exact Hp | exact Hm].
Defined.

Lemma initialMonster_defaults_witness :
  let s := initialMonster bareMonster in
  let z := initialMonster zeroEndMonster in
  (MonsterState.vx s = MonsterState.speed s
   /\ MonsterState.speed s = 2
   /\ MonsterState.patrolStart s = 500 - 100
   /\ MonsterState.patrolEnd s = 500 + 100
   /\ MonsterState.patrolStart s < MonsterState.patrolEnd s)
  /\ (MonsterState.patrolStart z == 50
      /\ MonsterState.patrolEnd z == 250
      /\ MonsterState.patrolStart z < MonsterState.patrolEnd z).
Proof.
  intros s z. split.
  - destruct (initialMonster_defaults bareMonster 300 3)
      as (H1 & H2 & H3 & H4 & H5 & _).
    exact (conj H1 (conj (proj1 (H2 eq_refl)) (conj (H3 eq_refl)
             (conj (H4 eq_refl) (H5 eq_refl eq_refl))))).
  - destruct (initialMonster_defaults zeroEndMonster 0 3)
      as (_ & _ & _ & _ & _ & _ & _ & _ & H7 & _).
    split; [vm_compute; reflexivity|]. split; [vm_compute; reflexivity|].
    apply (H7 eq_refl eq_refl). left. reflexivity.
Defined.

(** C10 as stated fails: a monster descriptor that omits [patrolStart]
    and [speed] but gives [patrolEnd = 300] at [x = 500] is initialised
    with [patrolStart = 400], which is not below [patrolEnd]. *)
Lemma initialMonster_unordered_bounds :
  LevelEntity.type lopsidedMonster = EntityType.monster
  /\ LevelEntity.patrolStart lopsidedMonster = None
  /\ LevelEntity.speed lopsidedMonster = None
  /\ MonsterState.patrolStart (initialMonster lopsidedMonster) == 400
  /\ MonsterState.patrolEnd (initialMonster lopsidedMonster) == 300
  /\ ~ (MonsterState.patrolStart (initialMonster lopsidedMonster)
        < MonsterState.patrolEnd (initialMonster lopsidedMonster)).
Proof.
  repeat split; try (vm_compute; reflexivity). vm_compute. discriminate.
Qed.

(** ** Platform resolution *)

Lemma overlapsEntity_true (p : PlayerState.t) (e : LevelEntity.t) :
  overlapsEntity p e = true <->
  PlayerState.x p < LevelEntity.x e + LevelEntity.w e
  /\ LevelEntity.x e < PlayerState.x p + PlayerState.width p
  /\ PlayerState.y p < LevelEntity.y e + LevelEntity.h e
  /\ LevelEntity.y e < PlayerState.y p + PlayerState.height p.
Proof.
  unfold overlapsEntity.
  rewrite !andb_true_iff, !Qltb_true, !Qgtb_true. tauto.
Qed.

Lemma overlap_depths_positive (p : PlayerState.t) (e : LevelEntity.t) :
  overlapsEntity p e = true -> 0 < overlapX p e /\ 0 < overlapY p e.
Proof.
  rewrite overlapsEntity_true. intros (H1 & H2 & H3 & H4).
  unfold overlapX, overlapY. split.
  - assert (Qabs (PlayerState.x p + PlayerState.width p / 2
                  - (LevelEntity.x e + LevelEntity.w e / 2))
            < (PlayerState.width p + LevelEntity.w e) / 2); [|qlra].
    apply Qabs_Qlt_condition. split; qlra.
  - assert (Qabs (PlayerState.y p + PlayerState.height p / 2
                  - (LevelEntity.y e + LevelEntity.h e / 2))
            < (PlayerState.height p + LevelEntity.h e) / 2); [|qlra].
    apply Qabs_Qlt_condition. split; qlra.
Qed.

Lemma entityCollision_platform (e : LevelEntity.t) (rest : list LevelEntity.t)
    (p : PlayerState.t) :
  LevelEntity.type e = EntityType.platform ->
  overlapsEntity p e = true ->
  entityCollision (e :: rest) p = entityCollision rest (resolvePlatform p e).
Proof.
  intros Ht Ho. simpl. unfold isType. rewrite Ht, Ho. reflexivity.
Qed.

(** C2, as the code has it.  A platform the player overlaps is resolved by
    [resolvePlatform] and the scan goes on with the result.  Both depths
    are positive.  When [overlapX < overlapY] the push is horizontal: to
    the platform's left edge when [vx > 0] and to its right edge when
    [vx <= 0] (so also when [vx = 0]), [vx] is zeroed and nothing else
    changes.  Otherwise the push is vertical and [x], [vx] are kept. *)
Theorem platform_push_out (p : PlayerState.t) (e : LevelEntity.t)
    (rest : list LevelEntity.t)
    (Htype : LevelEntity.type e = EntityType.platform)
    (Hover : overlapsEntity p e = true) :
  let r := resolvePlatform p e in
  entityCollision (e :: rest) p = entityCollision rest r
  /\ 0 < overlapX p e /\ 0 < overlapY p e
  /\ (overlapX p e < overlapY p e ->
      PlayerState.vx r = 0
      /\ (0 < PlayerState.vx p ->
          PlayerState.x r = LevelEntity.x e - PlayerState.width p)
      /\ (PlayerState.vx p <= 0 ->
          PlayerState.x r = LevelEntity.x e + LevelEntity.w e)
      /\ PlayerState.y r = PlayerState.y p
      /\ PlayerState.vy r = PlayerState.vy p
      /\ PlayerState.isGrounded r = PlayerState.isGrounded p)
  /\ (overlapY p e <= overlapX p e ->
      PlayerState.x r = PlayerState.x p
      /\ PlayerState.vx r = PlayerState.vx p
      /\ PlayerState.vy r = 0
      /\ (0 < PlayerState.vy p ->
          PlayerState.y r = LevelEntity.y e - PlayerState.height p
          /\ PlayerState.isGrounded r = true)
      /\ (PlayerState.vy p <= 0 ->
          PlayerState.y r = LevelEntity.y e + LevelEntity.h e
          /\ PlayerState.isGrounded r = PlayerState.isGrounded p)).
Proof.
  intros r. split; [apply entityCollision_platform; assumption|].
  destruct (overlap_depths_positive p e Hover) as [HX HY].
  split; [exact HX|]. split; [exact HY|]. subst r. unfold resolvePlatform.
  split; intros Hax.
  - apply Qltb_true in Hax. rewrite Hax.
    destruct (Qgtb (PlayerState.vx p) 0) eqn:E; simpl; qprop;
      repeat split; try reflexivity; intros; lra.
  - apply Qltb_false in Hax. rewrite Hax.
    destruct (Qgtb (PlayerState.vy p) 0) eqn:E; simpl; qprop;
      repeat split; try reflexivity; intros; lra.
Qed.

Lemma platform_push_out_witness :
  let r := resolvePlatform flankPlayer tallBlock in
  PlayerState.vx r = 0
  /\ PlayerState.x r = LevelEntity.x tallBlock + LevelEntity.w tallBlock.
Proof.
  intros r.
  destruct (platform_push_out flankPlayer tallBlock [] eq_refl eq_refl)
    as (_ & _ & _ & Hh & _).
  assert (Hax : overlapX flankPlayer tallBlock < overlapY flankPlayer tallBlock)
    by (vm_compute; reflexivity).
  destruct (Hh Hax) as (Hvx & _ & Hx & _).
  split; [exact Hvx | apply Hx; vm_compute; discriminate].
Defined.

(** C2 as stated fails on the [vx = 0] case: a player whose centre is
    left of the platform's centre, 5 units into its left flank, is not
    moved to the near (left) edge, 5 units away, but to the right edge,
    225 units away; the whole frame shows the same. *)
Lemma zero_vx_pushes_to_far_edge :
  overlapsEntity flankPlayer tallBlock = true
  /\ overlapX flankPlayer tallBlock < overlapY flankPlayer tallBlock
  /\ PlayerState.vx flankPlayer == 0
  /\ PlayerState.x flankPlayer + PlayerState.width flankPlayer / 2
     < LevelEntity.x tallBlock + LevelEntity.w tallBlock / 2
  /\ PlayerState.x (resolvePlatform flankPlayer tallBlock) == 300
  /\ ~ PlayerState.x (resolvePlatform flankPlayer tallBlock)
       == LevelEntity.x tallBlock - PlayerState.width flankPlayer
  /\ Qabs (LevelEntity.x tallBlock - PlayerState.width flankPlayer
           - PlayerState.x flankPlayer) == 5
  /\ Qabs (PlayerState.x (resolvePlatform flankPlayer tallBlock)
           - PlayerState.x flankPlayer) == 225
  /\ PlayerState.x (playerBeforeScan 1 flankSession) == 75
  /\ PlayerState.vx (playerBeforeScan 1 flankSession) == 0
  /\ PlayerState.x
       (player (fst (update GameStatus.playing 1 None [tallBlock] flankSession)))
     == 300.
Proof.
  repeat split; try (vm_compute; reflexivity). vm_compute. discriminate.
Qed.

(** ** World bounds and the void *)

Lemma worldBoundaries_spec (q : PlayerState.t) :
  let p := worldBoundaries q in
  0 <= PlayerState.x p <= GameConfig.levelWidth CONFIG
  /\ (PlayerState.x q < 0 -> PlayerState.x p = 0 /\ PlayerState.vx p = 0)
  /\ (GameConfig.levelWidth CONFIG < PlayerState.x q ->
      PlayerState.x p = GameConfig.levelWidth CONFIG /\ PlayerState.vx p = 0)
  /\ (0 <= PlayerState.x q <= GameConfig.levelWidth CONFIG -> p = q)
  /\ PlayerState.y p = PlayerState.y q
  /\ PlayerState.vy p = PlayerState.vy q
  /\ PlayerState.width p = PlayerState.width q
  /\ PlayerState.height p = PlayerState.height q
  /\ PlayerState.isGrounded p = PlayerState.isGrounded q
  /\ PlayerState.facing p = PlayerState.facing q.
Proof.
  unfold worldBoundaries. simpl.
  destruct (Qltb (PlayerState.x q) 0) eqn:E1; simpl.
  - change (Qgtb 0 7000) with false. simpl. qprop.
    repeat split; try reflexivity; try discriminate; intros; lra.
  - destruct (Qgtb (PlayerState.x q) 7000) eqn:E2; simpl; qprop;
      repeat split; try reflexivity; try assumption; try lra; intros; lra.
Qed.

(** C5.  The player after integration and the reset of [isGrounded] is
    [q]; the world clamp gives [p], with [x] in [[0, levelWidth]], [vx]
    zeroed exactly when a clamp acts and nothing else touched.  When
    [p.y > 800] the frame requests [lost] and stops: the session keeps
    [p] as its player and the old camera (the monsters have already
    moved). *)
Theorem void_fall_lost (jumpModifier : Q) (canvas : option Canvas.t)
    (LEVEL_1 : list LevelEntity.t) (s : Session) :
  let q := PlayerState.set_isGrounded false
             (playerPhysics (keys s) jumpModifier (player s)) in
  let p := worldBoundaries q in
  playerBeforeScan jumpModifier s = p
  /\ 0 <= PlayerState.x p <= GameConfig.levelWidth CONFIG
  /\ (PlayerState.x q < 0 -> PlayerState.x p = 0 /\ PlayerState.vx p = 0)
  /\ (GameConfig.levelWidth CONFIG < PlayerState.x q ->
      PlayerState.x p = GameConfig.levelWidth CONFIG /\ PlayerState.vx p = 0)
  /\ (0 <= PlayerState.x q <= GameConfig.levelWidth CONFIG -> p = q)
  /\ PlayerState.y p = PlayerState.y q
  /\ PlayerState.vy p = PlayerState.vy q
  /\ (800 < PlayerState.y p ->
      update GameStatus.playing jumpModifier canvas LEVEL_1 s
      = (mkSession p (camera s) (List.map monsterLogic (monsters s)) (keys s)
           (frameCount s + 1),
         Some GameStatus.lost)).
Proof.
  intros q p.
  destruct (worldBoundaries_spec q) as (H1 & H2 & H3 & H4 & H5 & H6 & _).
  split; [reflexivity|].
  repeat match goal with |- _ /\ _ => split end; try assumption; try tauto.
  intros Hvoid. apply Qgtb_true in Hvoid.
  unfold update; cbn [negb GameStatus.eqb]; cbv zeta. unfold playerBeforeScan. fold q. fold p.
  rewrite Hvoid. reflexivity.
Qed.

Lemma void_fall_lost_witness :
  snd (update GameStatus.playing 1 None demoLevel lostSession)
  = Some GameStatus.lost
  /\ camera (fst (update GameStatus.playing 1 None demoLevel lostSession))
     = camera lostSession
  /\ PlayerState.x (playerBeforeScan 1 lostSession) = 0
  /\ PlayerState.vx (playerBeforeScan 1 lostSession) = 0.
Proof.
  assert (Hvoid : 800 < PlayerState.y (playerBeforeScan 1 lostSession))
    by (vm_compute; reflexivity).
  destruct (void_fall_lost 1 None demoLevel lostSession)
    as (_ & _ & Hneg & _ & _ & _ & _ & Hup).
  rewrite (Hup Hvoid). simpl.
  split; [reflexivity|]. split; [reflexivity|].
  apply Hneg. vm_compute. reflexivity.
Defined.

(** ** The entity scan *)

Lemma entityCollision_app (pre rest : list LevelEntity.t)
    (p q : PlayerState.t) :
  entityCollision pre p = (q, None) ->
  entityCollision (pre ++ rest) p = entityCollision rest q.
Proof.
  revert p. induction pre as [|e pre IH]; intros p; simpl.
  - intros [= ->]. reflexivity.
  - destruct (isType EntityType.monster e); [apply IH|].
    destruct (overlapsEntity p e); [|apply IH].
    destruct (LevelEntity.type e); try apply IH; discriminate.
Qed.

Lemma entityCollision_app_stop (pre rest : list LevelEntity.t)
    (p q : PlayerState.t) (status : GameStatus.t) :
  entityCollision pre p = (q, Some status) ->
  entityCollision (pre ++ rest) p = (q, Some status).
Proof.
  revert p. induction pre as [|e pre IH]; intros p; simpl; [discriminate|].
  destruct (isType EntityType.monster e); [apply IH|].
  destruct (overlapsEntity p e); [|apply IH].
  destruct (LevelEntity.type e); try apply IH; auto.
Qed.

Lemma entityCollision_hazard (h : LevelEntity.t) (post : list LevelEntity.t)
    (p : PlayerState.t) :
  LevelEntity.type h = EntityType.hazard ->
  overlapsEntity p h = true ->
  entityCollision (h :: post) p = (p, Some GameStatus.lost).
Proof.
  intros Ht Ho. simpl. unfold isType. rewrite Ht, Ho. reflexivity.
Qed.

Lemma entityCollision_status (LEVEL_1 : list LevelEntity.t)
    (p q : PlayerState.t) (status : GameStatus.t) :
  entityCollision LEVEL_1 p = (q, Some status) ->
  status = GameStatus.won \/ status = GameStatus.lost.
Proof.
  revert p. induction LEVEL_1 as [|e rest IH]; intros p; simpl; [discriminate|].
  destruct (isType EntityType.monster e); [apply IH|].
  destruct (overlapsEntity p e); [|apply IH].
  destruct (LevelEntity.type e); try apply IH; intros [= _ <-]; auto.
Qed.

(** Only an overlapped platform moves the player during the scan. *)
Lemma entityCollision_unmoved (pre : list LevelEntity.t) (p : PlayerState.t) :
  Forall (fun e => overlapsEntity p e = true ->
                   LevelEntity.type e <> EntityType.platform) pre ->
  fst (entityCollision pre p) = p.
Proof.
  induction 1 as [|e pre He _ IH]; simpl; [reflexivity|].
  destruct (isType EntityType.monster e); [exact IH|].
  destruct (overlapsEntity p e); [|exact IH].
  specialize (He eq_refl).
  destruct (LevelEntity.type e); try exact IH; try reflexivity; congruence.
Qed.

(** C6, as the code has it.  Let [p] be the player as the scan receives
    it and [h] a hazard that [p] overlaps.  The frame requests [lost],
    whatever platforms [p] overlaps and whatever follows [h] in the
    level, unless the scan of the entities listed before [h] reaches a
    goal that the player overlaps, or the platforms it resolves on the
    way have pushed the player off [h] by the time [h] is tested.  The
    scan stops there: the session keeps the player as the pushes so far
    left it ([p] itself when no platform listed before [h] overlaps [p])
    and the camera is not updated. *)
Theorem hazard_contact_lost (jumpModifier : Q) (canvas : option Canvas.t)
    (pre post : list LevelEntity.t) (h : LevelEntity.t) (s : Session)
    (Hh : LevelEntity.type h = EntityType.hazard)
    (Hover : overlapsEntity (playerBeforeScan jumpModifier s) h = true)
    (Hgoal : snd (entityCollision pre (playerBeforeScan jumpModifier s))
             <> Some GameStatus.won)
    (Hstill : snd (entityCollision pre (playerBeforeScan jumpModifier s)) = None ->
              overlapsEntity
                (fst (entityCollision pre (playerBeforeScan jumpModifier s))) h
              = true) :
  let p := playerBeforeScan jumpModifier s in
  let q := if Qgtb (PlayerState.y p) 800 then p
           else fst (entityCollision pre p) in
  update GameStatus.playing jumpModifier canvas (pre ++ h :: post) s
  = (mkSession q (camera s)
       (List.map monsterLogic (monsters s)) (keys s) (frameCount s + 1),
     Some GameStatus.lost)
  /\ (Forall (fun e => overlapsEntity p e = true ->
                       LevelEntity.type e <> EntityType.platform) pre ->
      q = p).
Proof.
  intros p q. subst q. fold p in Hover, Hgoal, Hstill. split.
  - unfold update; cbn [negb GameStatus.eqb]; cbv zeta. fold p.
    destruct (Qgtb (PlayerState.y p) 800); [reflexivity|].
    destruct (entityCollision pre p) as [q [status|]] eqn:Hscan.
    + destruct (entityCollision_status _ _ _ _ Hscan) as [-> | ->].
      * exfalso. apply Hgoal. reflexivity.
      * rewrite (entityCollision_app_stop _ _ _ _ _ Hscan). reflexivity.
    + rewrite (entityCollision_app _ _ _ _ Hscan),
        (entityCollision_hazard _ _ _ Hh (Hstill eq_refl)). reflexivity.
  - intros Hpre. destruct (Qgtb (PlayerState.y p) 800); [reflexivity|].
    apply entityCollision_unmoved. exact Hpre.
Qed.

(** A player walking on ground that is listed first, into spikes that
    stand on it: the ground lifts the player back onto its top, the
    spikes are still overlapped, and the frame is lost. *)
Lemma hazard_contact_lost_witness :
  overlapsEntity (playerBeforeScan 1 strollingSession)
    (entity "ground" EntityType.platform 0 550 1000 50) = true
  /\ snd (update GameStatus.playing 1 None groundThenSpikes strollingSession)
     = Some GameStatus.lost
  /\ PlayerState.y
       (player (fst (update GameStatus.playing 1 None groundThenSpikes
                       strollingSession))) == 500.
Proof.
  assert (Hover : overlapsEntity (playerBeforeScan 1 strollingSession)
                    (entity "spikes" EntityType.hazard 200 530 40 20) = true)
    by (vm_compute; reflexivity).
  assert (Hgoal : snd (entityCollision
                         [entity "ground" EntityType.platform 0 550 1000 50]
                         (playerBeforeScan 1 strollingSession))
                  <> Some GameStatus.won)
    by (vm_compute; discriminate).
  assert (Hstill : snd (entityCollision
                          [entity "ground" EntityType.platform 0 550 1000 50]
                          (playerBeforeScan 1 strollingSession)) = None ->
                   overlapsEntity
                     (fst (entityCollision
                             [entity "ground" EntityType.platform 0 550 1000 50]
                             (playerBeforeScan 1 strollingSession)))
                     (entity "spikes" EntityType.hazard 200 530 40 20) = true)
    by (intros _; vm_compute; reflexivity).
  destruct (hazard_contact_lost 1 None
              [entity "ground" EntityType.platform 0 550 1000 50] []
              (entity "spikes" EntityType.hazard 200 530 40 20)
              strollingSession eq_refl Hover Hgoal Hstill) as [H _].
  change ([entity "ground" EntityType.platform 0 550 1000 50]
          ++ [entity "spikes" EntityType.hazard 200 530 40 20])
    with groundThenSpikes in H.
  split; [vm_compute; reflexivity|].
  rewrite H. split; [reflexivity | vm_compute; reflexivity].
Defined.

(** C6 as stated fails, in two ways.  The player comes down on a strip
    of spikes let into a platform that is listed first: at the start of
    the scan the player overlaps both, the platform is resolved first and
    lifts the player off the strip, and the frame makes no request.  And
    a player that overlaps spikes and a goal listed before them wins. *)
Lemma hazard_missed_after_platform :
  let p := playerBeforeScan 1 fallingSession in
  let spikes := entity "spikes" EntityType.hazard 50 400 20 10 in
  let p' := playerBeforeScan 1 strollingSession in
  let spikes' := entity "spikes" EntityType.hazard 200 530 40 20 in
  (In spikes spikedFloor
   /\ LevelEntity.type spikes = EntityType.hazard
   /\ overlapsEntity p spikes = true
   /\ PlayerState.y p <= 800
   /\ snd (update GameStatus.playing 1 None spikedFloor fallingSession) = None
   /\ snd (update GameStatus.playing 1 None spikedFloor fallingSession)
      <> Some GameStatus.lost)
  /\ (In spikes' goalThenSpikes
      /\ LevelEntity.type spikes' = EntityType.hazard
      /\ overlapsEntity p' spikes' = true
      /\ snd (update GameStatus.playing 1 None goalThenSpikes strollingSession)
         = Some GameStatus.won).
Proof.
  cbv zeta. split.
  - repeat match goal with |- _ /\ _ => split end; try (vm_compute; reflexivity).
    + simpl. right. left. reflexivity.
    + vm_compute. discriminate.
    + vm_compute. discriminate.
  - repeat match goal with |- _ /\ _ => split end; try (vm_compute; reflexivity).
    simpl. right. left. reflexivity.
Qed.

(** ** Grounding *)

Lemma resolvePlatform_grounded (p : PlayerState.t) (e : LevelEntity.t) :
  PlayerState.isGrounded (resolvePlatform p e) = true <->
  PlayerState.isGrounded p = true
  \/ (overlapY p e <= overlapX p e /\ 0 < PlayerState.vy p).
Proof.
  unfold resolvePlatform.
  destruct (Qltb (overlapX p e) (overlapY p e)) eqn:Ex;
    [destruct (Qgtb (PlayerState.vx p) 0)
    |destruct (Qgtb (PlayerState.vy p) 0) eqn:Ev]; simpl; qprop.
  - split; [auto | intros [H | [H _]]; [exact H | lra]].
  - split; [auto | intros [H | [H _]]; [exact H | lra]].
  - split; [intros _; right; split; assumption | reflexivity].
  - split; [auto | intros [H | [_ H]]; [exact H | lra]].
Qed.

Lemma entityCollision_keeps_grounded (LEVEL_1 : list LevelEntity.t)
    (p : PlayerState.t) :
  PlayerState.isGrounded p = true ->
  PlayerState.isGrounded (fst (entityCollision LEVEL_1 p)) = true.
Proof.
  revert p. induction LEVEL_1 as [|e l IH]; intros p Hp; simpl; [exact Hp|].
  destruct (isType EntityType.monster e); [apply IH, Hp|].
  destruct (overlapsEntity p e); [|apply IH, Hp].
  destruct (LevelEntity.type e); try (apply IH, Hp); try exact Hp.
  apply IH, resolvePlatform_grounded. left. exact Hp.
Qed.

Lemma landing_here (e : LevelEntity.t) (post : list LevelEntity.t)
    (p : PlayerState.t) :
  LevelEntity.type e = EntityType.platform ->
  overlapsEntity p e = true ->
  overlapY p e <= overlapX p e -> 0 < PlayerState.vy p ->
  landing (e :: post) p.
Proof.
  intros Ht Ho Hax Hv. exists [], post, e, p.
  repeat split; try assumption.
  all: unfold resolvePlatform;
    apply Qltb_false in Hax; apply Qgtb_true in Hv; rewrite Hax, Hv; reflexivity.
Qed.

Lemma landing_later (e : LevelEntity.t) (l : list LevelEntity.t)
    (p p' : PlayerState.t) :
  entityCollision [e] p = (p', None) ->
  landing l p' -> landing (e :: l) p.
Proof.
  intros He (pre & post & e' & q & -> & Hscan & H).
  exists (e :: pre), post, e', q. split; [reflexivity|]. split; [|exact H].
  change (e :: pre) with ([e] ++ pre).
  rewrite (entityCollision_app _ _ _ _ He). exact Hscan.
Qed.

Lemma entityCollision_grounded (LEVEL_1 : list LevelEntity.t)
    (p : PlayerState.t) :
  PlayerState.isGrounded (fst (entityCollision LEVEL_1 p)) = true <->
  PlayerState.isGrounded p = true \/ landing LEVEL_1 p.
Proof.
  split.
  - revert p. induction LEVEL_1 as [|e l IH]; intros p; simpl; [auto|].
    assert (Hskip : PlayerState.isGrounded (fst (entityCollision l p)) = true ->
                    entityCollision [e] p = (p, None) ->
                    PlayerState.isGrounded p = true \/ landing (e :: l) p).
    { intros Hg He. destruct (IH p Hg) as [H | H]; [left; exact H|].
      right. exact (landing_later e l p p He H). }
    destruct (isType EntityType.monster e) eqn:Em;
      [intros Hg; apply (Hskip Hg); simpl; rewrite Em; reflexivity|].
    destruct (overlapsEntity p e) eqn:Eo;
      [|intros Hg; apply (Hskip Hg); simpl; rewrite Em, Eo; reflexivity].
    destruct (LevelEntity.type e) eqn:Et; simpl; auto;
      try (intros Hg; apply (Hskip Hg); simpl; rewrite Em, Eo, Et; reflexivity).
    intros Hg. destruct (IH _ Hg) as [H | H].
    + apply resolvePlatform_grounded in H. destruct H as [H | [Hax Hv]];
        [left; exact H | right; apply landing_here; assumption].
    + right. apply (landing_later e l p (resolvePlatform p e)); [|exact H].
      simpl. rewrite Em, Eo, Et. reflexivity.
  - intros [Hp | (pre & post & e & q & -> & Hscan & Ht & Ho & _ & _ & _ & _ & Hg)].
    + apply entityCollision_keeps_grounded, Hp.
    + rewrite (entityCollision_app _ _ _ _ Hscan),
        (entityCollision_platform _ _ _ Ht Ho).
      apply entityCollision_keeps_grounded, Hg.
Qed.

Lemma playerBeforeScan_not_grounded (jumpModifier : Q) (s : Session) :
  PlayerState.isGrounded (playerBeforeScan jumpModifier s) = false.
Proof.
  unfold playerBeforeScan.
  destruct (worldBoundaries_spec
              (PlayerState.set_isGrounded false
                 (playerPhysics (keys s) jumpModifier (player s))))
    as (_ & _ & _ & _ & _ & _ & _ & _ & H & _).
  rewrite H. reflexivity.
Qed.

(** C3.  The collision pass of every playing frame starts with
    [isGrounded = false].  The frame ends with [isGrounded = true] exactly
    when the player did not fall into the void and the entity scan had a
    landing: a platform overlap resolved on the vertical axis with
    [vy > 0], which puts the player's bottom on the platform's top and
    zeroes [vy].  A frame without a landing ends with
    [isGrounded = false]. *)
Theorem grounded_only_by_landing (jumpModifier : Q)
    (canvas : option Canvas.t) (LEVEL_1 : list LevelEntity.t) (s : Session) :
  let p := playerBeforeScan jumpModifier s in
  let s' := fst (update GameStatus.playing jumpModifier canvas LEVEL_1 s) in
  PlayerState.isGrounded p = false
  /\ (PlayerState.isGrounded (player s') = true <->
      PlayerState.y p <= 800 /\ landing LEVEL_1 p)
  /\ (~ landing LEVEL_1 p -> PlayerState.isGrounded (player s') = false).
Proof.
  intros p s'.
  pose proof (playerBeforeScan_not_grounded jumpModifier s) as Hp. fold p in Hp.
  assert (Hiff : PlayerState.isGrounded (player s') = true <->
                 PlayerState.y p <= 800 /\ landing LEVEL_1 p).
  { subst s'. unfold update; cbn [negb GameStatus.eqb]; cbv zeta. fold p.
    destruct (Qgtb (PlayerState.y p) 800) eqn:Ev; simpl; qprop.
    - rewrite Hp. split; [discriminate | intros [H _]; lra].
    - pose proof (entityCollision_grounded LEVEL_1 p) as Hscan.
      rewrite Hp in Hscan.
      assert (Hplayer : forall r : Session * option GameStatus.t,
                 r = (let '(p', o) := entityCollision LEVEL_1 p in
                      match o with
                      | Some status =>
                          (mkSession p' (camera s)
                             (List.map monsterLogic (monsters s)) (keys s)
                             (frameCount s + 1), Some status)
                      | None =>
                          if monsterCollision (List.map monsterLogic (monsters s)) p'
                          then (mkSession p' (camera s)
                                  (List.map monsterLogic (monsters s)) (keys s)
                                  (frameCount s + 1), Some GameStatus.lost)
                          else (mkSession p'
                                  match canvas with
                                  | Some c => cameraUpdate c p' (camera s)
                                  | None => camera s
                                  end
                                  (List.map monsterLogic (monsters s)) (keys s)
                                  (frameCount s + 1), None)
                      end) ->
                 player (fst r) = fst (entityCollision LEVEL_1 p)).
      { intros r ->. destruct (entityCollision LEVEL_1 p) as [p' [st|]];
          [reflexivity|]. destruct (monsterCollision _ p'); reflexivity. }
      rewrite (Hplayer _ eq_refl). rewrite Hscan.
      split; [intros [H | H]; [discriminate | split; assumption] | intros [_ H]; right; exact H]. }
  split; [exact Hp|]. split; [exact Hiff|].
  intros Hno. destruct (PlayerState.isGrounded (player s')) eqn:E; [|reflexivity].
  exfalso. apply Hno. apply Hiff. reflexivity.
Qed.

Lemma grounded_only_by_landing_witness :
  PlayerState.isGrounded
    (player (fst (update GameStatus.playing 1 None [] freshSession))) = false.
Proof.
  destruct (grounded_only_by_landing 1 None [] freshSession) as (_ & _ & H).
  apply H. intros (pre & post & e & q & Heq & _).
  destruct pre; discriminate Heq.
Defined.

(** The landing scenario runs as expected: after 20 frames without
    input no request was made and the player rests on the platform. *)
Example settles_on_ledge :
  let r := frames 20 1 None ledge ledgeSession in
  snd r = None
  /\ PlayerState.y (player (fst r)) == 400 - 50
  /\ PlayerState.vy (player (fst r)) == 0
  /\ PlayerState.isGrounded (player (fst r)) = true.
Proof. vm_compute. repeat split. Qed.

(** ** Camera *)

Lemma cameraTargetX_clamp (c : Canvas.t) (p : PlayerState.t) :
  let centre := PlayerState.x p - Canvas.width c / 2 + PlayerState.width p / 2 in
  let hi := GameConfig.levelWidth CONFIG - Canvas.width c in
  cameraTargetX c p == Qmin (Qmax centre 0) hi.
Proof.
  intros centre hi. unfold cameraTargetX. fold centre. fold hi.
  destruct (Q.max_spec centre 0) as [[H1 E1] | [H1 E1]];
  destruct (Q.min_spec (Qmax centre 0) hi) as [[H2 E2] | [H2 E2]];
  rewrite E2; rewrite E1 in H2; try rewrite E1;
  repeat qcase; qprop; try reflexivity; try lra.
Qed.

Lemma cameraTargetY_floor (c : Canvas.t) (p : PlayerState.t) :
  cameraTargetY c p <= 800 - Canvas.height c.
Proof.
  unfold cameraTargetY.
  repeat (qcase; qprop); lra.
Qed.

Lemma update_continues (jumpModifier : Q) (c : Canvas.t)
    (LEVEL_1 : list LevelEntity.t) (s s' : Session) :
  update GameStatus.playing jumpModifier (Some c) LEVEL_1 s = (s', None) ->
  camera s' = cameraUpdate c (player s') (camera s).
Proof.
  unfold update; cbn [negb GameStatus.eqb]; cbv zeta. qcase; [discriminate|].
  destruct (entityCollision LEVEL_1 _) as [p [st|]]; [discriminate|].
  destruct (monsterCollision _ p); [discriminate|].
  intros [= <-]. reflexivity.
Qed.

(** C9.  In a frame that reaches the camera update (a mounted canvas, no
    request made), both camera axes move toward their target by
    [camera + (target - camera) * a], with [a = 0.1] horizontally and the
    smaller [a = 0.05] vertically.  The horizontal target is the offset
    that centres the player, clamped below by 0 and then above by
    [levelWidth - viewportWidth]; the vertical target never exceeds
    [800 - viewportHeight]. *)
Theorem camera_smoothing (jumpModifier : Q) (c : Canvas.t)
    (LEVEL_1 : list LevelEntity.t) (s s' : Session)
    (Hrun : update GameStatus.playing jumpModifier (Some c) LEVEL_1 s = (s', None)) :
  let p := player s' in
  let centre := PlayerState.x p - Canvas.width c / 2 + PlayerState.width p / 2 in
  let hi := GameConfig.levelWidth CONFIG - Canvas.width c in
  let lowestPoint := 800 in
  let targetX := cameraTargetX c p in
  let targetY := cameraTargetY c p in
  Camera.x (camera s') = Camera.x (camera s) + (targetX - Camera.x (camera s)) * 0.1
  /\ Camera.y (camera s') = Camera.y (camera s) + (targetY - Camera.y (camera s)) * 0.05
  /\ 0.05 < 0.1
  /\ targetX == Qmin (Qmax centre 0) hi
  /\ targetX <= hi
  /\ (0 <= hi -> 0 <= targetX)
  /\ (0 <= centre <= hi -> targetX == centre)
  /\ targetY <= lowestPoint - Canvas.height c.
Proof.
  intros p centre hi lowestPoint targetX targetY.
  rewrite (update_continues _ _ _ _ _ Hrun). fold p.
  pose proof (cameraTargetX_clamp c p) as HX. simpl in HX.
  fold centre hi targetX in HX.
  split; [reflexivity|]. split; [reflexivity|]. split; [reflexivity|].
  split; [exact HX|].
  split; [rewrite HX; apply Q.le_min_r|].
  split; [intros Hhi; rewrite HX; apply Q.min_glb; [apply Q.le_max_r | exact Hhi]|].
  split; [|apply cameraTargetY_floor].
  intros [H0 Hhi]. rewrite HX.
  rewrite (Q.max_l centre 0 H0). apply Q.min_l, Hhi.
Qed.

Lemma camera_smoothing_witness :
  let r := update GameStatus.playing 1 (Some viewport) demoLevel walkingSession in
  snd r = None
  /\ Camera.x (camera (fst r)) == 150 + (219.08 - 150) * 0.1
  /\ Camera.y (camera (fst r)) == 40 + (50 - 40) * 0.05.
Proof.
  intros r.
  assert (Hrun : r = (fst r, None)) by (vm_compute; reflexivity).
  destruct (camera_smoothing 1 viewport demoLevel walkingSession (fst r) Hrun)
    as (Hx & Hy & _).
  split; [vm_compute; reflexivity|].
  rewrite Hx, Hy. split; vm_compute; reflexivity.
Defined.

(** ** Horizontal speed under held input *)

Lemma playerPhysics_vx (keys : gmap string bool) (jumpModifier : Q)
    (p : PlayerState.t) :
  PlayerState.vx (playerPhysics keys jumpModifier p)
  = PlayerState.vx (frictionAndLimits (horizontalMovement keys p)).
Proof.
  unfold playerPhysics, applyVelocity, jumping, applyGravity.
  destruct (pressed keys "Space" && _); reflexivity.
Qed.

Lemma frictionAndLimits_bound (p : PlayerState.t) :
  Qabs (PlayerState.vx (frictionAndLimits p)) <= GameConfig.maxSpeed CONFIG.
Proof.
  apply Qabs_Qle_condition. unfold frictionAndLimits. simpl.
  destruct (Qgtb (PlayerState.vx p * 0.85) 8.0) eqn:E1; simpl; try qcase;
    simpl; qprop; simpl in *; split; lra.
Qed.

Lemma frictionAndLimits_free (p : PlayerState.t) :
  Qabs (PlayerState.vx p * GameConfig.friction CONFIG) <= GameConfig.maxSpeed CONFIG ->
  PlayerState.vx (frictionAndLimits p)
  = PlayerState.vx p * GameConfig.friction CONFIG.
Proof.
  intros H. apply Qabs_Qle_condition in H. simpl in H.
  unfold frictionAndLimits. simpl.
  destruct (Qgtb (PlayerState.vx p * 0.85) 8.0) eqn:E1; simpl; qprop; [lra|].
  qcase; simpl; qprop; simpl in *; [lra | reflexivity].
Qed.

Lemma horizontalMovement_held (keys : gmap string bool) (d : Q)
    (p : PlayerState.t) :
  held keys d ->
  PlayerState.vx (horizontalMovement keys p)
  == PlayerState.vx p + d * GameConfig.moveSpeed CONFIG.
Proof.
  intros [(Hr & Hl & ->) | (Hl & Hr & ->)];
    unfold horizontalMovement; rewrite Hl, Hr; simpl; lra.
Qed.

Lemma playerPhysics_vx_held (keys : gmap string bool) (d jumpModifier : Q)
    (p : PlayerState.t) :
  held keys d ->
  Qabs (PlayerState.vx p) <= GameConfig.maxSpeed CONFIG ->
  PlayerState.vx (playerPhysics keys jumpModifier p)
  == (PlayerState.vx p + d * GameConfig.moveSpeed CONFIG)
     * GameConfig.friction CONFIG.
Proof.
  intros Hheld Hv. rewrite playerPhysics_vx.
  pose proof (horizontalMovement_held keys d p Hheld) as Hm.
  apply Qabs_Qle_condition in Hv. simpl in Hv, Hm.
  assert (Hd : -1 <= d <= 1)
    by (destruct Hheld as [(_ & _ & ->) | (_ & _ & ->)]; split; lra).
  rewrite frictionAndLimits_free.
  - simpl. rewrite Hm. reflexivity.
  - apply Qabs_Qle_condition. simpl. rewrite Hm. split; lra.
Qed.

Lemma vxAfter_S (keys : gmap string bool) (jumpModifier : Q)
    (p : PlayerState.t) (k : nat) :
  vxAfter keys jumpModifier p (S k)
  = PlayerState.vx
      (playerPhysics keys jumpModifier
         (Nat.iter k (playerPhysics keys jumpModifier) p)).
Proof. reflexivity. Qed.

Lemma vxAfter_bound (keys : gmap string bool) (jumpModifier : Q)
    (p : PlayerState.t) (k : nat) :
  Qabs (PlayerState.vx p) <= GameConfig.maxSpeed CONFIG ->
  Qabs (vxAfter keys jumpModifier p k) <= GameConfig.maxSpeed CONFIG.
Proof.
  intros H0. destruct k as [|k]; [exact H0|].
  rewrite vxAfter_S, playerPhysics_vx. apply frictionAndLimits_bound.
Qed.

Lemma terminalSpeed_value : terminalSpeed == 68 # 15.
Proof. vm_compute. reflexivity. Qed.

Lemma vxAfter_step (keys : gmap string bool) (d jumpModifier : Q)
    (p : PlayerState.t) (k : nat) :
  held keys d ->
  Qabs (PlayerState.vx p) <= GameConfig.maxSpeed CONFIG ->
  vxAfter keys jumpModifier p (S k)
  == (vxAfter keys jumpModifier p k + d * GameConfig.moveSpeed CONFIG)
     * GameConfig.friction CONFIG.
Proof.
  intros Hheld H0. rewrite vxAfter_S.
  apply playerPhysics_vx_held; [exact Hheld|].
  apply (vxAfter_bound keys jumpModifier p k H0).
Qed.

Lemma vxAfter_gap (keys : gmap string bool) (d jumpModifier : Q)
    (p : PlayerState.t) (k : nat) :
  held keys d ->
  Qabs (PlayerState.vx p) <= GameConfig.maxSpeed CONFIG ->
  d * terminalSpeed - vxAfter keys jumpModifier p (S k)
  == GameConfig.friction CONFIG * (d * terminalSpeed - vxAfter keys jumpModifier p k).
Proof.
  intros Hheld H0. rewrite (vxAfter_step keys d jumpModifier p k Hheld H0).
  rewrite terminalSpeed_value. simpl. lra.
Qed.

Lemma inject_nat_succ (n : nat) :
  inject_Z (Z.of_nat (S n)) == inject_Z (Z.of_nat n) + 1.
Proof. rewrite Nat2Z.inj_succ. unfold Z.succ. rewrite inject_Z_plus. reflexivity. Qed.

Lemma inject_nat_nonneg (n : nat) : 0 <= inject_Z (Z.of_nat n).
Proof. change 0 with (inject_Z 0). rewrite <- Zle_Qle. lia. Qed.

(** A non-negative sequence that shrinks by the factor [0.85] every step
    goes below every positive bound. *)
Lemma geometric_decay (f : nat -> Q) (eps : Q) :
  (forall n, 0 <= f n) -> f 0%nat <= 13 ->
  (forall n, f (S n) == 0.85 * f n) -> 0 < eps ->
  exists N : nat, forall k : nat, (N <= k)%nat -> f k < eps.
Proof.
  intros Hpos H0 Hstep Heps.
  assert (Hlin : forall n, f n * (17 + 3 * inject_Z (Z.of_nat n)) <= 221).
  { induction n as [|n IH].
    - change (inject_Z (Z.of_nat 0)) with 0. lra.
    - rewrite Hstep, inject_nat_succ.
      pose proof (Hpos n). pose proof (inject_nat_nonneg n). nra. }
  exists (Z.to_nat (Qceiling (221 / eps)) + 1)%nat. intros k Hk.
  pose proof (Hlin k) as Hl. pose proof (Hpos k) as Hp.
  pose proof (inject_nat_nonneg k) as Hn.
  assert (Hbig : 221 < eps * inject_Z (Z.of_nat k)).
  { assert (Hc : 221 / eps <= inject_Z (Qceiling (221 / eps)))
      by apply Qle_ceiling.
    assert (Hz : (Qceiling (221 / eps) + 1 <= Z.of_nat k)%Z) by lia.
    rewrite Zle_Qle, inject_Z_plus in Hz. change (inject_Z 1) with 1 in Hz.
    assert (Hq : eps * (221 / eps) == 221)
      by (apply Qmult_div_r; intros E; rewrite E in Heps; discriminate).
    assert (Hm : eps * (221 / eps) <= eps * inject_Z (Qceiling (221 / eps)))
      by (apply Qmult_le_l; assumption).
    nra. }
  nra.
Qed.

Lemma vxAfter_converges (keys : gmap string bool) (d jumpModifier : Q)
    (p : PlayerState.t) (eps : Q) :
  held keys d ->
  Qabs (PlayerState.vx p) <= GameConfig.maxSpeed CONFIG ->
  0 < eps ->
  exists N : nat, forall k : nat, (N <= k)%nat ->
    Qabs (vxAfter keys jumpModifier p k - d * terminalSpeed) < eps.
Proof.
  intros Hheld H0 Heps.
  destruct (geometric_decay
              (fun k => Qabs (d * terminalSpeed - vxAfter keys jumpModifier p k))
              eps) as [N HN].
  - intros n. apply Qabs_nonneg.
  - unfold vxAfter. simpl Nat.iter. apply Qabs_Qle_condition in H0. simpl in H0.
    apply Qabs_Qle_condition. rewrite terminalSpeed_value.
    destruct Hheld as [(_ & _ & ->) | (_ & _ & ->)]; split; lra.
  - intros n. rewrite (vxAfter_gap keys d jumpModifier p n Hheld H0).
    rewrite Qabs_Qmult. simpl GameConfig.friction.
    rewrite (Qabs_pos 0.85) by lra. reflexivity.
  - exact Heps.
  - exists N. intros k Hk. rewrite Qabs_Qminus. apply HN, Hk.
Qed.

Lemma held_rightHeld : held rightHeld 1.
Proof. left. repeat split. Qed.

(** C7, as the code has it.  After the physics block of any frame
    [|vx| <= maxSpeed].  With one arrow key held (direction [d]) and a
    start within the limit, the clamp never acts: each frame maps [vx] to
    [(vx + d * moveSpeed) * friction], the distance to
    [d * terminalSpeed] shrinks by the factor [friction], and [vx] tends
    to [d * terminalSpeed], where
    [terminalSpeed = moveSpeed * friction / (1 - friction) = 68/15],
    which is below [maxSpeed]. *)
Theorem held_input_speed (keys anyKeys : gmap string bool)
    (d jumpModifier eps : Q) (p anyPlayer : PlayerState.t) (k : nat)
    (Hheld : held keys d)
    (H0 : Qabs (PlayerState.vx p) <= GameConfig.maxSpeed CONFIG)
    (Heps : 0 < eps) :
  Qabs (PlayerState.vx (playerPhysics anyKeys jumpModifier anyPlayer))
    <= GameConfig.maxSpeed CONFIG
  /\ Qabs (vxAfter keys jumpModifier p k) <= GameConfig.maxSpeed CONFIG
  /\ vxAfter keys jumpModifier p (S k)
     == (vxAfter keys jumpModifier p k + d * GameConfig.moveSpeed CONFIG)
        * GameConfig.friction CONFIG
  /\ terminalSpeed == 68 # 15
  /\ terminalSpeed < GameConfig.maxSpeed CONFIG
  /\ d * terminalSpeed - vxAfter keys jumpModifier p (S k)
     == GameConfig.friction CONFIG
        * (d * terminalSpeed - vxAfter keys jumpModifier p k)
  /\ exists N : nat, forall j : nat, (N <= j)%nat ->
       Qabs (vxAfter keys jumpModifier p j - d * terminalSpeed) < eps.
Proof.
  split; [rewrite playerPhysics_vx; apply frictionAndLimits_bound|].
  split; [apply vxAfter_bound, H0|].
  split; [apply vxAfter_step; assumption|].
  split; [apply terminalSpeed_value|].
  split; [vm_compute; reflexivity|].
  split; [apply vxAfter_gap; assumption|].
  apply vxAfter_converges; assumption.
Qed.

Lemma held_input_speed_witness :
  Qabs (vxAfter rightHeld 1 (initialPlayer demoLevel) 25)
    <= GameConfig.maxSpeed CONFIG
  /\ exists N : nat, forall j : nat, (N <= j)%nat ->
       Qabs (vxAfter rightHeld 1 (initialPlayer demoLevel) j - 1 * terminalSpeed)
       < 0.01.
Proof.
  assert (H0 : Qabs (PlayerState.vx (initialPlayer demoLevel))
               <= GameConfig.maxSpeed CONFIG) by (vm_compute; discriminate).
  assert (Heps : 0 < 0.01) by reflexivity.
  destruct (held_input_speed rightHeld ∅ 1 1 0.01 (initialPlayer demoLevel)
              flankPlayer 25 held_rightHeld H0 Heps)
    as (_ & Hb & _ & _ & _ & _ & Hc).
  split; [exact Hb | exact Hc].
Defined.

(** C7 as stated fails on its last part: with the right arrow held from
    rest, [vx] does not tend to [maxSpeed]; it stays below 4.54. *)
Lemma held_input_not_to_maxSpeed :
  held rightHeld 1
  /\ PlayerState.vx (initialPlayer demoLevel) == 0
  /\ vxAfter rightHeld 1 (initialPlayer demoLevel) 30 < 4.54
  /\ ~ (forall eps : Q, 0 < eps ->
        exists N : nat, forall k : nat, (N <= k)%nat ->
          Qabs (vxAfter rightHeld 1 (initialPlayer demoLevel) k
                - GameConfig.maxSpeed CONFIG) < eps).
Proof.
  split; [exact held_rightHeld|]. split; [reflexivity|].
  split; [vm_compute; reflexivity|].
  intros Hconv.
  assert (H0 : Qabs (PlayerState.vx (initialPlayer demoLevel))
               <= GameConfig.maxSpeed CONFIG) by (vm_compute; discriminate).
  destruct (Hconv 1 ltac:(reflexivity)) as [N1 H1].
  destruct (vxAfter_converges rightHeld 1 1 (initialPlayer demoLevel) 1
              held_rightHeld H0 ltac:(reflexivity)) as [N2 H2].
  specialize (H1 (Nat.max N1 N2) (Nat.le_max_l _ _)).
  specialize (H2 (Nat.max N1 N2) (Nat.le_max_r _ _)).
  apply Qabs_Qlt_condition in H1. apply Qabs_Qlt_condition in H2.
  rewrite terminalSpeed_value in H2. simpl in H1. lra.
Qed.

(** * Further properties of the code *)

(** ** Input state *)

(** X1.  [keysRef] after the listeners, for a key code that is not the
    name of a member of [Object.prototype] (no code a keyboard produces
    is): the key reads pressed after its keydown and released after its
    keyup, whatever came before; the listeners touch no other key; a key
    that never had an event reads released. *)
Theorem key_round_trip (keys : gmap string bool) (code other : string)
    (Hown : ownKey code = true)
    (Hne : code <> other) :
  pressed (handleKeyDown code keys) code = true
  /\ pressed (handleKeyUp code keys) code = false
  /\ pressed (handleKeyUp code (handleKeyDown code keys)) code = false
  /\ pressed (handleKeyDown code (handleKeyUp code keys)) code = true
  /\ pressed (handleKeyDown code keys) other = pressed keys other
  /\ pressed (handleKeyUp code keys) other = pressed keys other
  /\ pressed ∅ code = false.
Proof.
  unfold pressed, handleKeyDown, handleKeyUp.
  rewrite !lookup_insert_eq, !lookup_insert_ne by exact Hne.
  rewrite lookup_empty. repeat split.
Qed.

Lemma key_round_trip_witness :
  pressed (handleKeyUp "Space" (handleKeyDown "Space" rightHeld)) "Space" = false
  /\ pressed (handleKeyUp "Space" rightHeld) "ArrowRight" = true.
Proof.
  assert (Hown : ownKey "Space" = true) by reflexivity.
  assert (Hne : "Space"%string <> "ArrowRight"%string) by discriminate.
  destruct (key_round_trip rightHeld "Space" "ArrowRight" Hown Hne)
    as (_ & _ & Hup & _ & _ & Hother & _).
  split; [exact Hup | rewrite Hother; reflexivity].
Defined.

(** ** Player physics *)

(** What the steps before the jump test leave alone. *)
Lemma before_jump_fields (keys : gmap string bool) (p : PlayerState.t) :
  let q := applyGravity (frictionAndLimits (horizontalMovement keys p)) in
  PlayerState.x q = PlayerState.x p
  /\ PlayerState.y q = PlayerState.y p
  /\ PlayerState.vy q = PlayerState.vy p + GameConfig.gravity CONFIG
  /\ PlayerState.width q = PlayerState.width p
  /\ PlayerState.height q = PlayerState.height p
  /\ PlayerState.isGrounded q = PlayerState.isGrounded p
  /\ PlayerState.frame q = PlayerState.frame p
  /\ PlayerState.vx q
     = PlayerState.vx (frictionAndLimits (horizontalMovement keys p)).
Proof.
  unfold applyGravity, frictionAndLimits, horizontalMovement.
  destruct (pressed keys "ArrowLeft"), (pressed keys "ArrowRight");
    repeat (simpl; try qcase); repeat split.
Qed.

Lemma playerPhysics_airborne (keys : gmap string bool) (jumpModifier : Q)
    (p : PlayerState.t) :
  pressed keys "Space" && PlayerState.isGrounded p = false ->
  let r := playerPhysics keys jumpModifier p in
  PlayerState.vy r = PlayerState.vy p + GameConfig.gravity CONFIG
  /\ PlayerState.y r = PlayerState.y p + (PlayerState.vy p + GameConfig.gravity CONFIG)
  /\ PlayerState.isGrounded r = PlayerState.isGrounded p.
Proof.
  intros H. unfold playerPhysics, jumping.
  destruct (before_jump_fields keys p) as (_ & Hy & Hvy & _ & _ & Hg & _).
  set (q := applyGravity (frictionAndLimits (horizontalMovement keys p))) in *.
  clearbody q. rewrite Hg, H. simpl. rewrite Hy, Hvy, Hg. repeat split.
Qed.

(** X2.  No double jump.  While the player is not grounded, or the space
    bar is up, a frame only adds gravity to [vy].  With the space bar down
    and the player grounded, [vy] becomes [baseJumpForce * jumpModifier]
    (this frame's gravity is overwritten), [y] moves by exactly that, the
    player leaves the ground, and the motion is upward for every positive
    [jumpModifier]. *)
Theorem jump_only_when_grounded (keys : gmap string bool) (jumpModifier : Q)
    (p : PlayerState.t) :
  let r := playerPhysics keys jumpModifier p in
  (PlayerState.isGrounded p = false \/ pressed keys "Space" = false ->
   PlayerState.vy r = PlayerState.vy p + GameConfig.gravity CONFIG
   /\ PlayerState.y r = PlayerState.y p + (PlayerState.vy p + GameConfig.gravity CONFIG)
   /\ PlayerState.isGrounded r = PlayerState.isGrounded p)
  /\ (PlayerState.isGrounded p = true -> pressed keys "Space" = true ->
      PlayerState.vy r = GameConfig.baseJumpForce CONFIG * jumpModifier
      /\ PlayerState.y r
         = PlayerState.y p + GameConfig.baseJumpForce CONFIG * jumpModifier
      /\ PlayerState.isGrounded r = false
      /\ (0 < jumpModifier -> PlayerState.vy r < 0)).
Proof.
  intros r. split.
  - intros H. apply playerPhysics_airborne.
    destruct H as [-> | ->]; [apply andb_false_r | reflexivity].
  - intros Hg Hs. subst r. unfold playerPhysics, jumping.
    destruct (before_jump_fields keys p) as (_ & Hy & _ & _ & _ & Hq & _).
    set (q := applyGravity (frictionAndLimits (horizontalMovement keys p))) in *.
    clearbody q. rewrite Hq, Hg, Hs. simpl. rewrite Hy.
    repeat split. intros Hjm. lra.
Qed.

Lemma jump_only_when_grounded_witness :
  PlayerState.vy (playerPhysics spaceHeld 1.5 standingPlayer) == -21
  /\ PlayerState.vy (playerPhysics spaceHeld 1.5 flankPlayer) == 26.6.
Proof.
  destruct (jump_only_when_grounded spaceHeld 1.5 standingPlayer) as [_ Hjump].
  destruct (jump_only_when_grounded spaceHeld 1.5 flankPlayer) as [Hair _].
  destruct (Hjump eq_refl eq_refl) as (Hvy & _).
  destruct (Hair (or_introl eq_refl)) as (Hvy' & _).
  rewrite Hvy, Hvy'. split; vm_compute; reflexivity.
Defined.

Lemma horizontalMovement_idle (keys : gmap string bool) (p : PlayerState.t) :
  pressed keys "ArrowLeft" = false -> pressed keys "ArrowRight" = false ->
  horizontalMovement keys p = p.
Proof. intros Hl Hr. unfold horizontalMovement. rewrite Hl, Hr. reflexivity. Qed.

Lemma playerPhysics_facing (keys : gmap string bool) (jumpModifier : Q)
    (p : PlayerState.t) :
  PlayerState.facing (playerPhysics keys jumpModifier p)
  = if pressed keys "ArrowRight" then 1%Z
    else if pressed keys "ArrowLeft" then (-1)%Z
    else PlayerState.facing p.
Proof.
  unfold playerPhysics, applyVelocity, jumping, applyGravity, frictionAndLimits,
    horizontalMovement.
  destruct (pressed keys "ArrowLeft"), (pressed keys "ArrowRight");
    repeat (simpl; try qcase);
    destruct (pressed keys "Space" && PlayerState.isGrounded p); reflexivity.
Qed.

Lemma vxAfter_idle_step (keys : gmap string bool) (jumpModifier : Q)
    (p : PlayerState.t) (k : nat) :
  pressed keys "ArrowLeft" = false -> pressed keys "ArrowRight" = false ->
  Qabs (PlayerState.vx p) <= GameConfig.maxSpeed CONFIG ->
  vxAfter keys jumpModifier p (S k)
  = vxAfter keys jumpModifier p k * GameConfig.friction CONFIG.
Proof.
  intros Hl Hr H0. rewrite vxAfter_S, playerPhysics_vx.
  rewrite (horizontalMovement_idle keys _ Hl Hr).
  apply frictionAndLimits_free.
  pose proof (vxAfter_bound keys jumpModifier p k H0) as Hb.
  unfold vxAfter in Hb. apply Qabs_Qle_condition in Hb. simpl in Hb.
  apply Qabs_Qle_condition. simpl. split; lra.
Qed.

(** X3.  Friction is a decay, not a stop.  With neither arrow key down
    and a speed within the limit, every frame multiplies [vx] by
    [friction] (so [|vx|] never grows and the sign is kept), [facing] is
    left alone, and over the frames [vx] tends to 0. *)
Theorem coasting_decays (keys : gmap string bool) (jumpModifier eps : Q)
    (p : PlayerState.t) (k : nat)
    (Hl : pressed keys "ArrowLeft" = false)
    (Hr : pressed keys "ArrowRight" = false)
    (H0 : Qabs (PlayerState.vx p) <= GameConfig.maxSpeed CONFIG)
    (Heps : 0 < eps) :
  PlayerState.facing (playerPhysics keys jumpModifier p) = PlayerState.facing p
  /\ vxAfter keys jumpModifier p (S k)
     = vxAfter keys jumpModifier p k * GameConfig.friction CONFIG
  /\ Qabs (vxAfter keys jumpModifier p (S k)) <= Qabs (vxAfter keys jumpModifier p k)
  /\ exists N : nat, forall j : nat, (N <= j)%nat ->
       Qabs (vxAfter keys jumpModifier p j) < eps.
Proof.
  split; [rewrite playerPhysics_facing, Hl, Hr; reflexivity|].
  split; [apply vxAfter_idle_step; assumption|].
  split.
  - rewrite (vxAfter_idle_step keys jumpModifier p k Hl Hr H0).
    rewrite Qabs_Qmult. simpl GameConfig.friction. rewrite (Qabs_pos 0.85) by lra.
    pose proof (Qabs_nonneg (vxAfter keys jumpModifier p k)). lra.
  - apply (geometric_decay (fun j => Qabs (vxAfter keys jumpModifier p j)) eps).
    + intros n. apply Qabs_nonneg.
    + unfold vxAfter. simpl Nat.iter. simpl in H0. lra.
    + intros n. rewrite (vxAfter_idle_step keys jumpModifier p n Hl Hr H0).
      rewrite Qabs_Qmult. simpl GameConfig.friction.
      rewrite (Qabs_pos 0.85) by lra. lra.
    + exact Heps.
Qed.

Lemma coasting_decays_witness :
  vxAfter ∅ 1 slidingPlayer 2 == -4.335
  /\ exists N : nat, forall j : nat, (N <= j)%nat ->
       Qabs (vxAfter ∅ 1 slidingPlayer j) < 0.001.
Proof.
  assert (H0 : Qabs (PlayerState.vx slidingPlayer) <= GameConfig.maxSpeed CONFIG)
    by (vm_compute; discriminate).
  assert (Heps : 0 < 0.001) by reflexivity.
  assert (Hl : pressed ∅ "ArrowLeft" = false) by reflexivity.
  assert (Hr : pressed ∅ "ArrowRight" = false) by reflexivity.
  destruct (coasting_decays ∅ 1 0.001 slidingPlayer 1 Hl Hr H0 Heps)
    as (_ & Hstep & _ & Hlim).
  split; [rewrite Hstep; vm_compute; reflexivity | exact Hlim].
Defined.

(** X4.  [facing] after a frame is right when the right arrow is down
    (also when both arrows are), left when only the left arrow is down,
    and unchanged with no arrow.  With both arrows down the two
    accelerations cancel and [vx] is only damped by [friction]. *)
Theorem opposite_keys_cancel (keys : gmap string bool) (jumpModifier : Q)
    (p : PlayerState.t)
    (Hl : pressed keys "ArrowLeft" = true)
    (Hr : pressed keys "ArrowRight" = true)
    (H0 : Qabs (PlayerState.vx p) <= GameConfig.maxSpeed CONFIG) :
  (forall (anyKeys : gmap string bool) (q : PlayerState.t),
      PlayerState.facing (playerPhysics anyKeys jumpModifier q)
      = if pressed anyKeys "ArrowRight" then 1%Z
        else if pressed anyKeys "ArrowLeft" then (-1)%Z
        else PlayerState.facing q)
  /\ PlayerState.facing (playerPhysics keys jumpModifier p) = 1%Z
  /\ PlayerState.vx (playerPhysics keys jumpModifier p)
     == PlayerState.vx p * GameConfig.friction CONFIG.
Proof.
  split; [intros; apply playerPhysics_facing|].
  split; [rewrite playerPhysics_facing, Hr; reflexivity|].
  rewrite playerPhysics_vx. apply Qabs_Qle_condition in H0. simpl in H0.
  assert (Hm : PlayerState.vx (horizontalMovement keys p) == PlayerState.vx p)
    by (unfold horizontalMovement; rewrite Hl, Hr; simpl; lra).
  rewrite frictionAndLimits_free.
  - rewrite Hm. reflexivity.
  - apply Qabs_Qle_condition. rewrite Hm. simpl. split; lra.
Qed.

Lemma opposite_keys_cancel_witness :
  PlayerState.facing (playerPhysics bothHeld 1 slidingPlayer) = 1%Z
  /\ PlayerState.vx (playerPhysics bothHeld 1 slidingPlayer) == -5.1.
Proof.
  assert (H0 : Qabs (PlayerState.vx slidingPlayer) <= GameConfig.maxSpeed CONFIG)
    by (vm_compute; discriminate).
  assert (Hl : pressed bothHeld "ArrowLeft" = true) by reflexivity.
  assert (Hr : pressed bothHeld "ArrowRight" = true) by reflexivity.
  destruct (opposite_keys_cancel bothHeld 1 slidingPlayer Hl Hr H0)
    as (_ & Hf & Hv).
  split; [exact Hf | rewrite Hv; vm_compute; reflexivity].
Defined.

Lemma playerPhysics_integrates (keys : gmap string bool)
    (jumpModifier : Q) (p : PlayerState.t) :
  let r := playerPhysics keys jumpModifier p in
  PlayerState.x r = PlayerState.x p + PlayerState.vx r
  /\ PlayerState.y r = PlayerState.y p + PlayerState.vy r
  /\ PlayerState.width r = PlayerState.width p
  /\ PlayerState.height r = PlayerState.height p
  /\ PlayerState.frame r = PlayerState.frame p.
Proof.
  intros r. subst r. unfold playerPhysics, jumping.
  destruct (before_jump_fields keys p) as (Hx & Hy & _ & Hw & Hh & _ & Hf & _).
  set (q := applyGravity (frictionAndLimits (horizontalMovement keys p))) in *.
  clearbody q.
  destruct (pressed keys "Space" && PlayerState.isGrounded q); simpl;
    rewrite Hx, Hy, Hw, Hh, Hf; repeat split.
Qed.

(** X5.  Positions integrate the velocities of the same frame (after
    acceleration, friction, clamp, gravity and jump), so the horizontal
    move of a frame is at most [maxSpeed]. *)
Theorem integration_uses_new_velocity (keys : gmap string bool)
    (jumpModifier : Q) (p : PlayerState.t) :
  let r := playerPhysics keys jumpModifier p in
  PlayerState.x r = PlayerState.x p + PlayerState.vx r
  /\ PlayerState.y r = PlayerState.y p + PlayerState.vy r
  /\ Qabs (PlayerState.x r - PlayerState.x p) <= GameConfig.maxSpeed CONFIG
  /\ PlayerState.width r = PlayerState.width p
  /\ PlayerState.height r = PlayerState.height p
  /\ PlayerState.frame r = PlayerState.frame p.
Proof.
  intros r.
  destruct (playerPhysics_integrates keys jumpModifier p)
    as (Hx & Hy & Hw & Hh & Hf).
  fold r in Hx, Hy, Hw, Hh, Hf.
  repeat match goal with |- _ /\ _ => split end; try assumption.
  rewrite Hx.
  assert (E : PlayerState.x p + PlayerState.vx r - PlayerState.x p
              == PlayerState.vx r) by ring.
  rewrite E. subst r. rewrite playerPhysics_vx. apply frictionAndLimits_bound.
Qed.

(** ** Overlap depths and platform resolution *)

(** Half-extents minus centre distance, for two intervals [[c, c + a]]
    and [[d, d + b]]. *)
Lemma half_extents_min (a b c d : Q) :
  (a + b) / 2 - Qabs (c + a / 2 - (d + b / 2)) == Qmin (c + a - d) (d + b - c).
Proof.
  destruct (Q.min_spec (c + a - d) (d + b - c)) as [[H E] | [H E]]; rewrite E;
    apply (Qabs_case (c + a / 2 - (d + b / 2))); intros Hs; qlra.
Qed.

(** X6.  The depth on an axis is the smaller of the two distances by
    which the player would have to move along that axis to leave the
    entity: back to the entity's near side or on to its far side. *)
Theorem overlap_is_smaller_exit (p : PlayerState.t) (e : LevelEntity.t) :
  overlapX p e
  == Qmin (PlayerState.x p + PlayerState.width p - LevelEntity.x e)
          (LevelEntity.x e + LevelEntity.w e - PlayerState.x p)
  /\ overlapY p e
     == Qmin (PlayerState.y p + PlayerState.height p - LevelEntity.y e)
             (LevelEntity.y e + LevelEntity.h e - PlayerState.y p).
Proof.
  unfold overlapX, overlapY. split.
  - apply (half_extents_min (PlayerState.width p) (LevelEntity.w e)
             (PlayerState.x p) (LevelEntity.x e)).
  - apply (half_extents_min (PlayerState.height p) (LevelEntity.h e)
             (PlayerState.y p) (LevelEntity.y e)).
Qed.

Lemma overlapsEntity_false (p : PlayerState.t) (e : LevelEntity.t) :
  overlapsEntity p e = false <->
  LevelEntity.x e + LevelEntity.w e <= PlayerState.x p
  \/ PlayerState.x p + PlayerState.width p <= LevelEntity.x e
  \/ LevelEntity.y e + LevelEntity.h e <= PlayerState.y p
  \/ PlayerState.y p + PlayerState.height p <= LevelEntity.y e.
Proof.
  unfold overlapsEntity.
  rewrite !andb_false_iff, !Qltb_false, !Qgtb_false. tauto.
Qed.

(** X7.  Touching is not overlapping, and a platform resolved towards
    its right or its bottom edge is left clear: the player is put at
    [x + w], resp. [y + h], the very sum that the overlap test compares
    the player's position with. *)
Theorem resolved_platform_is_clear (p : PlayerState.t) (e : LevelEntity.t) :
  (overlapX p e < overlapY p e -> PlayerState.vx p <= 0 ->
   overlapsEntity (resolvePlatform p e) e = false)
  /\ (overlapY p e <= overlapX p e -> PlayerState.vy p <= 0 ->
      overlapsEntity (resolvePlatform p e) e = false)
  /\ (PlayerState.x p + PlayerState.width p == LevelEntity.x e ->
      overlapsEntity p e = false)
  /\ (PlayerState.x p == LevelEntity.x e + LevelEntity.w e ->
      overlapsEntity p e = false)
  /\ (PlayerState.y p + PlayerState.height p == LevelEntity.y e ->
      overlapsEntity p e = false)
  /\ (PlayerState.y p == LevelEntity.y e + LevelEntity.h e ->
      overlapsEntity p e = false).
Proof.
  split; [|split].
  - intros Hax Hvx. apply overlapsEntity_false. left.
    unfold resolvePlatform.
    apply Qltb_true in Hax. apply Qgtb_false in Hvx. rewrite Hax, Hvx.
    simpl. apply Qle_refl.
  - intros Hax Hvy. apply overlapsEntity_false. right. right. left.
    unfold resolvePlatform.
    apply Qltb_false in Hax. apply Qgtb_false in Hvy. rewrite Hax, Hvy.
    simpl. apply Qle_refl.
  - repeat split; intros H; apply overlapsEntity_false; lra.
Qed.

Lemma resolved_platform_is_clear_witness :
  overlapsEntity flankPlayer tallBlock = true
  /\ overlapsEntity (resolvePlatform flankPlayer tallBlock) tallBlock = false
  /\ overlapsEntity (PlayerState.mk 70 25 0 26 30 50 false 1 0) tallBlock = false.
Proof.
  destruct (resolved_platform_is_clear flankPlayer tallBlock) as (Hclear & _).
  destruct (resolved_platform_is_clear
              (PlayerState.mk 70 25 0 26 30 50 false 1 0) tallBlock)
    as (_ & _ & Htouch & _).
  split; [reflexivity|]. split.
  - apply Hclear; vm_compute; [reflexivity | discriminate].
  - apply Htouch. vm_compute. reflexivity.
Defined.

(** ** The entity scan, continued *)

(** X8.  The scan acts on platforms, hazards and goals only: monster
    descriptors are skipped by the loop and start markers match no branch,
    so removing both kinds from the level changes nothing. *)
Theorem scan_ignores_markers (LEVEL_1 : list LevelEntity.t) (p : PlayerState.t) :
  entityCollision LEVEL_1 p
  = entityCollision
      (List.filter (fun e => negb (isType EntityType.monster e)
                             && negb (isType EntityType.start e)) LEVEL_1) p.
Proof.
  revert p. unfold isType.
  induction LEVEL_1 as [|e l IH]; intros p; [reflexivity|].
  simpl. unfold isType.
  destruct (LevelEntity.type e) eqn:Et; simpl; unfold isType; rewrite ?Et; simpl;
    try (destruct (overlapsEntity p e)); auto.
Qed.

Lemma entityCollision_no_overlap (LEVEL_1 : list LevelEntity.t)
    (p : PlayerState.t) :
  Forall (fun e => overlapsEntity p e = false) LEVEL_1 ->
  entityCollision LEVEL_1 p = (p, None).
Proof.
  induction 1 as [|e l He _ IH]; simpl; [reflexivity|].
  rewrite He. destruct (isType EntityType.monster e); exact IH.
Qed.

Lemma entityCollision_request_origin (LEVEL_1 : list LevelEntity.t)
    (p q : PlayerState.t) (status : GameStatus.t) :
  entityCollision LEVEL_1 p = (q, Some status) ->
  exists (pre post : list LevelEntity.t) (e : LevelEntity.t),
    LEVEL_1 = pre ++ e :: post
    /\ entityCollision pre p = (q, None)
    /\ overlapsEntity q e = true
    /\ ((LevelEntity.type e = EntityType.goal /\ status = GameStatus.won)
        \/ (LevelEntity.type e = EntityType.hazard /\ status = GameStatus.lost)).
Proof.
  revert p. induction LEVEL_1 as [|e l IH]; intros p; simpl; [discriminate|].
  assert (Hskip : entityCollision l p = (q, Some status) ->
                  entityCollision [e] p = (p, None) ->
                  exists pre post e',
                    e :: l = pre ++ e' :: post
                    /\ entityCollision pre p = (q, None)
                    /\ overlapsEntity q e' = true
                    /\ ((LevelEntity.type e' = EntityType.goal
                         /\ status = GameStatus.won)
                        \/ (LevelEntity.type e' = EntityType.hazard
                            /\ status = GameStatus.lost))).
  { intros Hl He. destruct (IH p Hl) as (pre & post & e' & -> & Hpre & H).
    exists (e :: pre), post, e'. split; [reflexivity|]. split; [|exact H].
    change (e :: pre) with ([e] ++ pre).
    rewrite (entityCollision_app _ _ _ _ He). exact Hpre. }
  destruct (isType EntityType.monster e) eqn:Em;
    [intros H; apply (Hskip H); simpl; rewrite Em; reflexivity|].
  destruct (overlapsEntity p e) eqn:Eo;
    [|intros H; apply (Hskip H); simpl; rewrite Em, Eo; reflexivity].
  destruct (LevelEntity.type e) eqn:Et;
    try (intros H; apply (Hskip H); simpl; rewrite Em, Eo, Et; reflexivity).
  + intros H. destruct (IH _ H) as (pre & post & e' & -> & Hpre & H').
    exists (e :: pre), post, e'. split; [reflexivity|]. split; [|exact H'].
    change (e :: pre) with ([e] ++ pre).
    rewrite (entityCollision_app [e] pre p (resolvePlatform p e)); [exact Hpre|].
    simpl. rewrite Em, Eo, Et. reflexivity.
  + intros [= <- <-]. exists [], l, e. repeat split; auto.
  + intros [= <- <-]. exists [], l, e. repeat split; auto.
Qed.

(** X9.  The first terminal entity in array order decides.  The scan
    returns a request exactly when it reaches, with the player [q] that
    the earlier platforms left, a goal or a hazard that [q] overlaps: a
    goal gives [won], a hazard gives [lost], the player stays [q] and
    nothing after that entity is looked at. *)
Theorem scan_request_origin (LEVEL_1 : list LevelEntity.t)
    (p q : PlayerState.t) (status : GameStatus.t) :
  entityCollision LEVEL_1 p = (q, Some status) <->
  exists (pre post : list LevelEntity.t) (e : LevelEntity.t),
    LEVEL_1 = pre ++ e :: post
    /\ entityCollision pre p = (q, None)
    /\ overlapsEntity q e = true
    /\ ((LevelEntity.type e = EntityType.goal /\ status = GameStatus.won)
        \/ (LevelEntity.type e = EntityType.hazard /\ status = GameStatus.lost)).
Proof.
  split; [apply entityCollision_request_origin|].
  intros (pre & post & e & -> & Hpre & Ho & Hty).
  rewrite (entityCollision_app _ _ _ _ Hpre). simpl. unfold isType.
  destruct Hty as [[-> ->] | [-> ->]]; simpl; rewrite Ho; reflexivity.
Qed.

Lemma scan_request_origin_witness :
  entityCollision goalThenHazard inGoalPlayer = (inGoalPlayer, Some GameStatus.won).
Proof.
  apply (scan_request_origin goalThenHazard inGoalPlayer inGoalPlayer GameStatus.won).
  exists [], [entity "spikes" EntityType.hazard 40 300 50 100],
    (entity "goal" EntityType.goal 40 300 50 100).
  repeat split. left. split; reflexivity.
Defined.

(** ** One frame as a whole *)

Lemma update_playing_eq (jumpModifier : Q) (canvas : option Canvas.t)
    (LEVEL_1 : list LevelEntity.t) (s : Session) :
  update GameStatus.playing jumpModifier canvas LEVEL_1 s
  = let monsters' := List.map monsterLogic (monsters s) in
    let p := playerBeforeScan jumpModifier s in
    if Qgtb (PlayerState.y p) 800 then
      (mkSession p (camera s) monsters' (keys s) (frameCount s + 1),
       Some GameStatus.lost)
    else
      match entityCollision LEVEL_1 p with
      | (q, Some status) =>
          (mkSession q (camera s) monsters' (keys s) (frameCount s + 1), Some status)
      | (q, None) =>
          if monsterCollision monsters' q then
            (mkSession q (camera s) monsters' (keys s) (frameCount s + 1),
             Some GameStatus.lost)
          else
            (mkSession q
               match canvas with
               | Some c => cameraUpdate c q (camera s)
               | None => camera s
               end monsters' (keys s) (frameCount s + 1), None)
      end.
Proof. reflexivity. Qed.

Lemma update_idle (gameState : GameStatus.t) (jumpModifier : Q)
    (canvas : option Canvas.t) (LEVEL_1 : list LevelEntity.t) (s : Session) :
  gameState <> GameStatus.playing ->
  update gameState jumpModifier canvas LEVEL_1 s = (s, None).
Proof. intros H. destruct gameState; try reflexivity. contradiction. Qed.

Lemma sameBody_trans (p q r : PlayerState.t) :
  sameBody p q -> sameBody q r -> sameBody p r.
Proof.
  unfold sameBody. intros (Hw & Hh & Hf) (Hw' & Hh' & Hf').
  repeat split; congruence.
Qed.

Lemma resolvePlatform_sameBody (p : PlayerState.t) (e : LevelEntity.t) :
  sameBody p (resolvePlatform p e).
Proof.
  unfold resolvePlatform, sameBody.
  destruct (Qltb (overlapX p e) (overlapY p e));
    [destruct (Qgtb (PlayerState.vx p) 0) | destruct (Qgtb (PlayerState.vy p) 0)];
    repeat split.
Qed.

Lemma entityCollision_sameBody (LEVEL_1 : list LevelEntity.t) (p : PlayerState.t) :
  sameBody p (fst (entityCollision LEVEL_1 p)).
Proof.
  revert p. induction LEVEL_1 as [|e l IH]; intros p; simpl; [repeat split|].
  destruct (isType EntityType.monster e); [apply IH|].
  destruct (overlapsEntity p e); [|apply IH].
  destruct (LevelEntity.type e); try apply IH;
    [ exact (sameBody_trans _ _ _ (resolvePlatform_sameBody p e)
               (IH (resolvePlatform p e)))
    | repeat split | repeat split ].
Qed.

Lemma playerBeforeScan_sameBody (jumpModifier : Q) (s : Session) :
  sameBody (player s) (playerBeforeScan jumpModifier s).
Proof.
  unfold playerBeforeScan, sameBody.
  destruct (playerPhysics_integrates (keys s) jumpModifier (player s))
    as (_ & _ & Hw & Hh & Hf).
  set (r := playerPhysics (keys s) jumpModifier (player s)) in *. clearbody r.
  unfold worldBoundaries. repeat (simpl; try qcase); auto.
Qed.

Lemma update_player (jumpModifier : Q) (canvas : option Canvas.t)
    (LEVEL_1 : list LevelEntity.t) (s : Session) :
  let p := playerBeforeScan jumpModifier s in
  player (fst (update GameStatus.playing jumpModifier canvas LEVEL_1 s))
  = if Qgtb (PlayerState.y p) 800 then p else fst (entityCollision LEVEL_1 p).
Proof.
  rewrite update_playing_eq. cbv zeta.
  destruct (Qgtb _ 800); [reflexivity|].
  destruct (entityCollision LEVEL_1 _) as [q [st|]]; [reflexivity|].
  destruct (monsterCollision _ q); reflexivity.
Qed.

(** X10.  What a frame never touches.  In every status [update] leaves
    the key map and the player's [width], [height] and [frame] as they
    were and keeps the number of monsters.  While playing it counts
    exactly one frame; in any other status it returns the session
    unchanged and makes no request. *)
Theorem update_bookkeeping (gameState : GameStatus.t) (jumpModifier : Q)
    (canvas : option Canvas.t) (LEVEL_1 : list LevelEntity.t) (s : Session) :
  let r := update gameState jumpModifier canvas LEVEL_1 s in
  keys (fst r) = keys s
  /\ PlayerState.width (player (fst r)) = PlayerState.width (player s)
  /\ PlayerState.height (player (fst r)) = PlayerState.height (player s)
  /\ PlayerState.frame (player (fst r)) = PlayerState.frame (player s)
  /\ length (monsters (fst r)) = length (monsters s)
  /\ (gameState = GameStatus.playing -> frameCount (fst r) = (frameCount s + 1)%Z)
  /\ (gameState <> GameStatus.playing -> r = (s, None)).
Proof.
  intros r.
  assert (Hidle : gameState <> GameStatus.playing -> r = (s, None))
    by apply update_idle.
  destruct (GameStatus.eqb gameState GameStatus.playing) eqn:E.
  - assert (gameState = GameStatus.playing) as -> by (destruct gameState; easy).
    assert (Hbody : sameBody (player s) (player (fst r))).
    { subst r. rewrite update_player. cbv zeta.
      pose proof (playerBeforeScan_sameBody jumpModifier s) as Hb.
      destruct (Qgtb _ 800); [exact Hb|].
      exact (sameBody_trans _ _ _ Hb
               (entityCollision_sameBody LEVEL_1 (playerBeforeScan jumpModifier s))). }
    destruct Hbody as (Hw & Hh & Hf).
    assert (Hm : monsters (fst r) = List.map monsterLogic (monsters s))
      by apply update_monsters.
    assert (Hk : keys (fst r) = keys s /\ frameCount (fst r) = (frameCount s + 1)%Z).
    { subst r. rewrite update_playing_eq. cbv zeta.
      destruct (Qgtb _ 800); [split; reflexivity|].
      destruct (entityCollision LEVEL_1 _) as [q [st|]]; [split; reflexivity|].
      destruct (monsterCollision _ q); split; reflexivity. }
    destruct Hk as [Hk Hc].
    repeat match goal with |- _ /\ _ => split end; try assumption.
    + rewrite Hm. apply length_map.
    + intros _. exact Hc.
  - assert (Hne : gameState <> GameStatus.playing)
      by (intros ->; discriminate E).
    rewrite (Hidle Hne). simpl.
    repeat match goal with |- _ /\ _ => split end; try reflexivity.
    intros H. contradiction.
Qed.

Lemma update_bookkeeping_witness :
  frameCount (fst (update GameStatus.playing 1 None demoLevel lostSession)) = 42%Z
  /\ update GameStatus.lost 1 None demoLevel lostSession = (lostSession, None).
Proof.
  destruct (update_bookkeeping GameStatus.playing 1 None demoLevel lostSession)
    as (_ & _ & _ & _ & _ & Hc & _).
  destruct (update_bookkeeping GameStatus.lost 1 None demoLevel lostSession)
    as (_ & _ & _ & _ & _ & _ & Hidle).
  split; [rewrite (Hc eq_refl); reflexivity | apply Hidle; discriminate].
Defined.

(** X11.  Monsters only ever move along [x]: a frame keeps the list in
    order and leaves every monster's [id], [y], [w], [h], [patrolStart],
    [patrolEnd] and [speed] as they were. *)
Theorem monsters_keep_shape (jumpModifier : Q) (canvas : option Canvas.t)
    (LEVEL_1 : list LevelEntity.t) (s : Session) :
  Forall2
    (fun m m' =>
       MonsterState.id m' = MonsterState.id m
       /\ MonsterState.y m' = MonsterState.y m
       /\ MonsterState.w m' = MonsterState.w m
       /\ MonsterState.h m' = MonsterState.h m
       /\ MonsterState.patrolStart m' = MonsterState.patrolStart m
       /\ MonsterState.patrolEnd m' = MonsterState.patrolEnd m
       /\ MonsterState.speed m' = MonsterState.speed m)
    (monsters s)
    (monsters (fst (update GameStatus.playing jumpModifier canvas LEVEL_1 s))).
Proof.
  rewrite update_monsters.
  induction (monsters s) as [|m l IH]; simpl; constructor; [|exact IH].
  unfold monsterLogic. repeat qcase; simpl; repeat split.
Qed.

(** X12.  A monster whose bounds are not in order ([patrolEnd <=
    patrolStart]) never walks: every frame puts it on one of its two
    bounds, on [patrolStart] when the move ends at or left of it and on
    [patrolEnd] otherwise. *)
Theorem crossed_bounds_pin (m : MonsterState.t)
    (Hcross : MonsterState.patrolEnd m <= MonsterState.patrolStart m) :
  let moved := MonsterState.x m + MonsterState.vx m in
  (moved <= MonsterState.patrolStart m ->
   MonsterState.x (monsterLogic m) = MonsterState.patrolStart m
   /\ MonsterState.vx (monsterLogic m) = Qabs (MonsterState.speed m))
  /\ (MonsterState.patrolStart m < moved ->
      MonsterState.x (monsterLogic m) = MonsterState.patrolEnd m
      /\ MonsterState.vx (monsterLogic m) = - Qabs (MonsterState.speed m))
  /\ (MonsterState.x (monsterLogic m) = MonsterState.patrolStart m
      \/ MonsterState.x (monsterLogic m) = MonsterState.patrolEnd m).
Proof.
  intros moved. subst moved. unfold monsterLogic.
  repeat qcase; simpl; qprop;
    (split; [|split]); try (intros; split; reflexivity); try (intros; lra); auto.
Qed.

Lemma crossed_bounds_pin_witness :
  MonsterState.x (monsterLogic crossedMonster) = 300
  /\ MonsterState.x (monsterLogic (monsterLogic crossedMonster)) = 400.
Proof.
  assert (H1 : MonsterState.patrolEnd crossedMonster
               <= MonsterState.patrolStart crossedMonster)
    by (vm_compute; discriminate).
  destruct (crossed_bounds_pin crossedMonster H1) as (_ & Hend & _).
  destruct (crossed_bounds_pin (monsterLogic crossedMonster) H1) as (Hstart & _).
  split.
  - apply Hend. vm_compute. reflexivity.
  - apply Hstart. vm_compute. discriminate.
Defined.

Lemma monsterCollision_true (ms : list MonsterState.t) (q : PlayerState.t) :
  monsterCollision ms q = true <->
  exists m, In m ms /\ overlapsMonster q m = true.
Proof. unfold monsterCollision. apply existsb_exists. Qed.

Lemma update_request (jumpModifier : Q) (canvas : option Canvas.t)
    (LEVEL_1 : list LevelEntity.t) (s : Session) :
  let p := playerBeforeScan jumpModifier s in
  snd (update GameStatus.playing jumpModifier canvas LEVEL_1 s)
  = if Qgtb (PlayerState.y p) 800 then Some GameStatus.lost
    else match entityCollision LEVEL_1 p with
         | (q, Some status) => Some status
         | (q, None) =>
             if monsterCollision (List.map monsterLogic (monsters s)) q
             then Some GameStatus.lost else None
         end.
Proof.
  rewrite update_playing_eq. cbv zeta.
  destruct (Qgtb _ 800); [reflexivity|].
  destruct (entityCollision LEVEL_1 _) as [q [st|]]; [reflexivity|].
  destruct (monsterCollision _ q); reflexivity.
Qed.

(** X13.  Free flight.  When the player the scan receives is above the
    void line, overlaps no level entity and no monster (as moved this
    frame), the frame is pure physics: the session keeps exactly that
    player, makes no request, and the camera follows when a canvas is
    mounted. *)
Theorem free_flight (jumpModifier : Q) (canvas : option Canvas.t)
    (LEVEL_1 : list LevelEntity.t) (s : Session)
    (Hy : PlayerState.y (playerBeforeScan jumpModifier s) <= 800)
    (Hent : Forall (fun e => overlapsEntity (playerBeforeScan jumpModifier s) e
                             = false) LEVEL_1)
    (Hmon : Forall (fun m => overlapsMonster (playerBeforeScan jumpModifier s)
                               (monsterLogic m) = false) (monsters s)) :
  update GameStatus.playing jumpModifier canvas LEVEL_1 s
  = (mkSession (playerBeforeScan jumpModifier s)
       match canvas with
       | Some c => cameraUpdate c (playerBeforeScan jumpModifier s) (camera s)
       | None => camera s
       end
       (List.map monsterLogic (monsters s)) (keys s) (frameCount s + 1),
     None).
Proof.
  rewrite update_playing_eq. cbv zeta.
  apply Qgtb_false in Hy. rewrite Hy.
  rewrite (entityCollision_no_overlap _ _ Hent).
  assert (Hm : monsterCollision (List.map monsterLogic (monsters s))
                 (playerBeforeScan jumpModifier s) = false).
  { unfold monsterCollision. induction Hmon as [|m l Hm _ IH]; simpl;
      [reflexivity | rewrite Hm; exact IH]. }
  rewrite Hm. reflexivity.
Qed.

Lemma free_flight_witness :
  snd (update GameStatus.playing 1 None [tallBlock] fallingSession) = None
  /\ PlayerState.isGrounded
       (player (fst (update GameStatus.playing 1 None [tallBlock] fallingSession)))
     = false.
Proof.
  assert (Hy : PlayerState.y (playerBeforeScan 1 fallingSession) <= 800)
    by (vm_compute; discriminate).
  assert (Hent : Forall (fun e => overlapsEntity (playerBeforeScan 1 fallingSession) e
                                  = false) [tallBlock])
    by (repeat constructor).
  assert (Hmon : Forall (fun m => overlapsMonster (playerBeforeScan 1 fallingSession)
                                    (monsterLogic m) = false) (monsters fallingSession))
    by constructor.
  rewrite (free_flight 1 None [tallBlock] fallingSession Hy Hent Hmon).
  split; [reflexivity | apply playerBeforeScan_not_grounded].
Defined.

(** X14.  [update] only ever requests [won] or [lost], never [start] or
    [playing], and nothing at all outside [playing].  A [won] request
    means the player, above the void line, is left overlapping a goal of
    the level.  A frame that makes a request does not move the camera. *)
Theorem update_requests (gameState : GameStatus.t) (jumpModifier : Q)
    (canvas : option Canvas.t) (LEVEL_1 : list LevelEntity.t) (s : Session) :
  let r := update gameState jumpModifier canvas LEVEL_1 s in
  (snd r = None \/ snd r = Some GameStatus.won \/ snd r = Some GameStatus.lost)
  /\ (snd r <> None -> gameState = GameStatus.playing /\ camera (fst r) = camera s)
  /\ (snd r = Some GameStatus.won ->
      PlayerState.y (playerBeforeScan jumpModifier s) <= 800
      /\ exists g, In g LEVEL_1
                   /\ LevelEntity.type g = EntityType.goal
                   /\ overlapsEntity (player (fst r)) g = true).
Proof.
  intros r.
  destruct (GameStatus.eqb gameState GameStatus.playing) eqn:E.
  - assert (gameState = GameStatus.playing) as -> by (destruct gameState; easy).
    subst r. rewrite update_playing_eq. cbv zeta.
    destruct (Qgtb _ 800) eqn:Ev; simpl.
    { split; [auto|]. split; [intros _; split; reflexivity | discriminate]. }
    destruct (entityCollision LEVEL_1 _) as [q [st|]] eqn:Es; simpl.
    + apply entityCollision_request_origin in Es.
      destruct Es as (pre & post & e & -> & _ & Ho & [[Ht ->] | [Ht ->]]).
      * split; [auto|]. split; [intros _; split; reflexivity|].
        intros _. split; [apply Qgtb_false, Ev|].
        exists e. split; [apply in_elt | split; assumption].
      * split; [auto|]. split; [intros _; split; reflexivity | discriminate].
    + destruct (monsterCollision _ q); simpl.
      * split; [auto|]. split; [intros _; split; reflexivity | discriminate].
      * split; [auto|]. split; [intros Hn; contradiction | discriminate].
  - assert (Hne : gameState <> GameStatus.playing)
      by (intros ->; discriminate E).
    subst r. rewrite (update_idle _ _ _ _ _ Hne). simpl.
    split; [auto|]. split; [intros Hn; contradiction | discriminate].
Qed.

Lemma update_requests_witness :
  snd (update GameStatus.playing 1 None goalThenHazard
         (mkSession (PlayerState.mk 50 319.4 0 0 30 50 false 1 0)
            (Camera.mk 0 0) [] ∅ 0))
  = Some GameStatus.won
  /\ exists g, In g goalThenHazard /\ LevelEntity.type g = EntityType.goal.
Proof.
  set (s := mkSession (PlayerState.mk 50 319.4 0 0 30 50 false 1 0)
              (Camera.mk 0 0) [] ∅ 0).
  assert (Hw : snd (update GameStatus.playing 1 None goalThenHazard s)
               = Some GameStatus.won) by (vm_compute; reflexivity).
  destruct (update_requests GameStatus.playing 1 None goalThenHazard s)
    as (_ & _ & Hgoal).
  destruct (Hgoal Hw) as (_ & g & Hin & Hty & _).
  split; [exact Hw | exists g; split; assumption].
Defined.

(** X15.  Order of the fatal checks in a playing frame.  Below the void
    line the frame requests [lost] whatever the player touches, a goal
    included.  Otherwise a request of the entity scan is passed on as it
    is.  Otherwise the frame requests [lost] exactly when the player, as
    the scan left it, overlaps some monster at the position that monster
    has moved to in this frame. *)
Theorem outcome_priority (jumpModifier : Q) (canvas : option Canvas.t)
    (LEVEL_1 : list LevelEntity.t) (s : Session) :
  let p := playerBeforeScan jumpModifier s in
  let scan := entityCollision LEVEL_1 p in
  let r := update GameStatus.playing jumpModifier canvas LEVEL_1 s in
  (800 < PlayerState.y p -> snd r = Some GameStatus.lost)
  /\ (PlayerState.y p <= 800 ->
      forall status, snd scan = Some status -> snd r = Some status)
  /\ (PlayerState.y p <= 800 -> snd scan = None ->
      (snd r = Some GameStatus.lost <->
       exists m, In m (monsters s)
                 /\ overlapsMonster (fst scan) (monsterLogic m) = true)
      /\ (snd r = None <->
          forall m, In m (monsters s) ->
                    overlapsMonster (fst scan) (monsterLogic m) = false)).
Proof.
  intros p scan r. subst r. rewrite update_request. cbv zeta. fold p. fold scan.
  split; [intros H; apply Qgtb_true in H; rewrite H; reflexivity|].
  split.
  - intros H st Hs. apply Qgtb_false in H. rewrite H.
    destruct scan as [q o]. simpl in Hs. subst o. reflexivity.
  - intros H Hs. apply Qgtb_false in H. rewrite H.
    destruct scan as [q o]. simpl in Hs. subst o. simpl.
    destruct (monsterCollision (List.map monsterLogic (monsters s)) q) eqn:Em.
    + apply monsterCollision_true in Em. destruct Em as (m' & Hin & Ho).
      apply in_map_iff in Hin. destruct Hin as (m & <- & Hin).
      split; split; auto.
      * intros _. exists m. split; assumption.
      * discriminate.
      * intros Hall. rewrite (Hall m Hin) in Ho. discriminate.
    + split; split; auto; try discriminate.
      * intros (m & Hin & Ho).
        assert (Ht : monsterCollision (List.map monsterLogic (monsters s)) q = true).
        { apply monsterCollision_true. exists (monsterLogic m).
          split; [apply in_map; exact Hin | exact Ho]. }
        rewrite Ht in Em. discriminate.
      * intros _ m Hin.
        destruct (overlapsMonster q (monsterLogic m)) eqn:Ho; [|reflexivity].
        assert (Ht : monsterCollision (List.map monsterLogic (monsters s)) q = true).
        { apply monsterCollision_true. exists (monsterLogic m).
          split; [apply in_map; exact Hin | exact Ho]. }
        rewrite Ht in Em. discriminate.
Qed.

Lemma outcome_priority_witness :
  snd (update GameStatus.playing 1 None demoLevel ambushSession)
  = Some GameStatus.lost
  /\ Forall (fun m => overlapsMonster (player ambushSession) m = false)
       (monsters ambushSession).
Proof.
  destruct (outcome_priority 1 None demoLevel ambushSession) as (_ & _ & Hmon).
  assert (Hy : PlayerState.y (playerBeforeScan 1 ambushSession) <= 800)
    by (vm_compute; discriminate).
  assert (Hs : snd (entityCollision demoLevel (playerBeforeScan 1 ambushSession))
               = None) by (vm_compute; reflexivity).
  destruct (Hmon Hy Hs) as [[_ Hlost] _].
  split.
  - apply Hlost.
    exists (MonsterState.mk "m-walker" 362 510 40 40 (-3) 200 400 3).
    split; [left; reflexivity | vm_compute; reflexivity].
  - repeat constructor.
Defined.

(** ** Camera, continued *)

(** Split on a test of the goal whose condition has no test inside. *)
Ltac qcase_inner :=
  match goal with
  | |- context [if ?b then _ else _] =>
      lazymatch b with
      | context [if _ then _ else _] => fail
      | _ => let E := fresh "E" in destruct b eqn:E
      end
  end.

(** X16.  The three vertical regimes of the camera target, for a canvas
    of height [h >= 0].  Ground-locked: for [600 - 0.6 h <= y <= 700] the
    target is the fixed [650 - h].  Climbing: for [y < 600 - 0.6 h] it is
    [y - 0.4 h].  Falling: for [y > 700] it is [y - 0.8 h], capped at
    [800 - h]. *)
Theorem camera_vertical_regimes (c : Canvas.t) (p : PlayerState.t)
    (Hh : 0 <= Canvas.height c) :
  (600 - Canvas.height c * 0.6 <= PlayerState.y p <= 700 ->
   cameraTargetY c p == 650 - Canvas.height c)
  /\ (PlayerState.y p < 600 - Canvas.height c * 0.6 ->
      cameraTargetY c p == PlayerState.y p - Canvas.height c * 0.4)
  /\ (700 < PlayerState.y p ->
      cameraTargetY c p
      == Qmin (PlayerState.y p - Canvas.height c * 0.8) (800 - Canvas.height c)).
Proof.
  unfold cameraTargetY. cbv zeta. split; [|split]; intros H.
  - repeat (qcase_inner; qprop); lra.
  - repeat (qcase_inner; qprop); lra.
  - destruct (Q.min_spec (PlayerState.y p - Canvas.height c * 0.8)
                (800 - Canvas.height c)) as [[Hm E] | [Hm E]]; rewrite E;
      repeat (qcase_inner; qprop); lra.
Qed.

Lemma camera_vertical_regimes_witness :
  cameraTargetY viewport standingPlayer == 50
  /\ cameraTargetY viewport flankPlayer == -215
  /\ cameraTargetY viewport (PlayerState.mk 50 790 0 12 30 50 false 1 0) == 200.
Proof.
  assert (Hh : 0 <= Canvas.height viewport) by (vm_compute; discriminate).
  destruct (camera_vertical_regimes viewport standingPlayer Hh) as (Hg & _ & _).
  destruct (camera_vertical_regimes viewport flankPlayer Hh) as (_ & Hc & _).
  destruct (camera_vertical_regimes viewport
              (PlayerState.mk 50 790 0 12 30 50 false 1 0) Hh) as (_ & _ & Hf).
  split; [|split].
  - rewrite Hg; [reflexivity | split; vm_compute; discriminate].
  - rewrite Hc; [reflexivity | vm_compute; reflexivity].
  - rewrite Hf; [reflexivity | vm_compute; reflexivity].
Defined.

(** X17.  The camera closes a fixed share of its distance to the target
    each update, 10% horizontally and 5% vertically, so it moves toward
    the target, never past it, and rests once it is on it. *)
Theorem camera_never_overshoots (c : Canvas.t) (p : PlayerState.t)
    (cam : Camera.t) :
  let cam' := cameraUpdate c p cam in
  let tx := cameraTargetX c p in
  let ty := cameraTargetY c p in
  tx - Camera.x cam' == 0.9 * (tx - Camera.x cam)
  /\ ty - Camera.y cam' == 0.95 * (ty - Camera.y cam)
  /\ (Camera.x cam <= tx -> Camera.x cam <= Camera.x cam' <= tx)
  /\ (tx <= Camera.x cam -> tx <= Camera.x cam' <= Camera.x cam)
  /\ (Camera.y cam <= ty -> Camera.y cam <= Camera.y cam' <= ty)
  /\ (ty <= Camera.y cam -> ty <= Camera.y cam' <= Camera.y cam)
  /\ (Camera.x cam == tx -> Camera.x cam' == Camera.x cam)
  /\ (Camera.y cam == ty -> Camera.y cam' == Camera.y cam).
Proof.
  intros cam' tx ty. subst cam'. unfold cameraUpdate. fold tx. fold ty. simpl.
  repeat match goal with |- _ /\ _ => split end; try (intros H; split); intros; lra.
Qed.

Lemma camera_never_overshoots_witness :
  let cam' := cameraUpdate viewport standingPlayer (Camera.mk 150 40) in
  0 <= Camera.x cam' <= 150 /\ 40 <= Camera.y cam' <= 50.
Proof.
  destruct (camera_never_overshoots viewport standingPlayer (Camera.mk 150 40))
    as (_ & _ & _ & Hx & Hy & _).
  assert (Htx : cameraTargetX viewport standingPlayer == 0) by (vm_compute; reflexivity).
  assert (Hty : cameraTargetY viewport standingPlayer == 50) by (vm_compute; reflexivity).
  destruct (Hx ltac:(vm_compute; discriminate)) as [H1 H2].
  destruct (Hy ltac:(vm_compute; discriminate)) as [H3 H4].
  rewrite Htx in H1. rewrite Hty in H4.
  exact (conj (conj H1 H2) (conj H3 H4)).
Defined.

Lemma update_camera (gameState : GameStatus.t) (jumpModifier : Q)
    (canvas : option Canvas.t) (LEVEL_1 : list LevelEntity.t) (s : Session) :
  camera (fst (update gameState jumpModifier canvas LEVEL_1 s)) = camera s
  \/ exists c q, canvas = Some c
       /\ camera (fst (update gameState jumpModifier canvas LEVEL_1 s))
          = cameraUpdate c q (camera s).
Proof.
  destruct (GameStatus.eqb gameState GameStatus.playing) eqn:E.
  - assert (gameState = GameStatus.playing) as -> by (destruct gameState; easy).
    rewrite update_playing_eq. cbv zeta.
    destruct (Qgtb _ 800); [left; reflexivity|].
    destruct (entityCollision LEVEL_1 _) as [q [st|]]; [left; reflexivity|].
    destruct (monsterCollision _ q); [left; reflexivity|].
    destruct canvas as [c|]; [right; exists c, q; split; reflexivity | left; reflexivity].
  - left. rewrite update_idle; [reflexivity | intros ->; discriminate E].
Qed.

(** X18.  The camera stays inside the level.  For a canvas no wider than
    the level, a camera with [0 <= x <= levelWidth - width] and
    [y <= 800 - height] still satisfies both after any call of [update],
    in any status. *)
Theorem camera_stays_in_level (gameState : GameStatus.t) (jumpModifier : Q)
    (c : Canvas.t) (LEVEL_1 : list LevelEntity.t) (s : Session)
    (Hw : Canvas.width c <= GameConfig.levelWidth CONFIG)
    (Hx : 0 <= Camera.x (camera s)
          <= GameConfig.levelWidth CONFIG - Canvas.width c)
    (Hy : Camera.y (camera s) <= 800 - Canvas.height c) :
  let s' := fst (update gameState jumpModifier (Some c) LEVEL_1 s) in
  0 <= Camera.x (camera s') <= GameConfig.levelWidth CONFIG - Canvas.width c
  /\ Camera.y (camera s') <= 800 - Canvas.height c.
Proof.
  intros s'. subst s'.
  destruct (update_camera gameState jumpModifier (Some c) LEVEL_1 s)
    as [-> | (c' & q & [= <-] & ->)]; [split; assumption|].
  pose proof (cameraTargetX_clamp c q) as HX. simpl in HX.
  pose proof (cameraTargetY_floor c q) as HY.
  assert (Hlo : 0 <= cameraTargetX c q).
  { rewrite HX. apply Q.min_glb; [apply Q.le_max_r | simpl in Hw; lra]. }
  assert (Hhi : cameraTargetX c q <= 7000 - Canvas.width c)
    by (rewrite HX; apply Q.le_min_r).
  simpl in Hx, Hw |- *. repeat split; lra.
Qed.

Lemma camera_stays_in_level_witness :
  let s' := fst (update GameStatus.playing 1 (Some viewport) demoLevel walkingSession) in
  0 <= Camera.x (camera s') <= 6200 /\ Camera.y (camera s') <= 200.
Proof.
  assert (Hw : Canvas.width viewport <= GameConfig.levelWidth CONFIG)
    by (vm_compute; discriminate).
  assert (Hx : 0 <= Camera.x (camera walkingSession)
               <= GameConfig.levelWidth CONFIG - Canvas.width viewport)
    by (split; vm_compute; discriminate).
  assert (Hy : Camera.y (camera walkingSession) <= 800 - Canvas.height viewport)
    by (vm_compute; discriminate).
  destruct (camera_stays_in_level GameStatus.playing 1 viewport demoLevel
              walkingSession Hw Hx Hy) as ((H1 & H2) & H3).
  intros s'. split; [split; [exact H1|] |].
  - apply (Qle_trans _ _ _ H2). vm_compute. discriminate.
  - apply (Qle_trans _ _ _ H3). vm_compute. discriminate.
Defined.

(** ** Session reset, continued *)

Lemma find_none_start (l : list LevelEntity.t) :
  (forall e, In e l -> LevelEntity.type e <> EntityType.start) ->
  List.find (isType EntityType.start) l = None.
Proof.
  intros H. induction l as [|e l IH]; simpl; [reflexivity|].
  unfold isType at 1. destruct (LevelEntity.type e) eqn:Et; simpl;
    try (apply IH; intros e' He'; apply H; right; exact He').
  exfalso. apply (H e); [left; reflexivity | exact Et].
Qed.

Lemma find_first_start (pre post : list LevelEntity.t) (st : LevelEntity.t) :
  (forall e, In e pre -> LevelEntity.type e <> EntityType.start) ->
  LevelEntity.type st = EntityType.start ->
  List.find (isType EntityType.start) (pre ++ st :: post) = Some st.
Proof.
  intros H Hst. induction pre as [|e pre IH]; simpl.
  - unfold isType. rewrite Hst. reflexivity.
  - unfold isType at 1. destruct (LevelEntity.type e) eqn:Et; simpl;
      try (apply IH; intros e' He'; apply H; right; exact He').
    exfalso. apply (H e); [left; reflexivity | exact Et].
Qed.

(** X19.  Where a session starts.  A level with no start marker puts
    the player at the built-in position (50, 350); a level with several
    uses the first one in array order.  In both cases the player is at
    rest, 30 by 50, not grounded, facing right. *)
Theorem initialPlayer_start_lookup (LEVEL_1 pre post : list LevelEntity.t)
    (st : LevelEntity.t)
    (Hpre : forall e, In e pre -> LevelEntity.type e <> EntityType.start)
    (Hst : LevelEntity.type st = EntityType.start) :
  initialPlayer (pre ++ st :: post)
    = PlayerState.mk (LevelEntity.x st) (LevelEntity.y st) 0 0 30 50 false 1 0
  /\ ((forall e, In e LEVEL_1 -> LevelEntity.type e <> EntityType.start) ->
      initialPlayer LEVEL_1 = PlayerState.mk 50 350 0 0 30 50 false 1 0)
  /\ initialPlayer [] = PlayerState.mk 50 350 0 0 30 50 false 1 0.
Proof.
  unfold initialPlayer. rewrite (find_first_start pre post st Hpre Hst).
  split; [reflexivity|]. split; [|reflexivity].
  intros Hnone. rewrite (find_none_start LEVEL_1 Hnone). reflexivity.
Qed.

Lemma initialPlayer_start_lookup_witness :
  initialPlayer twoStartLevel = PlayerState.mk 120 300 0 0 30 50 false 1 0
  /\ initialPlayer noStartLevel = PlayerState.mk 50 350 0 0 30 50 false 1 0.
Proof.
  assert (Hpre : forall e, In e [entity "ground" EntityType.platform 0 550 1000 50] ->
                           LevelEntity.type e <> EntityType.start)
    by (intros e [<- | []]; discriminate).
  destruct (initialPlayer_start_lookup noStartLevel
              [entity "ground" EntityType.platform 0 550 1000 50]
              [entity "start-b" EntityType.start 640 200 0 0]
              (entity "start-a" EntityType.start 120 300 0 0) Hpre eq_refl)
    as (Hfirst & Hnone & _).
  split; [exact Hfirst | apply Hnone, Hpre].
Defined.

(** X20.  A numeric field given as 0 counts as missing.  A monster
    descriptor with [speed: 0] gets speed 2, with [patrolStart: 0] it
    patrols from [x - 100], with [patrolEnd: 0] up to [x + 100]; only
    non-zero values are kept. *)
Theorem zero_fields_are_defaulted (m : LevelEntity.t) (v : Q) (Hv : v == 0) :
  let s := initialMonster m in
  (LevelEntity.speed m = Some v ->
   MonsterState.speed s = 2 /\ MonsterState.vx s = 2)
  /\ (LevelEntity.patrolStart m = Some v ->
      MonsterState.patrolStart s = LevelEntity.x m - 100)
  /\ (LevelEntity.patrolEnd m = Some v ->
      MonsterState.patrolEnd s = LevelEntity.x m + 100).
Proof.
  assert (Hz : Qeq_bool v 0 = true) by (apply Qeq_bool_iff; exact Hv).
  destruct m as [i mx my mw mh ty ps pe sp]; simpl.
  split; [|split]; intros ->; simpl; rewrite Hz; try split; reflexivity.
Qed.

Lemma zero_fields_are_defaulted_witness :
  MonsterState.patrolStart (initialMonster edgeMonster) == -40
  /\ MonsterState.patrolEnd (initialMonster edgeMonster) == 200.
Proof.
  assert (Hv : 0 == 0) by reflexivity.
  destruct (zero_fields_are_defaulted edgeMonster 0 Hv) as (_ & Hps & _).
  rewrite (Hps eq_refl). split; vm_compute; reflexivity.
Defined.

(** ** Standing on a platform *)

Lemma overlapsEntity_ext (p q : PlayerState.t) (e : LevelEntity.t) :
  PlayerState.x p == PlayerState.x q -> PlayerState.y p == PlayerState.y q ->
  PlayerState.width p == PlayerState.width q ->
  PlayerState.height p == PlayerState.height q ->
  overlapsEntity p e = overlapsEntity q e.
Proof.
  intros Hx Hy Hw Hh. unfold overlapsEntity, Qgtb, Qltb.
  rewrite Hx, Hy, Hw, Hh. reflexivity.
Qed.

Lemma overlapsMonster_ext (p q : PlayerState.t) (m : MonsterState.t) :
  PlayerState.x p == PlayerState.x q -> PlayerState.y p == PlayerState.y q ->
  PlayerState.width p == PlayerState.width q ->
  PlayerState.height p == PlayerState.height q ->
  overlapsMonster p m = overlapsMonster q m.
Proof.
  intros Hx Hy Hw Hh. unfold overlapsMonster, Qgtb, Qltb.
  rewrite Hx, Hy, Hw, Hh. reflexivity.
Qed.

(** The player the scan receives when the session's player stands still
    inside the world with no key down. *)
Lemma standing_before_scan (jumpModifier : Q) (s : Session) :
  pressed (keys s) "ArrowLeft" = false ->
  pressed (keys s) "ArrowRight" = false ->
  pressed (keys s) "Space" = false ->
  PlayerState.vx (player s) == 0 -> PlayerState.vy (player s) == 0 ->
  0 <= PlayerState.x (player s) <= GameConfig.levelWidth CONFIG ->
  let p := playerBeforeScan jumpModifier s in
  PlayerState.x p == PlayerState.x (player s)
  /\ PlayerState.y p == PlayerState.y (player s) + GameConfig.gravity CONFIG
  /\ PlayerState.vx p == 0
  /\ PlayerState.vy p == GameConfig.gravity CONFIG
  /\ PlayerState.width p = PlayerState.width (player s)
  /\ PlayerState.height p = PlayerState.height (player s).
Proof.
  intros Hl Hr Hs Hvx Hvy Hworld p. subst p. unfold playerBeforeScan.
  destruct (playerPhysics_integrates (keys s) jumpModifier (player s))
    as (Hx & Hy & Hw & Hh & _).
  assert (Hair : pressed (keys s) "Space" && PlayerState.isGrounded (player s) = false)
    by (rewrite Hs; reflexivity).
  destruct (playerPhysics_airborne (keys s) jumpModifier (player s) Hair)
    as (Hvy' & _ & _).
  assert (Hvx' : PlayerState.vx (playerPhysics (keys s) jumpModifier (player s))
                 == 0).
  { rewrite playerPhysics_vx, (horizontalMovement_idle _ _ Hl Hr).
    rewrite frictionAndLimits_free.
    - rewrite Hvx. reflexivity.
    - rewrite Hvx. vm_compute. discriminate. }
  set (r := playerPhysics (keys s) jumpModifier (player s)) in *. clearbody r.
  destruct (worldBoundaries_spec (PlayerState.set_isGrounded false r))
    as (_ & _ & _ & Hsame & _).
  simpl in Hsame, Hworld. rewrite Hsame.
  - simpl. rewrite Hx, Hy, Hvy', Hvx', Hvy, Hw, Hh. simpl.
    repeat split; try reflexivity; lra.
  - rewrite Hx, Hvx'. lra.
Qed.

(** X21.  Standing still is stable.  Take a player at rest, with no key
    down, placed on the top of a platform [e] (at [y = e.y - height], the
    position a landing assigns), at least one unit inside [e] on both
    sides, [e] and the player together at least one unit high, all sizes
    and coordinates at most [10^6] in magnitude, touching nothing else
    (the entities listed before [e] do not overlap the player as gravity
    moves it, those after [e] and the moved monsters do not overlap its
    resting place).  The frame pulls the player [gravity] into the
    platform and the scan puts it back: no request is made and the player
    ends at the same position, at rest, grounded. *)
Theorem standing_is_stable (jumpModifier : Q) (canvas : option Canvas.t)
    (pre post : list LevelEntity.t) (e : LevelEntity.t) (s : Session)
    (Hl : pressed (keys s) "ArrowLeft" = false)
    (Hr : pressed (keys s) "ArrowRight" = false)
    (Hs : pressed (keys s) "Space" = false)
    (Hvx : PlayerState.vx (player s) == 0)
    (Hvy : PlayerState.vy (player s) == 0)
    (Hworld : 0 <= PlayerState.x (player s) <= GameConfig.levelWidth CONFIG)
    (Hvoid : PlayerState.y (player s) + GameConfig.gravity CONFIG <= 800)
    (Hplat : LevelEntity.type e = EntityType.platform)
    (Hon : PlayerState.y (player s)
           == LevelEntity.y e - PlayerState.height (player s))
    (Hthick : 1 <= PlayerState.height (player s) + LevelEntity.h e)
    (Hdeep : LevelEntity.x e + 1
             <= PlayerState.x (player s) + PlayerState.width (player s)
             /\ PlayerState.x (player s) + 1
                <= LevelEntity.x e + LevelEntity.w e)
    (Hsize : Forall (fun v => Qabs v <= 1000000)
               [PlayerState.width (player s); PlayerState.height (player s);
                LevelEntity.x e; LevelEntity.y e;
                LevelEntity.w e; LevelEntity.h e])
    (Hpre : Forall (fun e' => overlapsEntity (playerBeforeScan jumpModifier s) e'
                              = false) pre)
    (Hpost : Forall (fun e' => overlapsEntity (player s) e' = false) post)
    (Hmon : Forall (fun m => overlapsMonster (player s) (monsterLogic m) = false)
              (monsters s)) :
  let r := update GameStatus.playing jumpModifier canvas (pre ++ e :: post) s in
  snd r = None
  /\ PlayerState.x (player (fst r)) == PlayerState.x (player s)
  /\ PlayerState.y (player (fst r)) == PlayerState.y (player s)
  /\ PlayerState.vx (player (fst r)) == 0
  /\ PlayerState.vy (player (fst r)) == 0
  /\ PlayerState.isGrounded (player (fst r)) = true.
Proof.
  intros r.
  destruct (standing_before_scan jumpModifier s Hl Hr Hs Hvx Hvy Hworld)
    as (Bx & By & Bvx & Bvy & Bw & Bh).
  set (p := playerBeforeScan jumpModifier s) in *.
  simpl in Hvoid, Hthick, Hdeep, By, Bvy.
  (* the platform is overlapped, on the vertical axis, while falling *)
  assert (Ho : overlapsEntity p e = true).
  { apply overlapsEntity_true. rewrite Bx, By, Bw, Bh. repeat split; lra. }
  assert (Hax : Qltb (overlapX p e) (overlapY p e) = false).
  { apply Qltb_false. unfold overlapX, overlapY.
    rewrite !half_extents_min, Bx, By, Bw, Bh.
    apply Q.min_glb; (eapply Qle_trans; [apply Q.le_min_l|]); lra. }
  assert (Hfall : Qgtb (PlayerState.vy p) 0 = true)
    by (apply Qgtb_true; rewrite Bvy; lra).
  assert (Hres : resolvePlatform p e
                 = PlayerState.set_vy 0
                     (PlayerState.set_isGrounded true
                        (PlayerState.set_y (LevelEntity.y e - PlayerState.height p) p)))
    by (unfold resolvePlatform; rewrite Hax, Hfall; reflexivity).
  set (q := resolvePlatform p e) in *.
  assert (Qx : PlayerState.x q == PlayerState.x (player s))
    by (rewrite Hres; simpl; exact Bx).
  assert (Qy : PlayerState.y q == PlayerState.y (player s))
    by (rewrite Hres; simpl; rewrite Bh; lra).
  assert (Qw : PlayerState.width q == PlayerState.width (player s))
    by (rewrite Hres; simpl; rewrite Bw; reflexivity).
  assert (Qh : PlayerState.height q == PlayerState.height (player s))
    by (rewrite Hres; simpl; rewrite Bh; reflexivity).
  (* the scan *)
  assert (Hscan : entityCollision (pre ++ e :: post) p = (q, None)).
  { rewrite (entityCollision_app pre (e :: post) p p
               (entityCollision_no_overlap pre p Hpre)).
    rewrite (entityCollision_platform e post p Hplat Ho). fold q.
    apply entityCollision_no_overlap.
    eapply Forall_impl; [exact Hpost|]. intros e' He'.
    rewrite (overlapsEntity_ext q (player s) e' Qx Qy Qw Qh). exact He'. }
  assert (Hm : monsterCollision (List.map monsterLogic (monsters s)) q = false).
  { unfold monsterCollision. clear -Hmon Qx Qy Qw Qh.
    induction Hmon as [|m l Hm _ IH]; simpl; [reflexivity|].
    rewrite (overlapsMonster_ext q (player s) _ Qx Qy Qw Qh), Hm. exact IH. }
  assert (Hv : Qgtb (PlayerState.y p) 800 = false)
    by (apply Qgtb_false; rewrite By; lra).
  subst r. rewrite update_playing_eq. cbv zeta. fold p.
  rewrite Hv, Hscan, Hm. cbn [fst snd player].
  split; [reflexivity|]. split; [exact Qx|]. split; [exact Qy|].
  rewrite Hres. simpl. split; [exact Bvx|]. split; reflexivity.
Qed.

Lemma standing_is_stable_witness :
  let r := update GameStatus.playing 1 None demoLevel restingSession in
  snd r = None
  /\ PlayerState.y (player (fst r)) == 500
  /\ PlayerState.isGrounded (player (fst r)) = true.
Proof.
  assert (Hvx : PlayerState.vx (player restingSession) == 0) by reflexivity.
  assert (Hvy : PlayerState.vy (player restingSession) == 0) by reflexivity.
  assert (Hworld : 0 <= PlayerState.x (player restingSession)
                   <= GameConfig.levelWidth CONFIG)
    by (split; vm_compute; discriminate).
  assert (Hvoid : PlayerState.y (player restingSession) + GameConfig.gravity CONFIG
                  <= 800) by (vm_compute; discriminate).
  assert (Hon : PlayerState.y (player restingSession)
                == 550 - PlayerState.height (player restingSession))
    by (vm_compute; reflexivity).
  assert (Hthick : 1 <= PlayerState.height (player restingSession) + 50)
    by (vm_compute; discriminate).
  assert (Hdeep : 0 + 1
                  <= PlayerState.x (player restingSession)
                     + PlayerState.width (player restingSession)
                  /\ PlayerState.x (player restingSession) + 1
                     <= 0 + 1000)
    by (split; vm_compute; discriminate).
  assert (Hsize : Forall (fun v => Qabs v <= 1000000)
                    [PlayerState.width (player restingSession);
                     PlayerState.height (player restingSession);
                     0; 550; 1000; 50])
    by (repeat constructor; vm_compute; discriminate).
  assert (Hpre : Forall (fun e' => overlapsEntity (playerBeforeScan 1 restingSession) e'
                                   = false)
                   [entity "start" EntityType.start 50 350 0 0])
    by (repeat constructor).
  assert (Hpost : Forall (fun e' => overlapsEntity (player restingSession) e' = false)
                    [walkerEntity; entity "goal" EntityType.goal 900 450 50 100])
    by (repeat constructor).
  assert (Hmon : Forall (fun m => overlapsMonster (player restingSession)
                                    (monsterLogic m) = false)
                   (monsters restingSession))
    by (repeat constructor).
  destruct (standing_is_stable 1 None
              [entity "start" EntityType.start 50 350 0 0]
              [walkerEntity; entity "goal" EntityType.goal 900 450 50 100]
              (entity "ground" EntityType.platform 0 550 1000 50) restingSession
              ltac:(reflexivity) ltac:(reflexivity) ltac:(reflexivity)
              Hvx Hvy Hworld Hvoid eq_refl Hon Hthick Hdeep Hsize Hpre Hpost Hmon)
    as (Hreq & _ & Hy & _ & _ & Hg).
  intros r. split; [exact Hreq|]. split; [|exact Hg].
  rewrite Hy. reflexivity.
Defined.

(** ** Score, continued *)

(** X22.  The range of the score.  It is never below 1000; it is at
    most 10000 for every elapsed time [t >= 0] and exceeds 10000 for
    every negative one. *)
Theorem calculatePoints_range (t : Q) :
  (1000 <= calculatePoints t)%Z
  /\ (0 <= t -> (calculatePoints t <= 10000)%Z)
  /\ (t < 0 -> (10000 < calculatePoints t)%Z).
Proof.
  destruct (score_bounds t) as (Hlo & Hup & Hneg).
  unfold calculatePoints. cbv zeta.
  split; [exact Hlo|]. split; intros H.
  - apply Hup. exact H.
  - apply Hneg. exact H.
Qed.

Lemma calculatePoints_range_witness :
  (calculatePoints 12.34 <= 10000)%Z /\ (10000 < calculatePoints (-0.001))%Z.
Proof.
  destruct (calculatePoints_range 12.34) as (_ & Hup & _).
  destruct (calculatePoints_range (-0.001)) as (_ & _ & Hneg).
  split; [apply Hup; vm_compute; discriminate | apply Hneg; vm_compute; reflexivity].
Defined.

(** ** The container *)

Lemma points_bounds (t : Q) :
  (1000 <= GameContainer.calculatePoints t)%Z
  /\ (0 <= t -> (GameContainer.calculatePoints t <= 10000)%Z).
Proof.
  destruct (score_bounds t) as (Hlo & Hup & _).
  unfold GameContainer.calculatePoints. cbv zeta.
  split; [exact Hlo | exact Hup].
Qed.

(** X23.  What a finished run records.  From [playing] with a start
    time already taken ([startTimeRef > 0]), a change to [won] stores the
    elapsed seconds [(now - start) / 1000], as the source's subtraction
    and division round them, together with their score, which is at
    least 1000 and, when the clock has not gone backwards, at most 10000.
    With no start time taken ([startTimeRef <= 0]) a win stores nothing,
    and a change to [lost] never touches the completion data. *)
Theorem win_records_score (now : Q) (c : Container.t)
    (Hplay : Container.gameState c = GameStatus.playing) :
  let won := Container.setGameState GameStatus.won now c in
  let elapsed := fl64 (fl64 (now - Container.startTimeRef c) / 1000) in
  Container.gameState won = GameStatus.won
  /\ (0 < Container.startTimeRef c ->
      Container.completionData won
      = Some (CompletionData.mk elapsed (GameContainer.calculatePoints elapsed))
      /\ (1000 <= GameContainer.calculatePoints elapsed)%Z
      /\ (Container.startTimeRef c <= now ->
          (GameContainer.calculatePoints elapsed <= 10000)%Z))
  /\ (Container.startTimeRef c <= 0 ->
      Container.completionData won = Container.completionData c)
  /\ Container.completionData (Container.setGameState GameStatus.lost now c)
     = Container.completionData c
  /\ Container.startTimeRef won = Container.startTimeRef c.
Proof.
  intros won elapsed. subst won.
  unfold Container.setGameState, Container.completeOnWin, Container.trackStart.
  rewrite Hplay. cbn [GameStatus.eqb andb Container.gameState Container.completionData
                      Container.startTimeRef].
  destruct (Qgtb (Container.startTimeRef c) 0) eqn:E;
    cbn [GameStatus.eqb andb Container.gameState Container.completionData
         Container.startTimeRef]; qprop.
  - split; [reflexivity|]. split; [|split; [intros H; lra | split; reflexivity]].
    intros _. split; [reflexivity|].
    destruct (points_bounds elapsed) as [Hlo Hhi].
    split; [exact Hlo|]. intros Hclock. apply Hhi. subst elapsed.
    destruct (fl64_sign (now - Container.startTimeRef c)) as (_ & _ & Hd).
    destruct (fl64_sign (fl64 (now - Container.startTimeRef c) / 1000)) as (_ & _ & Hq).
    apply Hq. specialize (Hd ltac:(lra)).
    unfold Qdiv. change (/ 1000) with (1 # 1000). lra.
  - split; [reflexivity|]. split; [intros H; lra|].
    split; [intros _; reflexivity | split; reflexivity].
Qed.

(** A run of 1150 ms: the quotient is the double 1.15, whose product with
    100 rounds below 115. *)
Lemma win_records_score_witness :
  Container.completionData (Container.setGameState GameStatus.won 1001150 runningContainer)
  = Some (CompletionData.mk (fl64 (fl64 (1001150 - 1000000) / 1000))
            (GameContainer.calculatePoints (fl64 (fl64 (1001150 - 1000000) / 1000))))
  /\ fl64 (fl64 (1001150 - 1000000) / 1000) == fl64 1.15
  /\ GameContainer.calculatePoints (fl64 (fl64 (1001150 - 1000000) / 1000)) = 9886%Z.
Proof.
  destruct (win_records_score 1001150 runningContainer eq_refl) as (_ & Hwin & _).
  assert (Hs : 0 < Container.startTimeRef runningContainer) by reflexivity.
  destruct (Hwin Hs) as (Hdata & _).
  split; [exact Hdata | split; vm_compute; reflexivity].
Defined.

(** ** The application *)

Lemma completionConsistent_setGameState (status : GameStatus.t) (now : Q)
    (c : Container.t) :
  (Container.gameState c = GameStatus.playing \/ status = GameStatus.playing) ->
  completionConsistent c ->
  completionConsistent (Container.setGameState status now c).
Proof.
  intros Hfrom [Hp Hd].
  unfold Container.setGameState.
  destruct (GameStatus.eqb status (Container.gameState c)) eqn:E; [split; assumption|].
  unfold Container.completeOnWin, Container.trackStart. simpl.
  destruct status; simpl.
  - (* start *) destruct Hfrom as [Hg | Hs]; [|discriminate].
    specialize (Hp Hg). split; simpl; [discriminate|].
    intros d Hsome. rewrite Hp in Hsome. discriminate.
  - (* playing *) split; simpl; [reflexivity | discriminate].
  - (* won *) destruct Hfrom as [Hg | Hs]; [|discriminate]. specialize (Hp Hg).
    destruct (Qgtb (Container.startTimeRef c) 0); simpl; split; simpl;
      try discriminate.
    + intros d [= <-]. split; reflexivity.
    + intros d Hsome. rewrite Hp in Hsome. discriminate.
  - (* lost *) destruct Hfrom as [Hg | Hs]; [|discriminate]. specialize (Hp Hg).
    split; simpl; [discriminate|].
    intros d Hsome. rewrite Hp in Hsome. discriminate.
Qed.

Lemma completionConsistent_step (canvas : option Canvas.t)
    (LEVEL_1 : list LevelEntity.t) (a : App) (ev : Event) :
  completionConsistent (container a) ->
  completionConsistent (container (step canvas LEVEL_1 a ev)).
Proof.
  intros Hc. destruct ev as [now | now | code | code | val]; simpl; try exact Hc.
  - (* a frame *)
    unfold onFrame.
    destruct (update (Container.gameState (container a))
                (Container.jumpModifier (container a)) canvas LEVEL_1 (session a))
      as [s' request] eqn:Eu.
    destruct request as [status|]; [|exact Hc].
    unfold appSetGameState. simpl.
    destruct (GameStatus.eqb status (Container.gameState (container a)));
      [exact Hc|]. simpl.
    apply completionConsistent_setGameState; [left | exact Hc].
    destruct (GameStatus.eqb (Container.gameState (container a)) GameStatus.playing)
      eqn:E; [destruct (Container.gameState (container a)); easy|].
    rewrite update_idle in Eu; [discriminate Eu | intros H; rewrite H in E; discriminate E].
  - (* the restart button *)
    unfold appSetGameState.
    destruct (GameStatus.eqb GameStatus.playing (Container.gameState (container a)));
      [exact Hc|]. simpl.
    apply completionConsistent_setGameState; [right; reflexivity | exact Hc].
Qed.

Lemma run_completionConsistent (canvas : option Canvas.t)
    (LEVEL_1 : list LevelEntity.t) (events : list Event) :
  completionConsistent (container (run canvas LEVEL_1 events mountedApp)).
Proof.
  assert (Hgen : forall a, completionConsistent (container a) ->
                           completionConsistent
                             (container (run canvas LEVEL_1 events a))).
  { induction events as [|ev evs IH]; intros a Ha; [exact Ha|].
    unfold run. simpl. apply IH. apply completionConsistent_step, Ha. }
  apply Hgen. split; simpl; [reflexivity | discriminate].
Qed.

(** X24.  Completion data belongs to a win.  After any sequence of
    frames, restart clicks, key events and slider moves on the mounted
    application, the container never holds completion data unless the
    status is [won], holds none while [playing], and the points it holds
    are the score of the time it holds. *)
Theorem completion_data_only_for_wins (canvas : option Canvas.t)
    (LEVEL_1 : list LevelEntity.t) (events : list Event) :
  let c := container (run canvas LEVEL_1 events mountedApp) in
  (Container.gameState c = GameStatus.playing -> Container.completionData c = None)
  /\ (forall d, Container.completionData c = Some d ->
        Container.gameState c = GameStatus.won
        /\ CompletionData.points d
           = GameContainer.calculatePoints (CompletionData.completionTime d)).
Proof.
  intros c.
  destruct (run_completionConsistent canvas LEVEL_1 events) as [Hplaying Hdata].
  split; [exact Hplaying | exact Hdata].
Qed.

Lemma onFrame_idle (now : Q) (canvas : option Canvas.t)
    (LEVEL_1 : list LevelEntity.t) (a : App) :
  Container.gameState (container a) <> GameStatus.playing ->
  onFrame now canvas LEVEL_1 a = a.
Proof.
  intros H. unfold onFrame. rewrite (update_idle _ _ _ _ _ H).
  destruct a; reflexivity.
Qed.

(** X25.  The game stands still until it is restarted.  In every status
    but [playing], frames change nothing at all, however many.  A restart
    click then puts the status to [playing], clears the completion data,
    takes the start time and rebuilds player, monsters and camera from
    the level; while [playing] a restart click does nothing. *)
Theorem frozen_until_restart (canvas : option Canvas.t)
    (LEVEL_1 : list LevelEntity.t) (times : list Q) (now : Q) (a : App) :
  (Container.gameState (container a) <> GameStatus.playing ->
   run canvas LEVEL_1 (List.map Frame times) a = a
   /\ step canvas LEVEL_1 a (RestartClick now)
      = mkApp (Container.mk GameStatus.playing
                 (Container.jumpModifier (container a)) None now)
          (mkSession (initialPlayer LEVEL_1) (Camera.mk 0 0)
             (initialMonsters LEVEL_1) (keys (session a))
             (frameCount (session a))))
  /\ (Container.gameState (container a) = GameStatus.playing ->
      step canvas LEVEL_1 a (RestartClick now) = a).
Proof.
  split.
  - intros Hne. split.
    + induction times as [|t ts IH]; [reflexivity|].
      unfold run in *. simpl. rewrite (onFrame_idle _ _ _ _ Hne). exact IH.
    + simpl. unfold appSetGameState, Container.setGameState,
        Container.completeOnWin, Container.trackStart.
      destruct (Container.gameState (container a)); try contradiction; reflexivity.
  - intros Hp. simpl. unfold appSetGameState. rewrite Hp. reflexivity.
Qed.

Lemma frozen_until_restart_witness :
  run None demoLevel [Frame 1000016; Frame 1000033; Frame 1000050] lostApp = lostApp
  /\ player (session (step None demoLevel lostApp (RestartClick 1002000)))
     = initialPlayer demoLevel.
Proof.
  assert (Hne : Container.gameState (container lostApp) <> GameStatus.playing)
    by discriminate.
  destruct (frozen_until_restart None demoLevel [1000016; 1000033; 1000050]
              1002000 lostApp) as (Hfrozen & _).
  destruct (Hfrozen Hne) as (Hrun & Hrestart).
  split; [exact Hrun | rewrite Hrestart; reflexivity].
Defined.

Lemma completion_data_only_for_wins_witness :
  Container.completionData
    (container (run None demoLevel [RestartClick 1000000; Frame 1000016] mountedApp))
  = None.
Proof.
  destruct (completion_data_only_for_wins None demoLevel
              [RestartClick 1000000; Frame 1000016]) as (Hplaying & _).
  apply Hplaying. vm_compute. reflexivity.
Defined.

(** X26.  What the overlay shows.  The start screen and the end screen
    never show together, and while [playing] neither does, so no restart
    button is on screen during a run.  In every state the mounted
    application can reach, the score panel is on screen exactly when the
    container holds completion data. *)
Theorem score_panel_iff_completion_data (canvas : option Canvas.t)
    (LEVEL_1 : list LevelEntity.t) (events : list Event)
    (gameState : GameStatus.t) :
  let c := container (run canvas LEVEL_1 events mountedApp) in
  UIOverlay.endScreen gameState && UIOverlay.startScreen gameState = false
  /\ UIOverlay.restartButton gameState
     = negb (GameStatus.eqb gameState GameStatus.playing)
  /\ (UIOverlay.scorePanel (Container.gameState c) (Container.completionData c)
      = true
      <-> Container.completionData c <> None).
Proof.
  intros c. split; [destruct gameState; reflexivity|].
  split; [destruct gameState; reflexivity|].
  destruct (run_completionConsistent canvas LEVEL_1 events) as [_ Hd].
  fold c in Hd. destruct (Container.completionData c) as [d|] eqn:E.
  - destruct (Hd d eq_refl) as [-> _]. split; [discriminate | reflexivity].
  - split; [|intros H; contradiction].
    unfold UIOverlay.scorePanel. rewrite !andb_false_r. discriminate.
Qed.

(** ** Grounded means at rest vertically *)

Lemma resolvePlatform_grounded_rest (p : PlayerState.t) (e : LevelEntity.t) :
  (PlayerState.isGrounded p = true -> PlayerState.vy p = 0) ->
  PlayerState.isGrounded (resolvePlatform p e) = true ->
  PlayerState.vy (resolvePlatform p e) = 0.
Proof.
  unfold resolvePlatform.
  destruct (Qltb (overlapX p e) (overlapY p e));
    [destruct (Qgtb (PlayerState.vx p) 0) | destruct (Qgtb (PlayerState.vy p) 0)];
    simpl; auto.
Qed.

Lemma entityCollision_grounded_rest (LEVEL_1 : list LevelEntity.t)
    (p : PlayerState.t) :
  (PlayerState.isGrounded p = true -> PlayerState.vy p = 0) ->
  PlayerState.isGrounded (fst (entityCollision LEVEL_1 p)) = true ->
  PlayerState.vy (fst (entityCollision LEVEL_1 p)) = 0.
Proof.
  revert p. induction LEVEL_1 as [|e l IH]; intros p Hp; simpl; [exact Hp|].
  destruct (isType EntityType.monster e); [apply IH, Hp|].
  destruct (overlapsEntity p e); [|apply IH, Hp].
  destruct (LevelEntity.type e); try (apply IH, Hp); try exact Hp.
  apply IH. apply resolvePlatform_grounded_rest, Hp.
Qed.

(** X27.  A frame never leaves the player grounded and moving
    vertically: whenever a playing frame ends with [isGrounded = true],
    it ends with [vy = 0], whatever the level, the keys and the state it
    started from. *)
Theorem grounded_means_no_vertical_speed (jumpModifier : Q)
    (canvas : option Canvas.t) (LEVEL_1 : list LevelEntity.t) (s : Session) :
  let p' := player (fst (update GameStatus.playing jumpModifier canvas LEVEL_1 s)) in
  PlayerState.isGrounded p' = true -> PlayerState.vy p' = 0.
Proof.
  intros p'. subst p'. rewrite update_player. cbv zeta.
  pose proof (playerBeforeScan_not_grounded jumpModifier s) as Hng.
  destruct (Qgtb _ 800).
  - rewrite Hng. discriminate.
  - apply entityCollision_grounded_rest. rewrite Hng. discriminate.
Qed.

Lemma grounded_means_no_vertical_speed_witness :
  PlayerState.vy
    (player (fst (update GameStatus.playing 1 None spikedFloor fallingSession)))
  = 0.
Proof.
  apply (grounded_means_no_vertical_speed 1 None spikedFloor fallingSession).
  vm_compute. reflexivity.
Defined.
